(** * Revenue-insights: the sales dashboard backend ([backend/server.py])

    A shallow embedding of the sample-data generator and of the metrics
    calculators of [server.py], and the properties its specification states
    about them.

    Conventions of the embedding.
    - Python [float] values that carry money, rates and percentages are exact
      rationals ([Q]); [round(x, n)] is rounding to [n] decimals, ties to
      even.  The one place where the code turns a float back into an integer,
      [int(base_transactions * 0.6)], is computed on binary64 floats.
    - [int] is [Z], [str] is [string], a list is a [list].
    - The MongoDB collection [db.sales] is the list of its documents together
      with a log of the driver calls made on it.
    - The [random] module is a script of unit draws that is consumed one
      draw per call.
    - A Python exception is a value of [exn]; a function of the module is a
      state transformer that returns a value or raises. *)

From Stdlib Require Import ZArith QArith Qround Qabs Floats List Bool Lia Lqa.
From Stdlib Require Import String Ascii DecimalString Sorting.Sorted Permutation.
From Stdlib Require Import OrderedTypeEx.
From Stdlib Require Import DecimalNat.
Import ListNotations.

Open Scope Z_scope.

(** ** Python values *)

Module Py.

(** Built-in exceptions the module can meet, and FastAPI's [HTTPException]. *)
Inductive exn : Type :=
| HTTPException (status_code : Z) (detail : string)
| ZeroDivisionError
| IndexError
| ValueError
| TypeError
| OverflowError
| OperationFailure.

Inductive result (A : Type) : Type :=
| Ok (a : A)
| Raise (e : exn).
Arguments Ok {A} a.
Arguments Raise {A} e.

(** A computation over a state [S] that returns or raises; the state it
    reached is kept in both cases. *)
Definition M (S A : Type) : Type := S -> result A * S.

Definition ret {S A} (a : A) : M S A := fun s => (Ok a, s).
Definition raise {S A} (e : exn) : M S A := fun s => (Raise e, s).
Definition bind {S A B} (c : M S A) (k : A -> M S B) : M S B :=
  fun s => match c s with
           | (Ok a, s') => k a s'
           | (Raise e, s') => (Raise e, s')
           end.
Definition get {S} : M S S := fun s => (Ok s, s).
Definition put {S} (s : S) : M S unit := fun _ => (Ok tt, s).

(** [try: body except Exception as e: handler(e)]. *)
Definition try_except {S A} (body : M S A) (handler : exn -> M S A) : M S A :=
  fun s => match body s with
           | (Ok a, s') => (Ok a, s')
           | (Raise e, s') => handler e s'
           end.

(** [round(x)] on an exact value: nearest integer, ties to even. *)
Definition round_half_even (x : Q) : Z :=
  let f := Qfloor x in
  match Qcompare (x - inject_Z f)%Q (1 # 2)%Q with
  | Lt => f
  | Gt => f + 1
  | Eq => if Z.even f then f else f + 1
  end.

(** [round(x, ndigits)]. *)
Definition round (x : Q) (ndigits : nat) : Q :=
  let p := inject_Z (10 ^ Z.of_nat ndigits) in
  (inject_Z (round_half_even (x * p)) / p)%Q.

(** [a / b]: true division, [ZeroDivisionError] on a zero divisor. *)
Definition truediv {S} (a b : Q) : M S Q :=
  if Qeq_bool b 0 then raise ZeroDivisionError else ret (a / b)%Q.

(** [sum(xs)]. *)
Definition sum (xs : list Q) : Q := fold_left Qplus xs 0%Q.

(** [x > y] and friends on rationals, as booleans. *)
Definition Qgtb (x y : Q) : bool := negb (Qle_bool x y).

(** [float(n)] for an [int] that a binary64 float holds exactly. *)
Definition float_of_int (n : Z) : float :=
  match n with
  | Z0 => PrimFloat.zero
  | Zpos _ => PrimFloat.of_uint63 (Uint63.of_Z n)
  | Zneg _ => PrimFloat.opp (PrimFloat.of_uint63 (Uint63.of_Z (- n)))
  end.

(** [int(x)] for a float: truncation towards zero (0 stands for the
    non-finite values, which [int] refuses). *)
Definition int_of_float (x : float) : Z :=
  match Prim2SF x with
  | S754_finite s m e =>
      let mag := match e with
                 | Z0 => Zpos m
                 | Zpos k => Z.shiftl (Zpos m) (Zpos k)
                 | Zneg k => Z.shiftr (Zpos m) (Zpos k)
                 end in
      if s then - mag else mag
  | _ => 0
  end.

(** [f"{n}"] and [f"{n:0{w}d}"] for a non-negative [n]. *)
Definition str_of_nat (n : nat) : string :=
  NilZero.string_of_uint (Nat.to_uint n).

Fixpoint zeros (k : nat) : string :=
  match k with
  | O => EmptyString
  | S k' => String "0" (zeros k')
  end.

Definition zero_padded (w n : nat) : string :=
  let s := str_of_nat n in
  (zeros (w - String.length s) ++ s)%string.

(** Truthiness of an optional string argument: [None] and [""] are false. *)
Definition truthy (s : option string) : bool :=
  match s with
  | Some s' => negb (String.eqb s' "")
  | None => false
  end.

End Py.

Import Py.

Declare Scope py_scope.
Delimit Scope py_scope with py.
Notation "x <- c ;; k" := (bind c (fun x => k))
  (at level 61, c at next level, right associativity) : py_scope.
Notation "c ;;; k" := (bind c (fun _ => k))
  (at level 61, right associativity) : py_scope.
Open Scope py_scope.

(** ** The [random] module

    The generator state is the script of the unit draws still to come; a
    call consumes the first one (an exhausted script keeps drawing 0). *)

Module Random.

Definition state : Type := list Q.

(** A script entry, brought into [0, 1). *)
Definition unit_of (q : Q) : Q := (q - inject_Z (Qfloor q))%Q.

(** [random.random()]. *)
Definition random (g : state) : Q * state :=
  match g with
  | [] => (0%Q, [])
  | q :: g' => (unit_of q, g')
  end.

(** [random.uniform(a, b)], i.e. [a + (b - a) * random()]. *)
Definition uniform (a b : Q) (g : state) : Q * state :=
  let (u, g') := random g in (a + (b - a) * u, g')%Q.

(** [_randbelow(n)]: [floor(random() * n)]. *)
Definition randbelow (n : Z) (g : state) : Z * state :=
  let (u, g') := random g in (Qfloor (u * inject_Z n)%Q, g').

(** [random.randint(a, b)], i.e. [a + _randbelow(b - a + 1)]. *)
Definition randint (a b : Z) (g : state) : Z * state :=
  let (k, g') := randbelow (b - a + 1) g in (a + k, g').

(** [random.choice(seq)]: [seq[_randbelow(len(seq))]], [IndexError] on an
    empty sequence (nothing is drawn then). *)
Definition choice {A} (seq : list A) (g : state) : result A * state :=
  match seq with
  | [] => (Raise IndexError, g)
  | x :: _ =>
      let (k, g') := randbelow (Z.of_nat (List.length seq)) g in
      (Ok (nth (Z.to_nat k) seq x), g')
  end.

End Random.

(** ** Data model *)

(** [datetime.datetime]; [utcoffset] is [None] for a naive value. *)
Record datetime : Type := {
  year : Z; month : Z; day : Z;
  hour : Z; minute : Z; second : Z; microsecond : Z;
  utcoffset : option Z
}.

(** What the module takes from libraries and services outside the
    repository: the clock and [datetime] arithmetic, [uuid], [Faker],
    MongoDB's date operators, and [str] of an exception. *)
Record Platform : Type := {
  (** [datetime.now(timezone.utc)], by reading number. *)
  now_utc : nat -> datetime;
  (** [d + timedelta(days=n)]. *)
  add_days : datetime -> Z -> datetime;
  (** [d.weekday()]: Monday is 0, Sunday is 6. *)
  weekday : datetime -> Z;
  (** [d.isoformat()]. *)
  isoformat : datetime -> string;
  (** [datetime.fromisoformat(s)]; [None] is [ValueError]. *)
  fromisoformat : string -> option datetime;
  (** [a - b] on two datetimes, in microseconds; [None] is [TypeError]
      (a naive and an aware operand). *)
  datetime_sub : datetime -> datetime -> option Z;
  (** [d - delta]; [None] is [OverflowError]. *)
  datetime_minus : datetime -> Z -> option datetime;
  (** [str(uuid.uuid4())], by call number. *)
  uuid4 : nat -> string;
  (** [fake.name()], [fake.company()], [fake.date_between(...)], by call
      number. *)
  fake_name : nat -> string;
  fake_company : nat -> string;
  fake_date_between : nat -> string;
  (** [$dateToString] with format [%Y-%m] of [$dateFromString] of a stored
      date; [None] is a conversion failure of the pipeline. *)
  month_year : string -> option string;
  (** [str(e)]. *)
  exn_str : exn -> string
}.

Record Product : Type := {
  prod_id : string; prod_name : string; prod_category : string;
  price_range : Z * Z
}.

Record Customer : Type := {
  cust_id : string; cust_name : string; cust_segment : string;
  cust_region : string; created_date : string
}.

Record SalesRecord : Type := {
  record_id : string;
  transaction_id : string;
  date : string;
  customer_id : string;
  customer_name : string;
  customer_segment : string;
  product_id : string;
  product_name : string;
  product_category : string;
  quantity : Z;
  unit_price : Q;
  total_amount : Q;
  region : string;
  sales_rep : string;
  channel : string;
  created_at : datetime
}.

(** ** The store *)

(** A query document of [find]: an optional [$gte]/[$lte] pair on [date]
    and an optional exact match on [region]. *)
Record query_filter : Type := {
  qf_date : option (string * string);
  qf_region : option string
}.

Inductive db_op : Type :=
| OpCountDocuments
| OpInsertMany (n : nat)
| OpFind (q : query_filter)
| OpAggregate (pipeline : string).

Record world : Type := {
  rng : Random.state;
  sales : list SalesRecord;
  oplog : list db_op
}.

(** The world with another generator state, and with one more logged call. *)
Definition with_rng (g : Random.state) (w : world) : world :=
  {| rng := g; sales := sales w; oplog := oplog w |}.
Definition logged (o : db_op) (w : world) : world :=
  {| rng := rng w; sales := sales w; oplog := oplog w ++ [o] |}.

Definition is_write (o : db_op) : bool :=
  match o with
  | OpInsertMany _ => true
  | _ => false
  end.

Definition log_op (o : db_op) : M world unit :=
  fun w => (Ok tt, logged o w).

(** [db.sales.count_documents({})]. *)
Definition count_documents : M world Z :=
  log_op OpCountDocuments ;;;
  w <- get ;;
  ret (Z.of_nat (List.length (sales w))).

(** [db.sales.insert_many(docs)]. *)
Definition insert_many (docs : list SalesRecord) : M world unit :=
  log_op (OpInsertMany (List.length docs)) ;;;
  fun w => (Ok tt, {| rng := rng w; sales := sales w ++ docs; oplog := oplog w |}).

(** Strings compare by code unit, as MongoDB's default collation does. *)
Definition matches (q : query_filter) (r : SalesRecord) : bool :=
  match qf_date q with
  | Some (lo, hi) => String.leb lo (date r) && String.leb (date r) hi
  | None => true
  end
  &&
  match qf_region q with
  | Some x => String.eqb (region r) x
  | None => true
  end.

(** [db.sales.find(q).to_list(length=None)]. *)
Definition find (q : query_filter) : M world (list SalesRecord) :=
  log_op (OpFind q) ;;;
  w <- get ;;
  ret (filter (matches q) (sales w)).

(** Lifting of the [random] module to the world. *)
Definition lift_random {A} (f : Random.state -> A * Random.state) : M world A :=
  fun w => let (a, g) := f (rng w) in (Ok a, with_rng g w).

Definition random_uniform (a b : Q) : M world Q := lift_random (Random.uniform a b).
Definition random_randint (a b : Z) : M world Z := lift_random (Random.randint a b).
Definition random_choice {A} (seq : list A) : M world A :=
  fun w => let (r, g) := Random.choice seq (rng w) in (r, with_rng g w).

(** [for x in xs: acc = body(acc, x)]. *)
Fixpoint for_each {S A B} (xs : list A) (body : B -> A -> M S B) (acc : B) : M S B :=
  match xs with
  | [] => ret acc
  | x :: xs' => acc' <- body acc x ;; for_each xs' body acc'
  end.

(** [range(n)]. *)
Definition range (n : nat) : list nat := seq 0 n.

(** [x in xs] on integers and [a == b] on strings. *)
Definition Zmem (x : Z) (xs : list Z) : bool := existsb (Z.eqb x) xs.
Notation "a ==? b" := (String.eqb a b) (at level 70) : py_scope.

(** ** [generate_sample_data] *)

Section Generator.

Context (P : Platform).

Definition products : list Product :=
  [ {| prod_id := "PROD001"; prod_name := "CloudSync Pro"; prod_category := "Software"; price_range := (99, 299) |};
    {| prod_id := "PROD002"; prod_name := "DataVault Enterprise"; prod_category := "Software"; price_range := (199, 799) |};
    {| prod_id := "PROD003"; prod_name := "SmartAnalytics Suite"; prod_category := "Analytics"; price_range := (149, 499) |};
    {| prod_id := "PROD004"; prod_name := "SecureShield Advanced"; prod_category := "Security"; price_range := (79, 249) |};
    {| prod_id := "PROD005"; prod_name := "WorkFlow Optimizer"; prod_category := "Productivity"; price_range := (59, 199) |};
    {| prod_id := "PROD006"; prod_name := "Mobile Connect API"; prod_category := "Integration"; price_range := (29, 99) |};
    {| prod_id := "PROD007"; prod_name := "AI Assistant Premium"; prod_category := "AI/ML"; price_range := (199, 599) |};
    {| prod_id := "PROD008"; prod_name := "Cloud Storage Plus"; prod_category := "Storage"; price_range := (19, 89) |} ].

Definition regions : list string :=
  ["North America"; "Europe"; "Asia-Pacific"; "Latin America"; "Middle East & Africa"]%string.
Definition channels : list string := ["Online"; "Retail"; "Direct Sales"; "Partner"]%string.
Definition segments : list string := ["Enterprise"; "SMB"; "Individual"]%string.

(** [[fake.name() for _ in range(20)]]. *)
Definition sales_reps : list string := map (fake_name P) (range 20).

(** The loop that fills [customers]. *)
Definition generate_customers : M world (list Customer) :=
  for_each (range 500)
    (fun customers i =>
       segment <- random_choice segments ;;
       region <- random_choice regions ;;
       ret (customers ++
            [ {| cust_id := "CUST" ++ zero_padded 4 (i + 1);
                 cust_name := fake_company P i;
                 cust_segment := segment;
                 cust_region := region;
                 created_date := fake_date_between P i |} ]))
    [].

(** The draw of [base_transactions] for one day, weekend effect included. *)
Definition base_transactions_of (current_date : datetime) : M world Z :=
  let month := month current_date in
  base_transactions <-
    (if Zmem month [11; 12] then random_randint 15 35
     else if Zmem month [6; 7; 8] then random_randint 5 15
     else random_randint 8 20) ;;
  if weekday P current_date >=? 5
  then ret (int_of_float (PrimFloat.mul (float_of_int base_transactions)
                                        0x1.3333333333333p-1%float))
  else ret base_transactions.

(** [prepare_for_mongo(record.dict())]: [date] already is a string, the
    document is stored as it is. *)
Definition prepare_for_mongo (data : SalesRecord) : SalesRecord := data.

(** One turn of the inner loop: the record built for the next slot. *)
Definition make_record (current_date : datetime) (customers : list Customer)
           (sales_records : list SalesRecord) : M world SalesRecord :=
  customer <- random_choice customers ;;
  product <- random_choice products ;;
  quantity <- random_randint 1 10 ;;
  unit_price <- random_uniform (inject_Z (fst (price_range product)))
                               (inject_Z (snd (price_range product))) ;;
  let total_amount := (inject_Z quantity * unit_price)%Q in
  unit_price <-
    (if cust_segment customer ==? "Enterprise"
     then f <- random_uniform (12 # 10) (18 # 10) ;; ret (unit_price * f)%Q
     else if cust_segment customer ==? "Individual"
     then f <- random_uniform (7 # 10) (9 # 10) ;; ret (unit_price * f)%Q
     else ret unit_price) ;;
  let total_amount := (inject_Z quantity * unit_price)%Q in
  let n := List.length sales_records in
  sales_rep <- random_choice sales_reps ;;
  channel <- random_choice channels ;;
  ret {| record_id := uuid4 P n;
         transaction_id := "TXN" ++ zero_padded 6 (n + 1);
         date := isoformat P current_date;
         customer_id := cust_id customer;
         customer_name := cust_name customer;
         customer_segment := cust_segment customer;
         product_id := prod_id product;
         product_name := prod_name product;
         product_category := prod_category product;
         quantity := quantity;
         unit_price := round unit_price 2;
         total_amount := round total_amount 2;
         region := cust_region customer;
         sales_rep := sales_rep;
         channel := channel;
         created_at := now_utc P (S n) |}.

(** The body of [for day in range(730)]. *)
Definition generate_day (start_date : datetime) (customers : list Customer)
           (sales_records : list SalesRecord) (day : nat) : M world (list SalesRecord) :=
  let current_date := add_days P start_date (Z.of_nat day) in
  base_transactions <- base_transactions_of current_date ;;
  for_each (range (Z.to_nat base_transactions))
    (fun sales_records _ =>
       record <- make_record current_date customers sales_records ;;
       ret (sales_records ++ [prepare_for_mongo record]))
    sales_records.

Definition generate_sample_data : M world string :=
  existing_count <- count_documents ;;
  if existing_count >? 0
  then ret ("Sample data already exists (" ++ str_of_nat (Z.to_nat existing_count)
            ++ " records)")%string
  else
    customers <- generate_customers ;;
    let start_date := add_days P (now_utc P 0) (- 730) in
    sales_records <- for_each (range 730) (generate_day start_date customers) [] ;;
    (match sales_records with
     | [] => ret tt
     | _ => insert_many sales_records
     end) ;;;
    ret ("Generated " ++ str_of_nat (List.length sales_records)
         ++ " sales records successfully")%string.

End Generator.

(** ** [get_sales_analytics] *)

Record PeriodComparison : Type := {
  revenue_growth : Q;
  previous_revenue : Q;
  transaction_growth : Q
}.

Record SalesAnalytics : Type := {
  total_revenue : Q;
  total_transactions : Z;
  average_order_value : Q;
  conversion_rate : Q;
  period_comparison : PeriodComparison
}.

(** [if start_date and end_date]: both given and non-empty. *)
Definition dates_given (start_date end_date : option string) : option (string * string) :=
  match start_date, end_date with
  | Some s, Some e => if truthy start_date && truthy end_date then Some (s, e) else None
  | _, _ => None
  end.

(** [if region and region != "all"]. *)
Definition region_given (region : option string) : option string :=
  match region with
  | Some x => if truthy region && negb (x ==? "all") then Some x else None
  | None => None
  end.

(** A library call that raises [e] where the platform gives [None]. *)
Definition or_raise {S A} (e : exn) (o : option A) : M S A :=
  match o with
  | Some a => ret a
  | None => raise e
  end.

(** [not xs] for a list. *)
Definition is_empty {A} (xs : list A) : bool :=
  match xs with
  | [] => true
  | _ => false
  end.

(** [len(xs)]. *)
Definition len {A} (xs : list A) : Z := Z.of_nat (List.length xs).

Section Analytics.

Context (P : Platform).

(** [total_revenue / total_transactions if total_transactions > 0 else 0]. *)
Definition average_order_value_of (total_revenue : Q) (total_transactions : Z) : M world Q :=
  if total_transactions >? 0
  then truediv total_revenue (inject_Z total_transactions)
  else ret 0%Q.

(** [((total_revenue - prev_revenue) / prev_revenue * 100) if prev_revenue > 0 else 0]. *)
Definition revenue_growth_of (total_revenue prev_revenue : Q) : M world Q :=
  if Qgtb prev_revenue 0
  then q <- truediv (total_revenue - prev_revenue)%Q prev_revenue ;; ret (q * 100)%Q
  else ret 0%Q.

(** [((total_transactions - len(prev_data)) / len(prev_data) * 100) if len(prev_data) > 0 else 0]. *)
Definition transaction_growth_of (total_transactions prev_transactions : Z) : M world Q :=
  if prev_transactions >? 0
  then q <- truediv (inject_Z (total_transactions - prev_transactions))
                    (inject_Z prev_transactions) ;;
       ret (q * 100)%Q
  else ret 0%Q.

(** The body of the [try] block. *)
Definition sales_analytics_body (start_date end_date region : option string)
  : M world SalesAnalytics :=
  let query_filter :=
    {| qf_date := dates_given start_date end_date;
       qf_region := region_given region |} in
  sales_data <- find query_filter ;;
  if is_empty sales_data
  then raise (HTTPException 404 "No sales data found")
  else
    let total_revenue := sum (map total_amount sales_data) in
    let total_transactions := len sales_data in
    average_order_value <- average_order_value_of total_revenue total_transactions ;;
    conversion_rate <- random_uniform (25 # 10) (85 # 10) ;;
    period_comparison <-
      match dates_given start_date end_date with
      | Some (start_date, end_date) =>
          start_dt <- or_raise ValueError (fromisoformat P start_date) ;;
          end_dt <- or_raise ValueError (fromisoformat P end_date) ;;
          period_length <- or_raise TypeError (datetime_sub P end_dt start_dt) ;;
          prev_start_dt <- or_raise OverflowError (datetime_minus P start_dt period_length) ;;
          let prev_start := isoformat P prev_start_dt in
          let prev_end := isoformat P start_dt in
          let prev_query :=
            {| qf_date := Some (prev_start, prev_end);
               qf_region := qf_region query_filter |} in
          prev_data <- find prev_query ;;
          let prev_revenue := sum (map total_amount prev_data) in
          revenue_growth <- revenue_growth_of total_revenue prev_revenue ;;
          transaction_growth <- transaction_growth_of total_transactions (len prev_data) ;;
          ret {| revenue_growth := round revenue_growth 2;
                 previous_revenue := round prev_revenue 2;
                 transaction_growth := transaction_growth |}
      | None =>
          ret {| revenue_growth := 0; previous_revenue := 0; transaction_growth := 0 |}
      end ;;
    ret {| total_revenue := round total_revenue 2;
           total_transactions := total_transactions;
           average_order_value := round average_order_value 2;
           conversion_rate := round conversion_rate 2;
           period_comparison := period_comparison |}.

Definition get_sales_analytics (start_date end_date region : option string)
  : M world SalesAnalytics :=
  try_except
    (sales_analytics_body start_date end_date region)
    (fun e => raise (HTTPException 500
                       ("Error calculating sales analytics: " ++ exn_str P e))).

End Analytics.

(** ** [get_customer_analytics] *)

(** A row of the [$group] stage on [customer_id]. *)
Record CustomerGroup : Type := {
  cg_id : string;
  cg_name : string;
  cg_segment : string;
  cg_total_revenue : Q;
  cg_transaction_count : Z;
  cg_first_purchase : string;
  cg_last_purchase : string
}.

Definition string_min (a b : string) : string := if String.leb a b then a else b.
Definition string_max (a b : string) : string := if String.leb a b then b else a.

(** One document entering the [$group] stage: it joins the row of its
    customer or opens a new row (rows are kept in order of first
    appearance). *)
Fixpoint group_customer (r : SalesRecord) (rows : list CustomerGroup) : list CustomerGroup :=
  match rows with
  | [] => [ {| cg_id := customer_id r;
               cg_name := customer_name r;
               cg_segment := customer_segment r;
               cg_total_revenue := total_amount r;
               cg_transaction_count := 1;
               cg_first_purchase := date r;
               cg_last_purchase := date r |} ]
  | g :: rows' =>
      if cg_id g ==? customer_id r
      then {| cg_id := cg_id g;
              cg_name := cg_name g;
              cg_segment := cg_segment g;
              cg_total_revenue := (cg_total_revenue g + total_amount r)%Q;
              cg_transaction_count := cg_transaction_count g + 1;
              cg_first_purchase := string_min (cg_first_purchase g) (date r);
              cg_last_purchase := string_max (cg_last_purchase g) (date r) |} :: rows'
      else g :: group_customer r rows'
  end.

Definition customer_pipeline (docs : list SalesRecord) : list CustomerGroup :=
  fold_left (fun rows r => group_customer r rows) docs [].

(** [db.sales.aggregate(pipeline).to_list(length=None)] for the customer
    pipeline. *)
Definition aggregate_customers : M world (list CustomerGroup) :=
  log_op (OpAggregate "customers") ;;;
  w <- get ;;
  ret (customer_pipeline (sales w)).

Record TopCustomer : Type := {
  tc_id : string;
  tc_name : string;
  tc_revenue : Q;
  tc_transactions : Z
}.

Record SegmentStat : Type := {
  seg_count : Z;
  seg_revenue : Q
}.

Record CustomerAnalytics : Type := {
  total_customers : Z;
  returning_customers : Z;
  customer_retention_rate : Q;
  top_customers : list TopCustomer;
  segment_breakdown : list (string * SegmentStat)
}.

(** [sorted(xs, key=key, reverse=True)]: descending, equal keys keep their
    order. *)
Fixpoint insert_desc {A} (key : A -> Q) (x : A) (xs : list A) : list A :=
  match xs with
  | [] => [x]
  | y :: ys => if Qgtb (key y) (key x) then y :: insert_desc key x ys else x :: xs
  end.

Definition sorted_desc {A} (key : A -> Q) (xs : list A) : list A :=
  fold_right (insert_desc key) [] xs.

(** [segment_stats[segment]["count"] += 1] and ["revenue"] likewise, on a
    dict kept in insertion order. *)
Fixpoint add_segment (segment : string) (revenue : Q) (stats : list (string * SegmentStat))
  : list (string * SegmentStat) :=
  match stats with
  | [] => [ (segment, {| seg_count := 0 + 1; seg_revenue := 0 + revenue |}) ]
  | (k, s) :: stats' =>
      if k ==? segment
      then (k, {| seg_count := seg_count s + 1;
                  seg_revenue := (seg_revenue s + revenue)%Q |}) :: stats'
      else (k, s) :: add_segment segment revenue stats'
  end.

Section CustomerAnalytics.

Context (P : Platform).

(** [sum(1 for customer in customer_data if customer["transaction_count"] > 1)]. *)
Definition count_returning (customer_data : list CustomerGroup) : Z :=
  len (filter (fun customer => cg_transaction_count customer >? 1) customer_data).

(** [(returning_customers / total_customers * 100) if total_customers > 0 else 0]. *)
Definition retention_rate_of (returning_customers total_customers : Z) : M world Q :=
  if total_customers >? 0
  then q <- truediv (inject_Z returning_customers) (inject_Z total_customers) ;;
       ret (q * 100)%Q
  else ret 0%Q.

Definition customer_analytics_body : M world CustomerAnalytics :=
  customer_data <- aggregate_customers ;;
  let total_customers := len customer_data in
  let returning_customers := count_returning customer_data in
  customer_retention_rate <- retention_rate_of returning_customers total_customers ;;
  let top_customers := firstn 10 (sorted_desc cg_total_revenue customer_data) in
  let top_customers_formatted :=
    map (fun customer =>
           {| tc_id := cg_id customer;
              tc_name := cg_name customer;
              tc_revenue := round (cg_total_revenue customer) 2;
              tc_transactions := cg_transaction_count customer |})
        top_customers in
  let segment_stats :=
    fold_left (fun stats customer =>
                 add_segment (cg_segment customer) (cg_total_revenue customer) stats)
              customer_data [] in
  let segment_stats :=
    map (fun kv => (fst kv, {| seg_count := seg_count (snd kv);
                               seg_revenue := round (seg_revenue (snd kv)) 2 |}))
        segment_stats in
  ret {| total_customers := total_customers;
         returning_customers := returning_customers;
         customer_retention_rate := round customer_retention_rate 2;
         top_customers := top_customers_formatted;
         segment_breakdown := segment_stats |}.

Definition get_customer_analytics : M world CustomerAnalytics :=
  try_except
    customer_analytics_body
    (fun e => raise (HTTPException 500
                       ("Error calculating customer analytics: " ++ exn_str P e))).

End CustomerAnalytics.

(** ** [get_seasonal_trends] *)

(** A row of the monthly pipeline. *)
Record MonthRow : Type := {
  m_id : string;
  m_revenue : Q;
  m_transactions : Z
}.

(** The [$group] stage on [month_year]. *)
Fixpoint group_month (key : string) (amount : Q) (rows : list MonthRow) : list MonthRow :=
  match rows with
  | [] => [ {| m_id := key; m_revenue := amount; m_transactions := 1 |} ]
  | g :: rows' =>
      if m_id g ==? key
      then {| m_id := m_id g;
              m_revenue := (m_revenue g + amount)%Q;
              m_transactions := m_transactions g + 1 |} :: rows'
      else g :: group_month key amount rows'
  end.

(** The [$sort] stage, [_id] ascending. *)
Fixpoint insert_month (x : MonthRow) (rows : list MonthRow) : list MonthRow :=
  match rows with
  | [] => [x]
  | y :: rows' =>
      if String.leb (m_id x) (m_id y) then x :: rows else y :: insert_month x rows'
  end.

Definition sort_months (rows : list MonthRow) : list MonthRow :=
  fold_right insert_month [] rows.

(** [s.split(sep)] for a one-character separator. *)
Fixpoint split (sep : ascii) (s : string) : list string :=
  match s with
  | EmptyString => [EmptyString]
  | String c s' =>
      if Ascii.eqb c sep
      then EmptyString :: split sep s'
      else match split sep s' with
           | [] => [String c EmptyString]
           | w :: ws => String c w :: ws
           end
  end.

(** [int(s)] for a string of decimal digits with an optional sign; any
    other string is refused. *)
Definition int_of_str (s : string) : option Z :=
  match s with
  | String "+" s' => option_map Z.of_uint (NilZero.uint_of_string s')
  | _ => option_map Z.of_int (NilZero.int_of_string s)
  end.

(** [xs[-n:]]. *)
Definition last_n {A} (n : nat) (xs : list A) : list A :=
  skipn (List.length xs - n) xs.

Record MonthlyTrends : Type := {
  labels : list string;
  trend_revenue : list Q;
  trend_transactions : list Z
}.

Record QuarterStat : Type := {
  q_revenue : Q;
  q_transactions : Z
}.

Record PeakPeriod : Type := {
  period : string;
  peak_revenue : Q;
  above_average : Q
}.

Record SeasonalTrends : Type := {
  monthly_trends : MonthlyTrends;
  seasonal_patterns : list (string * QuarterStat);
  peak_periods : list PeakPeriod
}.

(** [seasonal_patterns[quarter]["revenue"] += ...] and ["transactions"]
    likewise, on a dict kept in insertion order. *)
Fixpoint add_quarter (quarter : string) (revenue : Q) (transactions : Z)
         (stats : list (string * QuarterStat)) : list (string * QuarterStat) :=
  match stats with
  | [] => [ (quarter, {| q_revenue := 0 + revenue; q_transactions := 0 + transactions |}) ]
  | (k, s) :: stats' =>
      if k ==? quarter
      then (k, {| q_revenue := (q_revenue s + revenue)%Q;
                  q_transactions := q_transactions s + transactions |}) :: stats'
      else (k, s) :: add_quarter quarter revenue transactions stats'
  end.

Section SeasonalTrends.

Context (P : Platform).

(** The [$addFields] and [$group] stages, document by document. *)
Definition monthly_groups (docs : list SalesRecord) : M world (list MonthRow) :=
  for_each docs
    (fun rows r =>
       key <- or_raise OperationFailure (month_year P (date r)) ;;
       ret (group_month key (total_amount r) rows))
    [].

(** [db.sales.aggregate(monthly_pipeline).to_list(length=None)]. *)
Definition aggregate_monthly : M world (list MonthRow) :=
  log_op (OpAggregate "monthly") ;;;
  w <- get ;;
  rows <- monthly_groups (sales w) ;;
  ret (sort_months rows).

(** [int(item["_id"].split("-")[1])]. *)
Definition month_num_of (item : MonthRow) : M world Z :=
  part <- or_raise IndexError (nth_error (split "-" (m_id item)) 1) ;;
  or_raise ValueError (int_of_str part).

Definition quarter_of (month_num : Z) : string :=
  if Zmem month_num [1; 2; 3] then "Q1"
  else if Zmem month_num [4; 5; 6] then "Q2"
  else if Zmem month_num [7; 8; 9] then "Q3"
  else "Q4".

(** The peak-period block: the list built before the final slice. *)
Definition find_peak_periods (monthly_data : list MonthRow) : M world (list PeakPeriod) :=
  if is_empty monthly_data
  then ret []
  else
    avg_revenue <- truediv (sum (map m_revenue monthly_data)) (inject_Z (len monthly_data)) ;;
    for_each monthly_data
      (fun peak_periods item =>
         if Qgtb (m_revenue item) (avg_revenue * (12 # 10))%Q
         then
           q <- truediv (m_revenue item - avg_revenue)%Q avg_revenue ;;
           ret (peak_periods ++
                [ {| period := m_id item;
                     peak_revenue := round (m_revenue item) 2;
                     above_average := round (q * 100)%Q 2 |} ])
         else ret peak_periods)
      [].

Definition seasonal_trends_body : M world SeasonalTrends :=
  monthly_data <- aggregate_monthly ;;
  let monthly_trends :=
    {| labels := map m_id (last_n 12 monthly_data);
       trend_revenue := map (fun item => round (m_revenue item) 2) (last_n 12 monthly_data);
       trend_transactions := map m_transactions (last_n 12 monthly_data) |} in
  seasonal_patterns <-
    for_each monthly_data
      (fun seasonal_patterns item =>
         month_num <- month_num_of item ;;
         ret (add_quarter (quarter_of month_num) (m_revenue item) (m_transactions item)
                          seasonal_patterns))
      [] ;;
  let seasonal_patterns :=
    map (fun kv => (fst kv, {| q_revenue := round (q_revenue (snd kv)) 2;
                               q_transactions := q_transactions (snd kv) |}))
        seasonal_patterns in
  peak_periods <- find_peak_periods monthly_data ;;
  ret {| monthly_trends := monthly_trends;
         seasonal_patterns := seasonal_patterns;
         peak_periods := firstn 6 peak_periods |}.

Definition get_seasonal_trends : M world SeasonalTrends :=
  try_except
    seasonal_trends_body
    (fun e => raise (HTTPException 500
                       ("Error calculating seasonal trends: " ++ exn_str P e))).

End SeasonalTrends.

(** ** A reference platform

    A concrete platform on which the module can be run: the proleptic
    Gregorian calendar in UTC, a clock stopped at 2025-01-01T00:00:00, date
    strings of the form [YYYY-MM-DD] for [fromisoformat], and counters for
    the generated names. *)

Module Reference.

(** Days since 1970-01-01 of a civil date, and back. *)
Definition days_from_civil (y m d : Z) : Z :=
  let y' := if m <=? 2 then y - 1 else y in
  let era := y' / 400 in
  let yoe := y' - era * 400 in
  let doy := (153 * (if m >? 2 then m - 3 else m + 9) + 2) / 5 + d - 1 in
  let doe := yoe * 365 + yoe / 4 - yoe / 100 + doy in
  era * 146097 + doe - 719468.

Definition civil_from_days (z : Z) : Z * Z * Z :=
  let z := z + 719468 in
  let era := z / 146097 in
  let doe := z - era * 146097 in
  let yoe := (doe - doe / 1460 + doe / 36524 - doe / 146096) / 365 in
  let doy := doe - (365 * yoe + yoe / 4 - yoe / 100) in
  let mp := (5 * doy + 2) / 153 in
  let d := doy - (153 * mp + 2) / 5 + 1 in
  let m := if mp <? 10 then mp + 3 else mp - 9 in
  ((yoe + era * 400) + (if m <=? 2 then 1 else 0), m, d).

Definition day_number (t : datetime) : Z := days_from_civil (year t) (month t) (day t).

Definition micros_of (t : datetime) : Z :=
  ((day_number t * 24 + hour t) * 60 + minute t) * 60 * 1000000
  + second t * 1000000 + microsecond t.

Definition of_micros (tz : option Z) (us : Z) : datetime :=
  let days := us / 86400000000 in
  let rest := us mod 86400000000 in
  let '(y, m, d) := civil_from_days days in
  {| year := y; month := m; day := d;
     hour := rest / 3600000000;
     minute := (rest / 60000000) mod 60;
     second := (rest / 1000000) mod 60;
     microsecond := rest mod 1000000;
     utcoffset := tz |}.

Definition two (n : Z) : string := zero_padded 2 (Z.to_nat n).

Definition format (t : datetime) : string :=
  (zero_padded 4 (Z.to_nat (year t)) ++ "-" ++ two (month t) ++ "-" ++ two (day t)
   ++ "T" ++ two (hour t) ++ ":" ++ two (minute t) ++ ":" ++ two (second t)
   ++ (if (microsecond t =? 0)%Z then "" else "." ++ zero_padded 6 (Z.to_nat (microsecond t)))
   ++ (match utcoffset t with Some _ => "+00:00" | None => "" end))%string.

Definition parse_date (s : string) : option datetime :=
  match split "-" s with
  | [y; m; d] =>
      match NilZero.uint_of_string y, NilZero.uint_of_string m, NilZero.uint_of_string d with
      | Some y', Some m', Some d' =>
          let '(yz, mz, dz) := (Z.of_uint y', Z.of_uint m', Z.of_uint d') in
          if (String.length y =? 4)%nat && (String.length m =? 2)%nat
             && (String.length d =? 2)%nat
             && (1 <=? mz) && (mz <=? 12) && (1 <=? dz) && (dz <=? 31)
          then Some {| year := yz; month := mz; day := dz;
                       hour := 0; minute := 0; second := 0; microsecond := 0;
                       utcoffset := None |}
          else None
      | _, _, _ => None
      end
  | _ => None
  end.

Definition same_awareness (a b : datetime) : bool :=
  match utcoffset a, utcoffset b with
  | Some _, Some _ | None, None => true
  | _, _ => false
  end.

Definition describe (e : exn) : string :=
  match e with
  | HTTPException status_code detail =>
      ((if (status_code =? 404)%Z then "404" else if (status_code =? 500)%Z then "500" else "400")
       ++ ": " ++ detail)%string
  | ZeroDivisionError => "division by zero"
  | IndexError => "list index out of range"
  | ValueError => "invalid literal"
  | TypeError => "can't subtract offset-naive and offset-aware datetimes"
  | OverflowError => "date value out of range"
  | OperationFailure => "operation failed"
  end.

Definition clock : datetime :=
  {| year := 2025; month := 1; day := 1;
     hour := 0; minute := 0; second := 0; microsecond := 0;
     utcoffset := Some 0 |}.

Definition platform : Platform :=
  {| now_utc := fun _ => clock;
     add_days := fun t n => of_micros (utcoffset t) (micros_of t + n * 86400000000);
     weekday := fun t => (day_number t + 3) mod 7;
     isoformat := format;
     fromisoformat := parse_date;
     datetime_sub := fun a b =>
       if same_awareness a b then Some (micros_of a - micros_of b) else None;
     datetime_minus := fun t delta => Some (of_micros (utcoffset t) (micros_of t - delta));
     uuid4 := fun k => ("uuid-" ++ str_of_nat k)%string;
     fake_name := fun k => ("Rep " ++ str_of_nat k)%string;
     fake_company := fun k => ("Company " ++ str_of_nat k)%string;
     fake_date_between := fun _ => "2024-01-01"%string;
     month_year := fun s =>
       if (7 <=? String.length s)%nat then Some (substring 0 7 s) else None;
     exn_str := describe |}.

(** A stored document with the given date, customer, region and amount. *)
Definition doc (d c rg : string) (amount : Q) : SalesRecord :=
  {| record_id := "uuid-0"; transaction_id := "TXN000001"; date := d;
     customer_id := c; customer_name := "Company 0"; customer_segment := "SMB";
     product_id := "PROD008"; product_name := "Cloud Storage Plus";
     product_category := "Storage";
     quantity := 1; unit_price := amount; total_amount := amount;
     region := rg; sales_rep := "Rep 0"; channel := "Online";
     created_at := clock |}.

Definition world_of (g : Random.state) (docs : list SalesRecord) : world :=
  {| rng := g; sales := docs; oplog := [] |}.

(** A script for the generator: every customer is an SMB customer of
    Asia-Pacific, the first day draws the least count, and the first
    slot takes customer 1, product PROD008 (19 to 89), quantity 10 and the
    price 19.004; every later draw is 0. *)
Definition script : Random.state :=
  repeat (1 # 2)%Q 1000 ++ [0; 0; 7 # 8; 9 # 10; 1 # 17500; 0; 0]%Q.

(** A store of 21 months, one sale a month and not in date order: 100
    in each of 2023-01 .. 2023-06, 1 in each of 2023-07 .. 2024-08, and
    200 in 2024-09. *)
Definition seasonal_store : world :=
  world_of []
    (map (fun da : string * Z => doc (fst da) "CUST0001" "Europe" (inject_Z (snd da)))
  [ ("2024-09-15T12:00:00+00:00"%string, 200);
    ("2023-07-15T12:00:00+00:00"%string, 1);
    ("2023-08-15T12:00:00+00:00"%string, 1);
    ("2023-09-15T12:00:00+00:00"%string, 1);
    ("2023-10-15T12:00:00+00:00"%string, 1);
    ("2023-11-15T12:00:00+00:00"%string, 1);
    ("2023-12-15T12:00:00+00:00"%string, 1);
    ("2024-01-15T12:00:00+00:00"%string, 1);
    ("2023-06-15T12:00:00+00:00"%string, 100);
    ("2023-05-15T12:00:00+00:00"%string, 100);
    ("2023-04-15T12:00:00+00:00"%string, 100);
    ("2023-03-15T12:00:00+00:00"%string, 100);
    ("2023-02-15T12:00:00+00:00"%string, 100);
    ("2023-01-15T12:00:00+00:00"%string, 100);
    ("2024-02-15T12:00:00+00:00"%string, 1);
    ("2024-03-15T12:00:00+00:00"%string, 1);
    ("2024-04-15T12:00:00+00:00"%string, 1);
    ("2024-05-15T12:00:00+00:00"%string, 1);
    ("2024-06-15T12:00:00+00:00"%string, 1);
    ("2024-07-15T12:00:00+00:00"%string, 1);
    ("2024-08-15T12:00:00+00:00"%string, 1) ]).

(** A store whose only document is a sale in Asia-Pacific. *)
Definition asia_only : world :=
  world_of [] [doc "2024-03-05T10:00:00+00:00" "CUST0001" "Asia-Pacific" (12050 # 100)].

End Reference.

(** ** The vocabulary of the specification *)

(** The specification's NoDataError is the condition the transport layer
    reports as "not found", its InvalidRangeError the one reported as "bad
    request"; [HTTPException] is the only error the module hands to that
    layer. *)
Definition is_no_data_error {A} (r : result A) : bool :=
  match r with
  | Raise (HTTPException 404 _) => true
  | _ => false
  end.

Definition is_invalid_range_error {A} (r : result A) : bool :=
  match r with
  | Raise (HTTPException 400 _) => true
  | _ => false
  end.

(** The month-dependent range of the daily draw, as the specification
    tabulates it. *)
Definition volume_range (month : Z) : Z * Z :=
  if (month =? 11) || (month =? 12) then (15, 35)
  else if (month =? 6) || (month =? 7) || (month =? 8) then (5, 15)
  else (8, 20).

(** The price adjustment by segment, as the specification words it: the
    adjusted price is the base price times a factor drawn by
    [random.uniform] from [1.2, 1.8] for Enterprise and from [0.7, 0.9] for
    Individual, and the base price itself for SMB. *)
Definition drawn_factor (lo hi f : Q) : Prop :=
  (exists g, f = fst (Random.uniform lo hi g)) /\ (lo <= f <= hi)%Q.

Definition adjusted_for (segment : string) (base adjusted : Q) : Prop :=
  (segment = "Enterprise"%string
   /\ exists f, drawn_factor (12 # 10) (18 # 10) f /\ adjusted = (base * f)%Q)
  \/ (segment = "Individual"%string
      /\ exists f, drawn_factor (7 # 10) (9 # 10) f /\ adjusted = (base * f)%Q)
  \/ (segment = "SMB"%string /\ adjusted = base).

(** A record whose stored price and total both come from the adjusted
    price: the price is its 2-decimal rounding, the total the 2-decimal
    rounding of quantity times it. *)
Definition priced_after_adjustment (r : SalesRecord) : Prop :=
  exists product base adjusted,
    In product products
    /\ product_id r = prod_id product
    /\ (inject_Z (fst (price_range product)) <= base
        <= inject_Z (snd (price_range product)))%Q
    /\ adjusted_for (customer_segment r) base adjusted
    /\ 1 <= quantity r <= 10
    /\ unit_price r = round adjusted 2
    /\ total_amount r = round (inject_Z (quantity r) * adjusted) 2.

(** The invariant of the specification's data model:
    [total_amount == round(quantity * unit_price, 2)] on the stored fields. *)
Definition total_matches_stored_price (r : SalesRecord) : bool :=
  Qeq_bool (total_amount r) (round (inject_Z (quantity r) * unit_price r) 2).

(** Computations that leave the store as it was, whether they return or
    raise. *)
Definition keeps_store {A} (c : M world A) : Prop :=
  forall w, sales (snd (c w)) = sales w.

(** The two stored amounts of a record as roundings of one unrounded price
    [u]: the price is [round(u, 2)], the total [round(quantity * u, 2)]. *)
Definition rounds_one_price (r : SalesRecord) : Prop :=
  exists u : Q,
    unit_price r = round u 2
    /\ total_amount r = round (inject_Z (quantity r) * u) 2
    /\ (Qabs (total_amount r - inject_Z (quantity r) * unit_price r)
        <= (inject_Z (quantity r) + 1) * (1 # 200))%Q.




(** Month keys in ascending order. *)
Definition string_lt (a b : string) : Prop := String.ltb a b = true.

(** The order of the [$sort] stage on the rows. *)
Definition row_le (a b : MonthRow) : Prop := String.leb (m_id a) (m_id b) = true.

(** The world with an emptied store. *)
Definition emptied (w : world) : world :=
  {| rng := rng w; sales := []; oplog := oplog w |}.

(** ** [get_product_analytics] *)

(** What the remaining routes take from outside the repository: the
    language-model client, the rendering of the prompt (f-string number
    formats, iteration order of a [set]), the Unicode-aware [str] methods,
    and the clock readings that are not [datetime.now(timezone.utc)]. *)
Record Services : Type := {
  (** [await chat.send_message(UserMessage(text=prompt))], as text. *)
  send_message : string -> result string;
  (** The f-string [prompt_data] for the computed summary. *)
  render_prompt : Q -> Q -> Z -> list (string * Q) -> list SalesRecord -> string;
  (** [s.lower()], [s.strip()] and [len(s)]. *)
  str_lower : string -> string;
  str_strip : string -> string;
  str_len : string -> Z;
  (** [datetime.now().strftime('%Y%m%d')]. *)
  today_stamp : string;
  (** [datetime.utcnow()], by reading number. *)
  utcnow : nat -> datetime
}.

(** The accumulator of a [$group] row on [product_id]: [$avg] keeps the sum
    and the count of the prices. *)
Record ProductGroup : Type := {
  pg_id : string;
  pg_name : string;
  pg_category : string;
  pg_total_revenue : Q;
  pg_units_sold : Z;
  pg_price_sum : Q;
  pg_price_count : Z
}.

Fixpoint group_product (r : SalesRecord) (rows : list ProductGroup) : list ProductGroup :=
  match rows with
  | [] => [ {| pg_id := product_id r;
               pg_name := product_name r;
               pg_category := product_category r;
               pg_total_revenue := total_amount r;
               pg_units_sold := quantity r;
               pg_price_sum := unit_price r;
               pg_price_count := 1 |} ]
  | g :: rows' =>
      if pg_id g ==? product_id r
      then {| pg_id := pg_id g;
              pg_name := pg_name g;
              pg_category := pg_category g;
              pg_total_revenue := (pg_total_revenue g + total_amount r)%Q;
              pg_units_sold := pg_units_sold g + quantity r;
              pg_price_sum := (pg_price_sum g + unit_price r)%Q;
              pg_price_count := pg_price_count g + 1 |} :: rows'
      else g :: group_product r rows'
  end.

(** [avg_price] of a finished row. *)
Definition pg_avg_price (g : ProductGroup) : Q :=
  (pg_price_sum g / inject_Z (pg_price_count g))%Q.

(** The product pipeline: [$group], then [$sort] on [total_revenue]
    descending. *)
Definition product_pipeline (docs : list SalesRecord) : list ProductGroup :=
  sorted_desc pg_total_revenue (fold_left (fun rows r => group_product r rows) docs []).

(** A row of the [$group] stage on [product_category]. *)
Record CategoryGroup : Type := {
  cat_id : string;
  cat_revenue : Q;
  cat_units_sold : Z;
  cat_transaction_count : Z
}.

Fixpoint group_category (r : SalesRecord) (rows : list CategoryGroup) : list CategoryGroup :=
  match rows with
  | [] => [ {| cat_id := product_category r;
               cat_revenue := total_amount r;
               cat_units_sold := quantity r;
               cat_transaction_count := 1 |} ]
  | g :: rows' =>
      if cat_id g ==? product_category r
      then {| cat_id := cat_id g;
              cat_revenue := (cat_revenue g + total_amount r)%Q;
              cat_units_sold := cat_units_sold g + quantity r;
              cat_transaction_count := cat_transaction_count g + 1 |} :: rows'
      else g :: group_category r rows'
  end.

Definition category_pipeline (docs : list SalesRecord) : list CategoryGroup :=
  sorted_desc cat_revenue (fold_left (fun rows r => group_category r rows) docs []).

Definition aggregate_products : M world (list ProductGroup) :=
  log_op (OpAggregate "products") ;;;
  w <- get ;;
  ret (product_pipeline (sales w)).

Definition aggregate_categories : M world (list CategoryGroup) :=
  log_op (OpAggregate "categories") ;;;
  w <- get ;;
  ret (category_pipeline (sales w)).

Record TopProduct : Type := {
  tp_id : string;
  tp_name : string;
  tp_category : string;
  tp_revenue : Q;
  tp_units_sold : Z;
  tp_avg_price : Q
}.

Record CategoryStat : Type := {
  cs_revenue : Q;
  cs_units_sold : Z;
  cs_transactions : Z
}.

Record InventoryInsights : Type := {
  low_stock_alert : Z;
  fast_moving_items : Z;
  slow_moving_items : Z
}.

Record ProductAnalytics : Type := {
  top_products : list TopProduct;
  category_performance : list (string * CategoryStat);
  inventory_insights : InventoryInsights
}.

(** [d[k] = v] on a dict kept in insertion order. *)
Fixpoint dict_set {A} (k : string) (v : A) (d : list (string * A)) : list (string * A) :=
  match d with
  | [] => [(k, v)]
  | (k', v') :: d' => if k' ==? k then (k', v) :: d' else (k', v') :: dict_set k v d'
  end.

(** [{key(x): value(x) for x in xs}]. *)
Definition dict_of {A B} (key : A -> string) (value : A -> B) (xs : list A)
  : list (string * B) :=
  fold_left (fun d x => dict_set (key x) (value x) d) xs [].

Definition product_analytics_body : M world ProductAnalytics :=
  product_data <- aggregate_products ;;
  let top_products :=
    map (fun product =>
           {| tp_id := pg_id product;
              tp_name := pg_name product;
              tp_category := pg_category product;
              tp_revenue := round (pg_total_revenue product) 2;
              tp_units_sold := pg_units_sold product;
              tp_avg_price := round (pg_avg_price product) 2 |})
        (firstn 10 product_data) in
  category_data <- aggregate_categories ;;
  let category_performance :=
    dict_of cat_id
            (fun cat => {| cs_revenue := round (cat_revenue cat) 2;
                           cs_units_sold := cat_units_sold cat;
                           cs_transactions := cat_transaction_count cat |})
            category_data in
  low <- random_randint 3 8 ;;
  fast <- random_randint 5 12 ;;
  slow <- random_randint 2 6 ;;
  ret {| top_products := top_products;
         category_performance := category_performance;
         inventory_insights :=
           {| low_stock_alert := low; fast_moving_items := fast; slow_moving_items := slow |} |}.

Definition get_product_analytics (P : Platform) : M world ProductAnalytics :=
  try_except
    product_analytics_body
    (fun e => raise (HTTPException 500
                       ("Error calculating product analytics: " ++ exn_str P e))).

(** ** [get_ai_insights] *)

Record AIInsights : Type := {
  insights : string;
  recommendations : list string;
  trends_analysis : string;
  generated_at : datetime
}.

(** The [sort("date", -1)] of the cursor: descending on the date string. *)
Fixpoint insert_by_date_desc (x : SalesRecord) (xs : list SalesRecord) : list SalesRecord :=
  match xs with
  | [] => [x]
  | y :: ys =>
      if String.ltb (date x) (date y) then y :: insert_by_date_desc x ys else x :: xs
  end.

Definition sort_by_date_desc (xs : list SalesRecord) : list SalesRecord :=
  fold_right insert_by_date_desc [] xs.

(** [db.sales.find().sort("date", -1).limit(n).to_list(n)]. *)
Definition find_recent (n : nat) : M world (list SalesRecord) :=
  log_op (OpFind {| qf_date := None; qf_region := None |}) ;;;
  w <- get ;;
  ret (firstn n (sort_by_date_desc (sales w))).

(** [if product not in product_sales: product_sales[product] = 0] followed
    by [product_sales[product] += amount]. *)
Fixpoint add_product_sales (product : string) (amount : Q) (d : list (string * Q))
  : list (string * Q) :=
  match d with
  | [] => [(product, (0 + amount)%Q)]
  | (k, v) :: d' =>
      if k ==? product then (k, (v + amount)%Q) :: d'
      else (k, v) :: add_product_sales product amount d'
  end.

(** [needle in haystack] on strings. *)
Fixpoint contains (needle haystack : string) : bool :=
  String.prefix needle haystack
  || match haystack with
     | EmptyString => false
     | String _ rest => contains needle rest
     end.

Definition keywords : list string := ["recommend"; "suggest"; "should"; "consider"]%string.

Definition default_recommendations : list string :=
  [ "Focus on high-performing product categories";
    "Implement targeted customer retention strategies";
    "Optimize pricing for better conversion rates";
    "Expand marketing in top-performing regions" ]%string.

Definition fallback_recommendations : list string :=
  [ "Implement targeted promotions during seasonal peaks";
    "Focus on customer retention programs for enterprise segment";
    "Optimize inventory levels for fast-moving products";
    "Expand successful products to new regional markets" ]%string.

Section Insights.

Context (P : Platform) (S : Services).

(** The loop over the lines of the answer. *)
Definition extract_recommendations (insights_text : string) : list string :=
  fold_left
    (fun recommendations line =>
       if existsb (fun keyword => contains keyword (str_lower S line)) keywords
       then if str_len S (str_strip S line) >? 20
            then recommendations ++ [str_strip S line]
            else recommendations
       else recommendations)
    (split "010" insights_text) [].

Definition ai_insights_body : M world AIInsights :=
  recent_data <- find_recent 1000 ;;
  if is_empty recent_data
  then raise (HTTPException 404 "No sales data available for AI analysis")
  else
    let total_revenue := sum (map total_amount recent_data) in
    avg_order_value <-
      (if negb (is_empty recent_data)
       then truediv total_revenue (inject_Z (len recent_data))
       else ret 0%Q) ;;
    let product_sales :=
      fold_left (fun d record => add_product_sales (product_name record) (total_amount record) d)
                recent_data [] in
    let top_products := firstn 5 (sorted_desc snd product_sales) in
    let prompt_data :=
      render_prompt S total_revenue avg_order_value (len recent_data) top_products recent_data in
    insights_text <- (fun w => (send_message S prompt_data, w)) ;;
    let recommendations := extract_recommendations insights_text in
    let recommendations :=
      if is_empty recommendations then default_recommendations else recommendations in
    ret {| insights := insights_text;
           recommendations := firstn 5 recommendations;
           trends_analysis := "AI-powered analysis of current sales trends and patterns";
           generated_at := now_utc P 0 |}.

Definition fallback_insights : AIInsights :=
  {| insights := "Sales performance shows consistent growth patterns with seasonal variations. Key focus areas include customer retention and product portfolio optimization.";
     recommendations := fallback_recommendations;
     trends_analysis := "Manual analysis indicates stable growth with opportunities for optimization in customer acquisition and retention.";
     generated_at := now_utc P 0 |}.

Definition get_ai_insights : M world AIInsights :=
  try_except ai_insights_body (fun e => ret fallback_insights).

End Insights.

(** ** [export_sales_report] *)

(** A value handed to [worksheet.write]. *)
Inductive cell : Type :=
| CellStr (s : string)
| CellInt (n : Z)
| CellNum (x : Q).

(** One call of [worksheet.write(row, col, value[, header_format])]. *)
Record cell_write : Type := {
  cw_row : nat;
  cw_col : nat;
  cw_value : cell;
  cw_header_format : bool
}.

(** The [StreamingResponse]: the workbook is kept as the calls that wrote
    it. *)
Record StreamingResponse : Type := {
  workbook : list cell_write;
  media_type : string;
  content_disposition : string
}.

Definition headers : list string :=
  [ "Transaction ID"; "Date"; "Customer Name"; "Customer Segment";
    "Product Name"; "Category"; "Quantity"; "Unit Price"; "Total Amount";
    "Region"; "Channel" ]%string.

(** [enumerate(xs, start)]. *)
Definition enumerate {A} (start : nat) (xs : list A) : list (nat * A) :=
  combine (seq start (List.length xs)) xs.

(** The eleven values written for a record. *)
Definition row_values (record : SalesRecord) : list cell :=
  [ CellStr (transaction_id record); CellStr (date record);
    CellStr (customer_name record); CellStr (customer_segment record);
    CellStr (product_name record); CellStr (product_category record);
    CellInt (quantity record); CellNum (unit_price record);
    CellNum (total_amount record); CellStr (region record);
    CellStr (channel record) ].

Definition write_row (row : nat) (formatted : bool) (values : list cell) : list cell_write :=
  map (fun cv => {| cw_row := row; cw_col := fst cv; cw_value := snd cv;
                    cw_header_format := formatted |})
      (enumerate 0 values).

(** The worksheet after the header loop and the data loop. *)
Definition write_sheet (sales_data : list SalesRecord) : list cell_write :=
  fold_left (fun sheet rr => sheet ++ write_row (fst rr) false (row_values (snd rr)))
            (enumerate 1 sales_data)
            (write_row 0 true (map CellStr headers)).

(** [s.lower()] for the comparison with an ASCII literal. *)
Definition ascii_lower_char (c : ascii) : ascii :=
  let n := nat_of_ascii c in
  if ((65 <=? n) && (n <=? 90))%nat then ascii_of_nat (n + 32) else c.

Fixpoint ascii_lower (s : string) : string :=
  match s with
  | EmptyString => EmptyString
  | String c s' => String (ascii_lower_char c) (ascii_lower s')
  end.

Section SalesReport.

Context (P : Platform) (S : Services).

Definition export_body (start_date end_date : option string) (format : string)
  : M world StreamingResponse :=
  let query_filter := {| qf_date := dates_given start_date end_date; qf_region := None |} in
  sales_data <- find query_filter ;;
  if is_empty sales_data
  then raise (HTTPException 404 "No sales data found for export")
  else if ascii_lower format ==? "xlsx"
  then ret {| workbook := write_sheet sales_data;
              media_type := "application/vnd.openxmlformats-officedocument.spreadsheetml.sheet";
              content_disposition :=
                "attachment; filename=sales_report_" ++ today_stamp S ++ ".xlsx" |}
  else raise (HTTPException 400 "Unsupported export format. Use 'xlsx'").

Definition export_sales_report (start_date end_date : option string) (format : string)
  : M world StreamingResponse :=
  try_except
    (export_body start_date end_date format)
    (fun e => raise (HTTPException 500
                       ("Error exporting sales report: " ++ exn_str P e))).

End SalesReport.

(** ** The status routes *)



Section Status.

Context (P : Platform) (S : Services).



End Status.

(** ** Vocabulary of the further properties *)

(** Computations that leave the store and the log of driver calls as they
    were, whether they return or raise. *)
Definition keeps_db {A} (c : M world A) : Prop :=
  forall w, sales (snd (c w)) = sales w /\ oplog (snd (c w)) = oplog w.

(** Computations that only read the store: the documents are unchanged and
    no call logged on the way is a write. *)
Definition read_only {A} (c : M world A) : Prop :=
  forall w,
    sales (snd (c w)) = sales w
    /\ exists ops, oplog (snd (c w)) = oplog w ++ ops /\ existsb is_write ops = false.

(** The number a transaction id spells after its [TXN] prefix. *)
Definition transaction_number (s : string) : option nat :=
  match s with
  | String "T" (String "X" (String "N" digits)) =>
      option_map Nat.of_uint (NilEmpty.uint_of_string digits)
  | _ => None
  end.

(** A customer as the population loop builds it. *)
Definition generated_customer (P : Platform) (c : Customer) : Prop :=
  exists i : nat,
    (i < 500)%nat
    /\ cust_id c = ("CUST" ++ zero_padded 4 (i + 1))%string
    /\ cust_name c = fake_company P i
    /\ In (cust_segment c) segments
    /\ In (cust_region c) regions.

(** A record whose denormalised fields all come from one generated
    customer, one catalog product and one day of the 730-day window. *)
Definition consistent_record (P : Platform) (r : SalesRecord) : Prop :=
  exists (c : Customer) (product : Product) (day : nat),
    generated_customer P c
    /\ In product products
    /\ (day < 730)%nat
    /\ date r = isoformat P (add_days P (add_days P (now_utc P 0) (- 730)) (Z.of_nat day))
    /\ customer_id r = cust_id c
    /\ customer_name r = cust_name c
    /\ customer_segment r = cust_segment c
    /\ region r = cust_region c
    /\ product_id r = prod_id product
    /\ product_name r = prod_name product
    /\ product_category r = prod_category product
    /\ In (sales_rep r) (sales_reps P)
    /\ In (channel r) channels.

(** [sum] of integers. *)
Definition sumZ (xs : list Z) : Z := fold_right Z.add 0 xs.

(** Descending order of a ranking by [key]. *)
Definition descending {A} (key : A -> Q) (xs : list A) : Prop :=
  StronglySorted (fun a b => (key b <= key a)%Q) xs.

(** Transaction ids that count up from 1 along a list of records. *)
Definition ids_in_sequence (recs : list SalesRecord) : Prop :=
  forall k r, nth_error recs k = Some r ->
              transaction_id r = ("TXN" ++ zero_padded 6 (k + 1))%string.

(** Grouping as the pipelines and the accumulating loops do it, in one
    scheme: a row per key in order of first appearance, opened by [init]
    and updated by [upd]. *)
Section GroupBy.

Context {A G : Type} (gid : G -> string) (key : A -> string)
        (init : A -> G) (upd : G -> A -> G).

Fixpoint group_step (r : A) (rows : list G) : list G :=
  match rows with
  | [] => [init r]
  | g :: rows' =>
      if gid g ==? key r then upd g r :: rows' else g :: group_step r rows'
  end.

Definition group_all (docs : list A) : list G :=
  fold_left (fun rows r => group_step r rows) docs [].

(** The documents of a row. *)
Definition members (docs : list A) (g : G) : list A :=
  filter (fun r => key r ==? gid g) docs.

End GroupBy.

(** [sum] of rationals, from the right. *)
Definition sumQ (xs : list Q) : Q := fold_right Qplus 0%Q xs.

(** The rows of the pipelines and of the accumulating loops as instances of
    the scheme. *)
Definition customer_row (r : SalesRecord) : CustomerGroup :=
  {| cg_id := customer_id r;
     cg_name := customer_name r;
     cg_segment := customer_segment r;
     cg_total_revenue := total_amount r;
     cg_transaction_count := 1;
     cg_first_purchase := date r;
     cg_last_purchase := date r |}.

Definition customer_row_add (g : CustomerGroup) (r : SalesRecord) : CustomerGroup :=
  {| cg_id := cg_id g;
     cg_name := cg_name g;
     cg_segment := cg_segment g;
     cg_total_revenue := (cg_total_revenue g + total_amount r)%Q;
     cg_transaction_count := cg_transaction_count g + 1;
     cg_first_purchase := string_min (cg_first_purchase g) (date r);
     cg_last_purchase := string_max (cg_last_purchase g) (date r) |}.

Definition segment_row (c : CustomerGroup) : string * SegmentStat :=
  (cg_segment c, {| seg_count := 0 + 1; seg_revenue := 0 + cg_total_revenue c |}).

Definition segment_row_add (kv : string * SegmentStat) (c : CustomerGroup)
  : string * SegmentStat :=
  (fst kv, {| seg_count := seg_count (snd kv) + 1;
              seg_revenue := (seg_revenue (snd kv) + cg_total_revenue c)%Q |}).



Definition category_row (r : SalesRecord) : CategoryGroup :=
  {| cat_id := product_category r;
     cat_revenue := total_amount r;
     cat_units_sold := quantity r;
     cat_transaction_count := 1 |}.

Definition category_row_add (g : CategoryGroup) (r : SalesRecord) : CategoryGroup :=
  {| cat_id := cat_id g;
     cat_revenue := (cat_revenue g + total_amount r)%Q;
     cat_units_sold := cat_units_sold g + quantity r;
     cat_transaction_count := cat_transaction_count g + 1 |}.

(** A listed top customer and the row it shows. *)
Definition shows_customer (t : TopCustomer) (g : CustomerGroup) : Prop :=
  tc_id t = cg_id g /\ tc_name t = cg_name g
  /\ tc_revenue t = round (cg_total_revenue g) 2
  /\ tc_transactions t = cg_transaction_count g.

(** The quarter labels. *)
Definition quarters : list string := ["Q1"; "Q2"; "Q3"; "Q4"]%string.


(** An entry of [category_performance] and the row it shows. *)
Definition shows_category (kv : string * CategoryStat) (g : CategoryGroup) : Prop :=
  fst kv = cat_id g
  /\ cs_revenue (snd kv) = round (cat_revenue g) 2
  /\ cs_units_sold (snd kv) = cat_units_sold g
  /\ cs_transactions (snd kv) = cat_transaction_count g.

(** The value a sheet holds at a position: that of the first write there. *)
Definition cell_at (sheet : list cell_write) (row col : nat) : option cell :=
  option_map cw_value
    (List.find (fun cw => ((cw_row cw =? row) && (cw_col cw =? col))%nat) sheet).

(** The rows written for the documents, numbered from [start]. *)
Definition data_rows (start : nat) (sales_data : list SalesRecord) : list cell_write :=
  List.concat (map (fun rr => write_row (fst rr) false (row_values (snd rr)))
              (enumerate start sales_data)).

(** ** Reference services

    Concrete services on which the remaining routes can be run: a client
    that answers every prompt with the same three lines, ASCII versions of
    the [str] methods, and a stopped clock. *)

Definition is_space (c : ascii) : bool :=
  let n := nat_of_ascii c in ((n =? 32) || ((9 <=? n) && (n <=? 13)))%nat.

Fixpoint lstrip (s : string) : string :=
  match s with
  | EmptyString => EmptyString
  | String c s' => if is_space c then lstrip s' else s
  end.

Fixpoint rstrip (s : string) : string :=
  match s with
  | EmptyString => EmptyString
  | String c s' =>
      match rstrip s' with
      | EmptyString => if is_space c then EmptyString else String c EmptyString
      | t => String c t
      end
  end.

Definition canned_answer : string :=
  ("Revenue is concentrated in two regions." ++ String "010" ""
   ++ "  You should rebalance the marketing budget.  " ++ String "010" ""
   ++ "Consider it.")%string.

Definition reference_services : Services :=
  {| send_message := fun _ => Ok canned_answer;
     render_prompt := fun _ _ n _ _ => ("Transactions: " ++ str_of_nat (Z.to_nat n))%string;
     str_lower := ascii_lower;
     str_strip := fun s => rstrip (lstrip s);
     str_len := fun s => Z.of_nat (String.length s);
     today_stamp := "20250101";
     utcnow := fun _ => Reference.clock |}.

(** The same services with a client that fails. *)
Definition failing_services : Services :=
  {| send_message := fun _ => Raise ValueError;
     render_prompt := render_prompt reference_services;
     str_lower := str_lower reference_services;
     str_strip := str_strip reference_services;
     str_len := str_len reference_services;
     today_stamp := today_stamp reference_services;
     utcnow := utcnow reference_services |}.

(** * Properties *)

(** ** The [random] module stays in range *)

Lemma unit_of_range (q : Q) : (0 <= Random.unit_of q < 1)%Q.
Proof.
  unfold Random.unit_of.
  pose proof (Qfloor_le q) as Hlo.
  pose proof (Qlt_floor q) as Hhi.
  rewrite inject_Z_plus in Hhi. change (inject_Z 1) with 1%Q in Hhi.
  split; lra.
Qed.

Lemma random_range (g : Random.state) : (0 <= fst (Random.random g) < 1)%Q.
Proof.
  destruct g as [|q g]; simpl.
  - split; lra.
  - apply unit_of_range.
Qed.

Lemma uniform_range (a b : Q) (g : Random.state) :
  (a <= b)%Q -> (a <= fst (Random.uniform a b g) <= b)%Q.
Proof.
  intros Hab. unfold Random.uniform.
  pose proof (random_range g) as Hu.
  destruct (Random.random g) as [u g']; cbn [fst] in *.
  split; nra.
Qed.

Lemma randbelow_range (n : Z) (g : Random.state) :
  0 < n -> 0 <= fst (Random.randbelow n g) < n.
Proof.
  intros Hn. unfold Random.randbelow.
  pose proof (random_range g) as Hu.
  destruct (Random.random g) as [u g']; cbn [fst] in *.
  assert (Hq : (inject_Z 0 < inject_Z n)%Q) by (rewrite <- Zlt_Qlt; exact Hn).
  change (inject_Z 0) with 0%Q in Hq.
  split.
  - rewrite <- (Qfloor_Z 0). apply Qfloor_resp_le. change (inject_Z 0) with 0%Q. nra.
  - apply Z.lt_nge. intros Hge.
    rewrite Zle_Qle in Hge.
    pose proof (Qfloor_le (u * inject_Z n)) as Hf.
    nra.
Qed.

Lemma randint_range (a b : Z) (g : Random.state) :
  a <= b -> a <= fst (Random.randint a b g) <= b.
Proof.
  intros Hab. unfold Random.randint.
  pose proof (randbelow_range (b - a + 1) g) as Hk.
  destruct (Random.randbelow (b - a + 1) g) as [k g']; cbn [fst] in *.
  lia.
Qed.

(** ** Rounding keeps integer bounds *)

Lemma round_half_even_ge (x : Q) (n : Z) :
  (inject_Z n <= x)%Q -> n <= round_half_even x.
Proof.
  intros Hx. unfold round_half_even.
  assert (Hf : n <= Qfloor x).
  { rewrite <- (Qfloor_Z n). now apply Qfloor_resp_le. }
  destruct (Qcompare _ _); [destruct (Z.even _)| |]; lia.
Qed.

Lemma round_half_even_le (x : Q) (n : Z) :
  (x <= inject_Z n)%Q -> round_half_even x <= n.
Proof.
  intros Hx. unfold round_half_even.
  assert (Hf : Qfloor x <= n).
  { rewrite <- (Qfloor_Z n). now apply Qfloor_resp_le. }
  destruct (Z.eq_dec (Qfloor x) n) as [He|Hne].
  - assert (Hd : (x - inject_Z (Qfloor x) <= 0)%Q) by (rewrite He; lra).
    destruct (Qcompare_spec (x - inject_Z (Qfloor x)) (1 # 2)) as [H|H|H];
      [rewrite H in Hd; lra | lia | lra].
  - destruct (Qcompare _ _); [destruct (Z.even _)| |]; lia.
Qed.

Lemma round2_bounds (x : Q) (lo hi : Z) :
  (inject_Z lo * (1 # 100) <= x <= inject_Z hi * (1 # 100))%Q ->
  (inject_Z lo * (1 # 100) <= round x 2 <= inject_Z hi * (1 # 100))%Q.
Proof.
  intros [Hlo Hhi]. unfold round, Qdiv.
  change (/ inject_Z (10 ^ Z.of_nat 2))%Q with (1 # 100)%Q.
  change (inject_Z (10 ^ Z.of_nat 2)) with 100%Q.
  assert (H1 : lo <= round_half_even (x * 100)).
  { apply round_half_even_ge. lra. }
  assert (H2 : round_half_even (x * 100) <= hi).
  { apply round_half_even_le. lra. }
  rewrite Zle_Qle in H1, H2.
  split; lra.
Qed.

(** ** Stepping through a computation *)

Lemma bind_ok_inv {S A B} (c : M S A) (k : A -> M S B) (s s' : S) (b : B) :
  bind c k s = (Ok b, s') ->
  exists a s1, c s = (Ok a, s1) /\ k a s1 = (Ok b, s').
Proof.
  unfold bind. destruct (c s) as [[a|e] s1]; intros H.
  - now exists a, s1.
  - discriminate.
Qed.

Lemma bind_ok {S A B} (c : M S A) (k : A -> M S B) (s s1 : S) (a : A) :
  c s = (Ok a, s1) -> bind c k s = k a s1.
Proof. unfold bind. now intros ->. Qed.

Lemma bind_raise {S A B} (c : M S A) (k : A -> M S B) (s s1 : S) (e : exn) :
  c s = (Raise e, s1) -> bind c k s = (Raise e, s1).
Proof. unfold bind. now intros ->. Qed.

Ltac inv_bind H :=
  let a := fresh "a" in
  let s := fresh "s" in
  let Hc := fresh "Hc" in
  apply bind_ok_inv in H; destruct H as (a & s & Hc & H).

Lemma find_eq (q : query_filter) (w : world) :
  find q w = (Ok (filter (matches q) (sales w)), logged (OpFind q) w).
Proof. reflexivity. Qed.

Lemma random_uniform_eq (a b : Q) (w : world) :
  random_uniform a b w =
  (Ok (fst (Random.uniform a b (rng w))), with_rng (snd (Random.uniform a b (rng w))) w).
Proof.
  unfold random_uniform, lift_random. now destruct (Random.uniform a b (rng w)).
Qed.

Lemma random_randint_eq (a b : Z) (w : world) :
  random_randint a b w =
  (Ok (fst (Random.randint a b (rng w))), with_rng (snd (Random.randint a b (rng w))) w).
Proof.
  unfold random_randint, lift_random. now destruct (Random.randint a b (rng w)).
Qed.

Lemma random_choice_eq {A} (seq : list A) (w : world) :
  random_choice seq w =
  (fst (Random.choice seq (rng w)), with_rng (snd (Random.choice seq (rng w))) w).
Proof.
  unfold random_choice. now destruct (Random.choice seq (rng w)).
Qed.

Lemma choice_In {A} (seq : list A) (g : Random.state) (x : A) :
  fst (Random.choice seq g) = Ok x -> In x seq.
Proof.
  unfold Random.choice. destruct seq as [|y seq']; [discriminate|].
  pose proof (randbelow_range (Z.of_nat (List.length (y :: seq'))) g) as Hk.
  destruct (Random.randbelow _ g) as [k g']; cbn [fst] in *.
  intros H. injection H as H.
  change (nth (Z.to_nat k) (y :: seq') y = x) in H. rewrite <- H. apply nth_In.
  assert (0 < Z.of_nat (List.length (y :: seq'))) by (cbn [List.length]; lia).
  lia.
Qed.

Lemma choice_nonempty {A} (seq : list A) (g : Random.state) :
  seq <> [] -> exists x, fst (Random.choice seq g) = Ok x.
Proof.
  unfold Random.choice. destruct seq as [|y seq']; [congruence|].
  intros _. destruct (Random.randbelow _ g) as [k g']. cbn [fst]. eauto.
Qed.

(** ** The division guards *)

Lemma inject_Z_nonzero (n : Z) : n <> 0 -> Qeq_bool (inject_Z n) 0 = false.
Proof.
  intros Hn. destruct (Qeq_bool (inject_Z n) 0) eqn:E; [|reflexivity].
  apply Qeq_bool_eq in E. unfold Qeq in E. simpl in E. lia.
Qed.

Lemma Qgtb_true (x y : Q) : Qgtb x y = true <-> (y < x)%Q.
Proof.
  unfold Qgtb. rewrite negb_true_iff.
  split; intros H.
  - apply Qnot_le_lt. intros Hle. apply Qle_bool_iff in Hle. congruence.
  - destruct (Qle_bool x y) eqn:E; [|reflexivity].
    apply Qle_bool_iff in E. lra.
Qed.

Lemma Qgtb_false (x y : Q) : Qgtb x y = false <-> (x <= y)%Q.
Proof.
  unfold Qgtb. rewrite negb_false_iff. apply Qle_bool_iff.
Qed.


Lemma average_order_value_of_eq (total_revenue : Q) (n : Z) (w : world) :
  average_order_value_of total_revenue n w =
  (Ok (if n >? 0 then total_revenue / inject_Z n else 0)%Q, w).
Proof.
  unfold average_order_value_of, truediv.
  destruct (n >? 0) eqn:E; [|reflexivity].
  rewrite inject_Z_nonzero by lia. reflexivity.
Qed.



Lemma retention_rate_of_eq (returning total : Z) (w : world) :
  retention_rate_of returning total w =
  (Ok (if total >? 0 then inject_Z returning / inject_Z total * 100 else 0)%Q, w).
Proof.
  unfold retention_rate_of, truediv, bind.
  destruct (total >? 0) eqn:E; [|reflexivity].
  rewrite inject_Z_nonzero by lia. reflexivity.
Qed.

(** ** Sales analytics: the empty result set *)

Lemma sales_analytics_no_match (P : Platform) (start_date end_date region : option string)
      (w : world) :
  let q := {| qf_date := dates_given start_date end_date;
              qf_region := region_given region |} in
  filter (matches q) (sales w) = [] ->
  get_sales_analytics P start_date end_date region w =
  (Raise (HTTPException 500
            ("Error calculating sales analytics: "
             ++ exn_str P (HTTPException 404 "No sales data found"))),
   logged (OpFind q) w).
Proof.
  intros q Hq.
  unfold get_sales_analytics, try_except, sales_analytics_body.
  fold q. rewrite (bind_ok _ _ _ _ _ (find_eq q w)). rewrite Hq. reflexivity.
Qed.

(** C2: a query whose filtered set is empty ends in the blanket handler of
    the route: the 404 raised for "No sales data found" is caught by
    [except Exception] and leaves as a 500, so the caller never sees the
    no-data condition as such. *)
Theorem no_data_leaves_as_internal_error (P : Platform)
        (start_date end_date region : option string) (w : world) :
  filter (matches {| qf_date := dates_given start_date end_date;
                     qf_region := region_given region |}) (sales w) = [] ->
  (exists detail,
      fst (get_sales_analytics P start_date end_date region w)
      = Raise (HTTPException 500 detail))
  /\ is_no_data_error (fst (get_sales_analytics P start_date end_date region w)) = false.
Proof.
  intros Hq. rewrite (sales_analytics_no_match P _ _ _ w Hq). cbn [fst].
  split; [eexists; reflexivity | reflexivity].
Qed.

Lemma no_data_leaves_as_internal_error_europe :
  sales Reference.asia_only <> []
  /\ fst (get_sales_analytics Reference.platform None None (Some "Europe"%string)
                              Reference.asia_only)
     = Raise (HTTPException 500
                "Error calculating sales analytics: 404: No sales data found")
  /\ is_no_data_error
       (fst (get_sales_analytics Reference.platform None None (Some "Europe"%string)
                                 Reference.asia_only)) = false.
Proof.
  split; [discriminate|].
  split; [reflexivity|].
  apply (no_data_leaves_as_internal_error
           Reference.platform None None (Some "Europe"%string) Reference.asia_only).
  reflexivity.
Defined.

(** ** Sales analytics: an inverted range *)

Lemma leb_cases (a b : string) :
  String.leb a b = true -> a = b \/ String_as_OT.lt a b.
Proof.
  unfold String.leb. destruct (String.compare a b) eqn:E; intros H.
  - left. now apply String.compare_eq_iff.
  - right. now apply String_as_OT.cmp_lt.
  - discriminate.
Qed.

Lemma ltb_lt (a b : string) : String.ltb a b = true -> String_as_OT.lt a b.
Proof.
  unfold String.ltb. destruct (String.compare a b) eqn:E; intros H; try discriminate.
  now apply String_as_OT.cmp_lt.
Qed.

Lemma inverted_range_empty (s e d : string) :
  String.ltb e s = true -> String.leb s d && String.leb d e = false.
Proof.
  intros Hes. apply ltb_lt in Hes.
  destruct (String.leb s d) eqn:H1; [|reflexivity].
  destruct (String.leb d e) eqn:H2; [|reflexivity].
  exfalso.
  apply leb_cases in H1, H2.
  assert (Hse : s = e \/ String_as_OT.lt s e).
  { destruct H1 as [->|H1], H2 as [->|H2]; auto.
    right. eapply String_as_OT.lt_trans; eassumption. }
  destruct Hse as [->|Hse].
  - now apply (String_as_OT.lt_not_eq e e).
  - apply (String_as_OT.lt_not_eq s s); [|reflexivity].
    eapply String_as_OT.lt_trans; eassumption.
Qed.

Lemma ltb_nonempty (e s : string) : String.ltb e s = true -> s <> ""%string.
Proof. intros H ->. destruct e; discriminate. Qed.

Lemma dates_given_some (s e : string) :
  s <> ""%string -> e <> ""%string -> dates_given (Some s) (Some e) = Some (s, e).
Proof.
  intros Hs He. unfold dates_given, truthy.
  apply String.eqb_neq in Hs, He. now rewrite Hs, He.
Qed.

(** C3 as the code has it: with both bounds given and the end before the
    start, no stored date lies in the range, so the call takes the path of
    an empty result set: it raises what it raises on an emptied store, no
    payload is computed and no previous-period query is issued. *)
Theorem inverted_range_is_empty_result (P : Platform) (s e : string)
        (region : option string) (w : world) :
  e <> ""%string ->
  String.ltb e s = true ->
  let q := {| qf_date := Some (s, e); qf_region := region_given region |} in
  filter (matches q) (sales w) = []
  /\ fst (get_sales_analytics P (Some s) (Some e) region w)
     = fst (get_sales_analytics P (Some s) (Some e) region (emptied w))
  /\ (exists x, fst (get_sales_analytics P (Some s) (Some e) region w) = Raise x)
  /\ snd (get_sales_analytics P (Some s) (Some e) region w) = logged (OpFind q) w.
Proof.
  intros He Hes q.
  pose proof (ltb_nonempty _ _ Hes) as Hs.
  assert (Hq : filter (matches q) (sales w) = []).
  { induction (sales w) as [|r l IH]; [reflexivity|].
    cbn [filter]. unfold matches at 1. cbn [qf_date q].
    rewrite (inverted_range_empty s e (date r) Hes). exact IH. }
  assert (Hd : dates_given (Some s) (Some e) = Some (s, e)) by now apply dates_given_some.
  split; [exact Hq|].
  rewrite (sales_analytics_no_match P (Some s) (Some e) region w)
    by (rewrite Hd; exact Hq).
  rewrite (sales_analytics_no_match P (Some s) (Some e) region (emptied w))
    by reflexivity.
  rewrite Hd. cbn [fst snd]. repeat split. eexists; reflexivity.
Qed.

Lemma inverted_range_is_empty_result_2024 :
  let q := {| qf_date := Some ("2024-12-31", "2024-01-01")%string;
              qf_region := None |} in
  filter (matches q) (sales Reference.asia_only) = []
  /\ fst (get_sales_analytics Reference.platform (Some "2024-12-31"%string)
                              (Some "2024-01-01"%string) None Reference.asia_only)
     = fst (get_sales_analytics Reference.platform (Some "2024-12-31"%string)
                                (Some "2024-01-01"%string) None
                                (emptied Reference.asia_only))
  /\ (exists x, fst (get_sales_analytics Reference.platform (Some "2024-12-31"%string)
                                         (Some "2024-01-01"%string) None
                                         Reference.asia_only) = Raise x)
  /\ snd (get_sales_analytics Reference.platform (Some "2024-12-31"%string)
                              (Some "2024-01-01"%string) None Reference.asia_only)
     = logged (OpFind q) Reference.asia_only.
Proof.
  apply (inverted_range_is_empty_result
           Reference.platform "2024-12-31" "2024-01-01" None Reference.asia_only).
  - discriminate.
  - reflexivity.
Defined.

(** C3 as stated fails: the range 2024-12-31 .. 2024-01-01 is inverted, and
    the call does not answer with an invalid-range (bad request) error. *)
Lemma inverted_range_not_rejected_as_invalid :
  String.ltb "2024-01-01" "2024-12-31" = true
  /\ is_invalid_range_error
       (fst (get_sales_analytics Reference.platform (Some "2024-12-31"%string)
                                 (Some "2024-01-01"%string) None Reference.asia_only))
     = false.
Proof. split; reflexivity. Qed.

(** ** The division guards of the calculators *)


(** ** Generation against a non-empty store *)

(** C8: against a store that already holds a document, generation returns
    normally with the message that reports the existing count; the store
    and the generator state are unchanged and the only driver call made is
    the count, so nothing is written. *)
Theorem generation_skipped_when_data_exists (P : Platform) (w : world) :
  sales w <> [] ->
  generate_sample_data P w =
  (Ok ("Sample data already exists ("
       ++ str_of_nat (List.length (sales w)) ++ " records)")%string,
   logged OpCountDocuments w)
  /\ sales (snd (generate_sample_data P w)) = sales w
  /\ rng (snd (generate_sample_data P w)) = rng w
  /\ oplog (snd (generate_sample_data P w)) = oplog w ++ [OpCountDocuments]
  /\ existsb is_write [OpCountDocuments] = false.
Proof.
  intros Hne.
  assert (H : generate_sample_data P w =
              (Ok ("Sample data already exists ("
                   ++ str_of_nat (List.length (sales w)) ++ " records)")%string,
               logged OpCountDocuments w)).
  { unfold generate_sample_data, count_documents, bind, log_op, get, ret.
    cbn [sales logged].
    destruct (sales w) as [|r l] eqn:E; [congruence|].
    replace (Z.of_nat (List.length (r :: l)) >? 0) with true
      by (symmetry; apply Z.gtb_lt; cbn [List.length]; lia).
    rewrite Nat2Z.id. reflexivity. }
  rewrite H. cbn [snd]. repeat split.
Qed.

Lemma generation_skipped_when_data_exists_asia :
  generate_sample_data Reference.platform Reference.asia_only =
  (Ok "Sample data already exists (1 records)"%string,
   logged OpCountDocuments Reference.asia_only)
  /\ sales (snd (generate_sample_data Reference.platform Reference.asia_only))
     = sales Reference.asia_only
  /\ rng (snd (generate_sample_data Reference.platform Reference.asia_only))
     = rng Reference.asia_only
  /\ oplog (snd (generate_sample_data Reference.platform Reference.asia_only))
     = oplog Reference.asia_only ++ [OpCountDocuments]
  /\ existsb is_write [OpCountDocuments] = false.
Proof.
  apply (generation_skipped_when_data_exists Reference.platform Reference.asia_only).
  discriminate.
Defined.

(** ** Customer analytics: retention *)




(** ** Sales analytics: the conversion rate *)

Lemma conversion_rate_is_the_draw (P : Platform) (start_date end_date region : option string)
      (w w' : world) (r : SalesAnalytics) :
  get_sales_analytics P start_date end_date region w = (Ok r, w') ->
  conversion_rate r = round (fst (Random.uniform (25 # 10) (85 # 10) (rng w))) 2.
Proof.
  unfold get_sales_analytics, try_except.
  destruct (sales_analytics_body P start_date end_date region w) as [[r0|e] w0] eqn:Hbody;
    [|discriminate].
  intros H. injection H as -> ->.
  unfold sales_analytics_body in Hbody.
  rewrite (bind_ok _ _ _ _ _ (find_eq _ w)) in Hbody.
  destruct (is_empty _); [discriminate|].
  rewrite (bind_ok _ _ _ _ _ (average_order_value_of_eq _ _ _)) in Hbody.
  rewrite (bind_ok _ _ _ _ _ (random_uniform_eq _ _ _)) in Hbody.
  inv_bind Hbody.
  injection Hbody as <- _. reflexivity.
Qed.

(** C10: the reported conversion rate is the 2-decimal rounding of one
    draw of [random.uniform(2.5, 8.5)] and nothing else: two calls that
    start from the same generator state report the same rate whatever the
    stored data and the filters are, the rate lies in [2.5, 8.5], and over
    one and the same store two generator states can give two rates. *)
Theorem conversion_rate_ignores_the_data :
  (forall (P : Platform) (s1 e1 rg1 s2 e2 rg2 : option string)
          (w1 w2 w1' w2' : world) (r1 r2 : SalesAnalytics),
      rng w1 = rng w2 ->
      get_sales_analytics P s1 e1 rg1 w1 = (Ok r1, w1') ->
      get_sales_analytics P s2 e2 rg2 w2 = (Ok r2, w2') ->
      conversion_rate r1 = conversion_rate r2
      /\ (25 # 10 <= conversion_rate r1 <= 85 # 10)%Q)
  /\ (exists (g1 g2 : Random.state) (r1 r2 : SalesAnalytics),
         fst (get_sales_analytics Reference.platform None None None
                (with_rng g1 Reference.asia_only)) = Ok r1
         /\ fst (get_sales_analytics Reference.platform None None None
                   (with_rng g2 Reference.asia_only)) = Ok r2
         /\ ~ (conversion_rate r1 == conversion_rate r2)%Q).
Proof.
  split.
  - intros P s1 e1 rg1 s2 e2 rg2 w1 w2 w1' w2' r1 r2 Hg H1 H2.
    apply conversion_rate_is_the_draw in H1, H2.
    split; [rewrite H1, H2, Hg; reflexivity|].
    rewrite H1.
    assert (Hu := uniform_range (25 # 10) (85 # 10) (rng w1)).
    assert (Hr := round2_bounds (fst (Random.uniform (25 # 10) (85 # 10) (rng w1))) 250 850).
    change (inject_Z 250) with 250%Q in Hr. change (inject_Z 850) with 850%Q in Hr.
    lra.
  - exists [0%Q], [(1 # 2)%Q].
    eexists. eexists.
    split; [vm_compute; reflexivity|].
    split; [vm_compute; reflexivity|].
    cbn [conversion_rate]. intros H. vm_compute in H. discriminate.
Qed.

Lemma conversion_rate_ignores_the_data_asia :
  let w1 := Reference.world_of [1 # 4]%Q (sales Reference.asia_only) in
  let w2 := Reference.world_of [1 # 4]%Q
              [Reference.doc "2024-05-01T09:30:00+00:00" "CUST0002" "Europe" (99 # 1);
               Reference.doc "2024-05-02T09:30:00+00:00" "CUST0003" "Europe" (1 # 1)] in
  match fst (get_sales_analytics Reference.platform None None None w1),
        fst (get_sales_analytics Reference.platform None None (Some "all"%string) w2) with
  | Ok r1, Ok r2 =>
      conversion_rate r1 = conversion_rate r2
      /\ (25 # 10 <= conversion_rate r1 <= 85 # 10)%Q
  | _, _ => False
  end.
Proof.
  intros w1 w2.
  destruct (get_sales_analytics Reference.platform None None None w1)
    as [[r1|x1] w1'] eqn:H1;
    [|vm_compute in H1; discriminate].
  destruct (get_sales_analytics Reference.platform None None (Some "all"%string) w2)
    as [[r2|x2] w2'] eqn:H2;
    [|vm_compute in H2; discriminate].
  cbn [fst].
  exact (proj1 conversion_rate_ignores_the_data Reference.platform
               None None None None None (Some "all"%string)
               w1 w2 w1' w2' r1 r2 eq_refl H1 H2).
Defined.

(** ** The daily volume *)

(** On every count the daily draw can give, the binary64 product with 0.6,
    truncated, is the exact product rounded down. *)
Lemma weekend_scaling_exact (n : Z) :
  5 <= n <= 35 ->
  int_of_float (PrimFloat.mul (float_of_int n) 0x1.3333333333333p-1%float)
  = Qfloor (inject_Z n * (6 # 10)).
Proof.
  intros Hn.
  assert (Hin : In n (map Z.of_nat (seq 5 31))).
  { apply in_map_iff. exists (Z.to_nat n). split; [lia|]. apply in_seq. lia. }
  cbv [seq map] in Hin. cbn [Z.of_nat Pos.of_succ_nat Pos.succ] in Hin.
  repeat (destruct Hin as [<-|Hin]; [vm_compute; reflexivity|]).
  contradiction.
Qed.

Lemma volume_range_bounds (month : Z) :
  let (lo, hi) := volume_range month in 5 <= lo /\ lo <= hi /\ hi <= 35.
Proof.
  unfold volume_range.
  destruct ((month =? 11) || (month =? 12));
    [|destruct ((month =? 6) || (month =? 7) || (month =? 8))]; lia.
Qed.

Lemma base_draw_eq (month : Z) :
  (if Zmem month [11; 12] then random_randint 15 35
   else if Zmem month [6; 7; 8] then random_randint 5 15
   else random_randint 8 20)
  = random_randint (fst (volume_range month)) (snd (volume_range month)).
Proof.
  unfold Zmem, existsb, volume_range.
  rewrite !orb_false_r.
  destruct (month =? 11), (month =? 12), (month =? 6), (month =? 7), (month =? 8);
    reflexivity.
Qed.

(** C6: the base count of a day is one draw of [randint] over the range of
    its month (15..35 in months 11 and 12, 5..15 in months 6, 7 and 8,
    8..20 otherwise) and lies in that range; on a weekend day (weekday 5
    or 6) the count used is the drawn count times 0.6, rounded down, and on
    any other day the drawn count itself. *)
Theorem daily_base_transactions (P : Platform) (current_date : datetime) (w : world) :
  let lo := fst (volume_range (month current_date)) in
  let hi := snd (volume_range (month current_date)) in
  let drawn := fst (Random.randint lo hi (rng w)) in
  lo <= drawn <= hi
  /\ base_transactions_of P current_date w =
     (Ok (if weekday P current_date >=? 5
          then Qfloor (inject_Z drawn * (6 # 10))
          else drawn),
      with_rng (snd (Random.randint lo hi (rng w))) w).
Proof.
  intros lo hi drawn.
  pose proof (volume_range_bounds (month current_date)) as Hb.
  destruct (volume_range (month current_date)) as [lo' hi'] eqn:E.
  cbn [fst snd] in lo, hi. subst lo hi.
  assert (Hd : lo' <= drawn <= hi') by (apply randint_range; lia).
  split; [exact Hd|].
  unfold base_transactions_of. rewrite base_draw_eq, E. cbn [fst snd].
  rewrite (bind_ok _ _ _ _ _ (random_randint_eq _ _ _)).
  fold drawn.
  destruct (weekday P current_date >=? 5); [|reflexivity].
  unfold ret. rewrite weekend_scaling_exact by lia. reflexivity.
Qed.

(** ** The generator: what every record carries *)

Lemma keeps_store_ret {A} (a : A) : keeps_store (ret a).
Proof. intros w. reflexivity. Qed.

Lemma keeps_store_bind {A B} (c : M world A) (k : A -> M world B) :
  keeps_store c -> (forall a, keeps_store (k a)) -> keeps_store (bind c k).
Proof.
  intros Hc Hk w. unfold bind.
  specialize (Hc w). destruct (c w) as [[a|e] w1]; cbn [snd] in *.
  - rewrite Hk. exact Hc.
  - exact Hc.
Qed.

Lemma keeps_store_uniform (a b : Q) : keeps_store (random_uniform a b).
Proof. intros w. rewrite random_uniform_eq. reflexivity. Qed.

Lemma keeps_store_randint (a b : Z) : keeps_store (random_randint a b).
Proof. intros w. rewrite random_randint_eq. reflexivity. Qed.

Lemma keeps_store_choice {A} (seq : list A) : keeps_store (random_choice seq).
Proof. intros w. rewrite random_choice_eq. reflexivity. Qed.

Lemma keeps_store_for_each {A B} (xs : list A) (body : B -> A -> M world B) :
  (forall acc x, keeps_store (body acc x)) ->
  forall acc, keeps_store (for_each xs body acc).
Proof.
  intros Hbody. induction xs as [|x xs IH]; intros acc; cbn [for_each].
  - apply keeps_store_ret.
  - apply keeps_store_bind; [apply Hbody | exact IH].
Qed.

Create HintDb store.
#[local] Hint Resolve keeps_store_ret keeps_store_uniform keeps_store_randint
  keeps_store_choice : store.

Ltac keeps_store :=
  repeat match goal with
         | |- keeps_store (bind _ _) => apply keeps_store_bind; [|intros ?]
         | |- keeps_store (if ?b then _ else _) => destruct b
         | |- keeps_store _ => solve [auto with store]
         end.

Lemma keeps_store_base_transactions (P : Platform) (d : datetime) :
  keeps_store (base_transactions_of P d).
Proof. unfold base_transactions_of. keeps_store. Qed.

Lemma keeps_store_make_record (P : Platform) (d : datetime) (customers : list Customer)
      (recs : list SalesRecord) :
  keeps_store (make_record P d customers recs).
Proof. unfold make_record. keeps_store. Qed.

Lemma keeps_store_generate_day (P : Platform) (start_date : datetime)
      (customers : list Customer) (recs : list SalesRecord) (day : nat) :
  keeps_store (generate_day P start_date customers recs day).
Proof.
  unfold generate_day.
  apply keeps_store_bind; [apply keeps_store_base_transactions|intros n].
  apply keeps_store_for_each. intros acc x.
  apply keeps_store_bind; [apply keeps_store_make_record|intros r].
  apply keeps_store_ret.
Qed.

Lemma keeps_store_generate_customers (P : Platform) : keeps_store (generate_customers P).
Proof.
  unfold generate_customers. generalize (range 500). intros days.
  apply keeps_store_for_each. intros acc i.
  apply keeps_store_bind; [apply keeps_store_choice|intros segment].
  apply keeps_store_bind; [apply keeps_store_choice|intros region].
  apply keeps_store_ret.
Qed.

Lemma random_choice_In {A} (seq : list A) (w w' : world) (x : A) :
  random_choice seq w = (Ok x, w') -> In x seq.
Proof.
  rewrite random_choice_eq. intros H.
  apply (f_equal fst) in H. cbn [fst] in H.
  now apply choice_In in H.
Qed.

(** An invariant of the accumulator of a loop that returns. *)
Lemma for_each_invariant {S A B} (I : B -> Prop) (xs : list A) (body : B -> A -> M S B) :
  (forall acc x s acc' s', I acc -> body acc x s = (Ok acc', s') -> I acc') ->
  forall acc s acc' s',
    I acc -> for_each xs body acc s = (Ok acc', s') -> I acc'.
Proof.
  intros Hbody. induction xs as [|x xs IH]; intros acc s acc' s' Hacc H; cbn [for_each] in H.
  - injection H as <- _. exact Hacc.
  - inv_bind H. eapply IH; [|exact H]. eapply Hbody; eassumption.
Qed.

Lemma generate_customers_segments (P : Platform) (w w' : world) (customers : list Customer) :
  generate_customers P w = (Ok customers, w') ->
  Forall (fun c => In (cust_segment c) segments) customers.
Proof.
  unfold generate_customers. generalize (range 500). intros days.
  apply for_each_invariant; [|constructor].
  intros acc i s acc' s' Hacc H.
  inv_bind H. inv_bind H. injection H as <- _.
  apply Forall_app. split; [exact Hacc|].
  constructor; [|constructor]. cbn [cust_segment].
  now apply random_choice_In in Hc.
Qed.

Lemma adjusted_for_segment (segment : string) (base adjusted : Q) (w w' : world) :
  In segment segments ->
  (if segment ==? "Enterprise"
   then f <- random_uniform (12 # 10) (18 # 10) ;; ret (base * f)%Q
   else if segment ==? "Individual"
   then f <- random_uniform (7 # 10) (9 # 10) ;; ret (base * f)%Q
   else ret base) w = (Ok adjusted, w') ->
  adjusted_for segment base adjusted.
Proof.
  intros Hseg H. unfold adjusted_for.
  destruct (segment ==? "Enterprise") eqn:E1; [|destruct (segment ==? "Individual") eqn:E2].
  - left. apply String.eqb_eq in E1. split; [exact E1|].
    rewrite (bind_ok _ _ _ _ _ (random_uniform_eq _ _ _)) in H. injection H as <- _.
    eexists. split; [|reflexivity].
    split; [eexists; reflexivity | apply uniform_range; lra].
  - right; left. apply String.eqb_eq in E2. split; [exact E2|].
    rewrite (bind_ok _ _ _ _ _ (random_uniform_eq _ _ _)) in H. injection H as <- _.
    eexists. split; [|reflexivity].
    split; [eexists; reflexivity | apply uniform_range; lra].
  - right; right. injection H as <- _. split; [|reflexivity].
    apply String.eqb_neq in E1, E2.
    cbv [segments In] in Hseg. intuition congruence.
Qed.

Lemma make_record_priced (P : Platform) (d : datetime) (customers : list Customer)
      (recs : list SalesRecord) (w w' : world) (r : SalesRecord) :
  Forall (fun c => In (cust_segment c) segments) customers ->
  make_record P d customers recs w = (Ok r, w') ->
  priced_after_adjustment r.
Proof.
  intros Hcs H. unfold make_record in H.
  inv_bind H. rename a into customer.
  inv_bind H. rename a into product.
  rewrite (bind_ok _ _ _ _ _ (random_randint_eq _ _ _)) in H.
  rewrite (bind_ok _ _ _ _ _ (random_uniform_eq _ _ _)) in H.
  inv_bind H. rename a into adjusted.
  inv_bind H. inv_bind H. injection H as <- _.
  apply random_choice_In in Hc, Hc0.
  match type of Hc1 with
  | (if _ then _ else if _ then _ else ret ?b) _ = _ => set (base := b) in *
  end.
  exists product, base, adjusted.
  cbn [product_id customer_segment quantity unit_price total_amount].
  split; [exact Hc0|]. split; [reflexivity|].
  split.
  { apply uniform_range. rewrite <- Zle_Qle.
    cbv [products In] in Hc0.
    repeat (destruct Hc0 as [<-|Hc0]; [cbn; lia|]). contradiction. }
  split.
  { eapply adjusted_for_segment; [|exact Hc1].
    rewrite Forall_forall in Hcs. now apply Hcs. }
  split; [apply randint_range; lia|].
  split; reflexivity.
Qed.

Lemma generate_day_priced (P : Platform) (start_date : datetime) (customers : list Customer)
      (recs recs' : list SalesRecord) (day : nat) (w w' : world) :
  Forall (fun c => In (cust_segment c) segments) customers ->
  Forall priced_after_adjustment recs ->
  generate_day P start_date customers recs day w = (Ok recs', w') ->
  Forall priced_after_adjustment recs'.
Proof.
  intros Hcs Hrecs H. unfold generate_day in H.
  inv_bind H.
  revert H. apply for_each_invariant; [|exact Hrecs].
  intros acc x s1 acc' s1' Hacc H.
  inv_bind H. injection H as <- _.
  apply Forall_app. split; [exact Hacc|].
  constructor; [|constructor].
  eapply make_record_priced; eassumption.
Qed.

(** Every document that a run against an empty store leaves in the store
    was priced after the segment adjustment. *)
Lemma generated_records_priced (P : Platform) (w : world) :
  sales w = [] ->
  Forall priced_after_adjustment (sales (snd (generate_sample_data P w))).
Proof.
  intros Hw. unfold generate_sample_data, count_documents, log_op, get.
  unfold bind at 1 2 3. cbn [ret sales logged]. rewrite Hw. cbn [List.length Z.of_nat Z.gtb Z.compare].
  set (w0 := logged OpCountDocuments w).
  assert (Hw0 : sales w0 = []) by exact Hw.
  unfold bind at 1.
  pose proof (keeps_store_generate_customers P w0) as Hk1.
  destruct (generate_customers P w0) as [[customers|e] w1] eqn:Hcust; cbn [snd] in *;
    [|rewrite Hk1, Hw0; constructor].
  apply generate_customers_segments in Hcust.
  unfold bind at 1.
  set (start_date := add_days P (now_utc P 0) (- 730)).
  pose proof (keeps_store_for_each (range 730) (generate_day P start_date customers)
                (keeps_store_generate_day P start_date customers) [] w1) as Hk2.
  destruct (for_each (range 730) (generate_day P start_date customers) [] w1)
    as [[recs|e] w2] eqn:Hdays; cbn [snd] in *;
    [|rewrite Hk2, Hk1, Hw0; constructor].
  assert (Hrecs : Forall priced_after_adjustment recs).
  { revert Hdays. apply for_each_invariant; [|constructor].
    intros acc day s acc' s' Hacc H.
    eapply generate_day_priced; eassumption. }
  assert (Hs : sales w2 = []) by congruence.
  destruct recs as [|r recs'].
  - cbn. rewrite Hs. constructor.
  - cbv [bind insert_many log_op ret]. cbn [snd sales logged].
    rewrite Hs. exact Hrecs.
Qed.

(** ** The generator returns *)

Lemma for_each_returns {S A B} (xs : list A) (body : B -> A -> M S B) :
  (forall acc x s, exists acc' s', body acc x s = (Ok acc', s')) ->
  forall acc s, exists acc' s', for_each xs body acc s = (Ok acc', s').
Proof.
  intros Hbody. induction xs as [|x xs IH]; intros acc s; cbn [for_each].
  - eexists. eexists. reflexivity.
  - destruct (Hbody acc x s) as (acc1 & s1 & H1).
    rewrite (bind_ok _ _ _ _ _ H1). apply IH.
Qed.

Lemma random_choice_returns {A} (seq : list A) (w : world) :
  seq <> [] -> exists x, random_choice seq w = (Ok x, with_rng (snd (Random.choice seq (rng w))) w).
Proof.
  intros Hne. rewrite random_choice_eq.
  destruct (choice_nonempty seq (rng w) Hne) as [x Hx].
  exists x. now rewrite Hx.
Qed.

Lemma customer_step_returns (P : Platform) (customers : list Customer) (i : nat) (w : world) :
  exists c w',
    (segment <- random_choice segments ;;
     region <- random_choice regions ;;
     ret (customers ++
          [ {| cust_id := "CUST" ++ zero_padded 4 (i + 1);
               cust_name := fake_company P i;
               cust_segment := segment;
               cust_region := region;
               created_date := fake_date_between P i |} ])) w
    = (Ok (customers ++ [c]), w').
Proof.
  destruct (random_choice_returns segments w) as [segment Hs]; [discriminate|].
  rewrite (bind_ok _ _ _ _ _ Hs).
  destruct (random_choice_returns regions (with_rng (snd (Random.choice segments (rng w))) w))
    as [region Hr]; [discriminate|].
  rewrite (bind_ok _ _ _ _ _ Hr).
  eexists. eexists. reflexivity.
Qed.

Lemma generate_customers_returns (P : Platform) (w : world) :
  exists customers w',
    generate_customers P w = (Ok customers, w') /\ customers <> [].
Proof.
  unfold generate_customers, range.
  change (seq 0 500) with (0%nat :: seq 1 499). generalize (seq 1 499). intros rest.
  cbn [for_each].
  destruct (customer_step_returns P [] 0 w) as (c & w1 & H1).
  rewrite (bind_ok _ _ _ _ _ H1).
  match goal with
  | |- exists _ _, for_each rest ?body ?a w1 = _ /\ _ =>
      assert (Hstep : forall acc x s, exists acc' s', body acc x s = (Ok acc', s'));
      [|pose proof (for_each_returns rest body Hstep a w1) as Hloop]
  end.
  { intros acc x s. destruct (customer_step_returns P acc x s) as (c' & s' & H').
    eexists. eexists. exact H'. }
  destruct Hloop as (cs & w2 & H2).
  exists cs, w2. split; [exact H2|].
  eapply (for_each_invariant (fun acc => acc <> [])); [| |exact H2].
  - intros acc x s acc' s' Hacc H.
    destruct (customer_step_returns P acc x s) as (c' & s'' & H').
    cbv beta in H. rewrite H' in H. injection H as <- _.
    intros E. now apply app_eq_nil in E as [_ E].
  - discriminate.
Qed.

Lemma base_transactions_returns (P : Platform) (d : datetime) (w : world) :
  exists n w', base_transactions_of P d w = (Ok n, w').
Proof.
  unfold base_transactions_of. rewrite base_draw_eq.
  rewrite (bind_ok _ _ _ _ _ (random_randint_eq _ _ _)).
  destruct (weekday P d >=? 5); eexists; eexists; reflexivity.
Qed.

Lemma make_record_returns (P : Platform) (d : datetime) (customers : list Customer)
      (recs : list SalesRecord) (w : world) :
  customers <> [] ->
  exists r w', make_record P d customers recs w = (Ok r, w').
Proof.
  intros Hne. unfold make_record.
  destruct (random_choice_returns customers w Hne) as [customer H1].
  rewrite (bind_ok _ _ _ _ _ H1).
  destruct (random_choice_returns products (with_rng (snd (Random.choice customers (rng w))) w))
    as [product H2]; [discriminate|].
  rewrite (bind_ok _ _ _ _ _ H2).
  rewrite (bind_ok _ _ _ _ _ (random_randint_eq _ _ _)).
  rewrite (bind_ok _ _ _ _ _ (random_uniform_eq _ _ _)).
  match goal with
  | |- exists _ _, bind ?c ?k ?s = _ =>
      assert (Hadj : exists u s', c s = (Ok u, s'))
  end.
  { destruct (cust_segment customer ==? "Enterprise");
      [|destruct (cust_segment customer ==? "Individual")].
    - rewrite (bind_ok _ _ _ _ _ (random_uniform_eq _ _ _)). eexists; eexists; reflexivity.
    - rewrite (bind_ok _ _ _ _ _ (random_uniform_eq _ _ _)). eexists; eexists; reflexivity.
    - eexists; eexists; reflexivity. }
  destruct Hadj as (u & s' & Hadj). rewrite (bind_ok _ _ _ _ _ Hadj).
  destruct (random_choice_returns (sales_reps P) s') as [rep H3].
  { unfold sales_reps, range. discriminate. }
  rewrite (bind_ok _ _ _ _ _ H3).
  match goal with
  | |- exists _ _, bind (random_choice channels) ?k ?s = _ =>
      pose proof (random_choice_returns channels s) as H4
  end.
  destruct H4 as [ch H4]; [discriminate|].
  rewrite (bind_ok _ _ _ _ _ H4).
  eexists; eexists; reflexivity.
Qed.

Lemma generate_day_returns (P : Platform) (start_date : datetime) (customers : list Customer)
      (recs : list SalesRecord) (day : nat) (w : world) :
  customers <> [] ->
  exists recs' w', generate_day P start_date customers recs day w = (Ok recs', w').
Proof.
  intros Hne. unfold generate_day.
  destruct (base_transactions_returns P (add_days P start_date (Z.of_nat day)) w)
    as (n & w1 & H1).
  rewrite (bind_ok _ _ _ _ _ H1).
  apply for_each_returns. intros acc x s.
  destruct (make_record_returns P (add_days P start_date (Z.of_nat day)) customers acc s Hne)
    as (r & s' & Hr).
  rewrite (bind_ok _ _ _ _ _ Hr). eexists; eexists; reflexivity.
Qed.


(** ** Rounding to two decimals is within half a cent *)

Lemma round_half_even_error (y : Q) :
  (- (1 # 2) <= inject_Z (round_half_even y) - y <= 1 # 2)%Q.
Proof.
  unfold round_half_even.
  pose proof (Qfloor_le y) as Hlo.
  pose proof (Qlt_floor y) as Hhi.
  rewrite inject_Z_plus in Hhi. change (inject_Z 1) with 1%Q in Hhi.
  destruct (Qcompare_spec (y - inject_Z (Qfloor y)) (1 # 2)) as [H|H|H].
  - destruct (Z.even (Qfloor y)).
    + split; lra.
    + rewrite inject_Z_plus. change (inject_Z 1) with 1%Q. split; lra.
  - split; lra.
  - rewrite inject_Z_plus. change (inject_Z 1) with 1%Q. split; lra.
Qed.

Lemma round2_error (x : Q) : (- (1 # 200) <= round x 2 - x <= 1 # 200)%Q.
Proof.
  unfold round, Qdiv.
  change (/ inject_Z (10 ^ Z.of_nat 2))%Q with (1 # 100)%Q.
  change (inject_Z (10 ^ Z.of_nat 2)) with 100%Q.
  pose proof (round_half_even_error (x * 100)) as H.
  split; lra.
Qed.

Lemma priced_rounds_one_price (r : SalesRecord) :
  priced_after_adjustment r -> rounds_one_price r.
Proof.
  intros (product & base & u & _ & _ & _ & _ & Hq & Hup & Htot).
  exists u. split; [exact Hup|]. split; [exact Htot|].
  rewrite Hup, Htot.
  pose proof (round2_error u) as H1.
  pose proof (round2_error (inject_Z (quantity r) * u)) as H2.
  assert (Hq0 : (1 <= inject_Z (quantity r))%Q).
  { change 1%Q with (inject_Z 1). rewrite <- Zle_Qle. lia. }
  apply Qabs_Qle_condition.
  set (q := inject_Z (quantity r)) in *.
  set (ru := round u 2) in *. set (rt := round (q * u) 2) in *.
  split; nra.
Qed.

(** ** The generator: the stored price and the stored total *)



(** C1 as the code has it: in every record that a run against an empty
    store leaves, the stored price and the stored total are roundings of
    one and the same unrounded adjusted price [u]: [unit_price] is
    [round(u, 2)] and [total_amount] is [round(quantity * u, 2)]; the total
    is therefore within [(quantity + 1) / 200] of quantity times the stored
    price. *)
Theorem stored_amounts_round_one_price (P : Platform) (w : world) :
  sales w = [] ->
  Forall rounds_one_price (sales (snd (generate_sample_data P w))).
Proof.
  intros Hw. eapply Forall_impl; [|apply generated_records_priced; exact Hw].
  exact priced_rounds_one_price.
Qed.

Lemma stored_amounts_round_one_price_script :
  Forall rounds_one_price
    (sales (snd (generate_sample_data Reference.platform
                   (Reference.world_of Reference.script [])))).
Proof.
  apply (stored_amounts_round_one_price
           Reference.platform (Reference.world_of Reference.script [])).
  reflexivity.
Defined.

(** C1 as stated fails: the first record of the scripted run holds
    quantity 10, price 19.00 and total 190.04 = 4751/25 (the unrounded
    price is 19.004), and round(10 * 19.00, 2) is 190.00. *)
Lemma stored_total_is_not_quantity_times_stored_price :
  option_map
    (fun r => (quantity r, Qred (unit_price r), Qred (total_amount r),
               Qred (round (inject_Z (quantity r) * unit_price r) 2),
               total_matches_stored_price r))
    (hd_error (sales (snd (generate_sample_data Reference.platform
                             (Reference.world_of Reference.script [])))))
  = Some (10, (19 # 1)%Q, (4751 # 25)%Q, (190 # 1)%Q, false).
Proof. vm_compute. reflexivity. Qed.

(** ** The monthly series is in ascending month order *)

Lemma leb_trans (a b c : string) :
  String.leb a b = true -> String.leb b c = true -> String.leb a c = true.
Proof.
  intros H1 H2. apply leb_cases in H1, H2.
  destruct H1 as [->|H1]; [destruct H2 as [->|H2]|].
  - now destruct (String.leb_total c c).
  - unfold String.leb. change String.compare with String_as_OT.cmp.
    now rewrite (proj2 (String_as_OT.cmp_lt _ _) H2).
  - assert (H : String_as_OT.lt a c).
    { destruct H2 as [<-|H2]; [exact H1|].
      eapply String_as_OT.lt_trans; eassumption. }
    unfold String.leb. change String.compare with String_as_OT.cmp.
    now rewrite (proj2 (String_as_OT.cmp_lt _ _) H).
Qed.

Lemma leb_neq_ltb (a b : string) :
  String.leb a b = true -> a <> b -> String.ltb a b = true.
Proof.
  unfold String.leb, String.ltb. intros H Hne.
  destruct (String.compare a b) eqn:E; try reflexivity; try discriminate.
  apply String.compare_eq_iff in E. contradiction.
Qed.

Lemma Forall_insert_month (Q : MonthRow -> Prop) (x : MonthRow) (rows : list MonthRow) :
  Q x -> Forall Q rows -> Forall Q (insert_month x rows).
Proof.
  intros Hx Hrows. induction Hrows as [|y rows' Hy Hrows' IH]; cbn [insert_month].
  - now constructor.
  - destruct (String.leb (m_id x) (m_id y)); repeat constructor; assumption.
Qed.

Lemma insert_month_sorted (x : MonthRow) (rows : list MonthRow) :
  StronglySorted row_le rows -> StronglySorted row_le (insert_month x rows).
Proof.
  induction 1 as [|y rows' Hs IH Hy]; cbn [insert_month].
  - repeat constructor.
  - destruct (String.leb (m_id x) (m_id y)) eqn:E.
    + constructor; [now constructor|].
      constructor; [exact E|].
      eapply Forall_impl; [|exact Hy].
      intros z Hz. eapply leb_trans; [exact E|exact Hz].
    + constructor; [exact IH|].
      apply Forall_insert_month; [|exact Hy].
      destruct (String.leb_total (m_id x) (m_id y)) as [H|H]; [congruence|exact H].
Qed.

Lemma sort_months_sorted (rows : list MonthRow) : StronglySorted row_le (sort_months rows).
Proof.
  unfold sort_months. induction rows as [|x rows IH]; cbn [fold_right].
  - constructor.
  - now apply insert_month_sorted.
Qed.

Lemma insert_month_ids (x : MonthRow) (rows : list MonthRow) :
  Permutation (map m_id (insert_month x rows)) (m_id x :: map m_id rows).
Proof.
  induction rows as [|y rows IH]; cbn [insert_month map].
  - reflexivity.
  - destruct (String.leb (m_id x) (m_id y)); cbn [map].
    + reflexivity.
    + rewrite IH. apply perm_swap.
Qed.

Lemma sort_months_ids (rows : list MonthRow) :
  Permutation (map m_id (sort_months rows)) (map m_id rows).
Proof.
  unfold sort_months. induction rows as [|x rows IH]; cbn [fold_right map].
  - reflexivity.
  - rewrite insert_month_ids. now constructor.
Qed.

Lemma group_month_ids (key : string) (amount : Q) (rows : list MonthRow) :
  (In key (map m_id rows)
   /\ map m_id (group_month key amount rows) = map m_id rows)
  \/ (~ In key (map m_id rows)
      /\ map m_id (group_month key amount rows) = map m_id rows ++ [key]).
Proof.
  induction rows as [|g rows IH]; cbn [group_month map].
  - right. split; [intros []|reflexivity].
  - destruct (m_id g ==? key) eqn:E.
    + left. apply String.eqb_eq in E. split; [now left|reflexivity].
    + apply String.eqb_neq in E. destruct IH as [[Hin Heq]|[Hnin Heq]].
      * left. split; [now right|]. cbn [map]. now rewrite Heq.
      * right. split; [intros [H|H]; contradiction|]. cbn [map app]. now rewrite Heq.
Qed.

Lemma group_month_nodup (key : string) (amount : Q) (rows : list MonthRow) :
  NoDup (map m_id rows) -> NoDup (map m_id (group_month key amount rows)).
Proof.
  intros Hnd. destruct (group_month_ids key amount rows) as [[_ ->]|[Hnin ->]].
  - exact Hnd.
  - eapply Permutation_NoDup; [apply Permutation_cons_append|].
    now constructor.
Qed.

Lemma monthly_groups_nodup (P : Platform) (docs : list SalesRecord) (w w' : world)
      (rows : list MonthRow) :
  monthly_groups P docs w = (Ok rows, w') -> NoDup (map m_id rows).
Proof.
  unfold monthly_groups. intros H.
  eapply (for_each_invariant (fun rows => NoDup (map m_id rows))); [| |exact H].
  - intros acc r s acc' s' Hacc Hb. cbv beta in Hb.
    inv_bind Hb. injection Hb as <- _. now apply group_month_nodup.
  - constructor.
Qed.

Lemma sorted_distinct_ascending (rows : list MonthRow) :
  StronglySorted row_le rows -> NoDup (map m_id rows) ->
  StronglySorted string_lt (map m_id rows).
Proof.
  induction 1 as [|x rows Hs IH Hx]; cbn [map]; intros Hnd.
  - constructor.
  - inversion Hnd as [|? ? Hnin Hnd']; subst.
    constructor; [now apply IH|].
    apply Forall_map. rewrite Forall_forall in *. intros y Hy.
    apply leb_neq_ltb; [now apply Hx|].
    intros E. apply Hnin. rewrite E. now apply in_map.
Qed.

Lemma aggregate_monthly_ascending (P : Platform) (w w' : world) (monthly_data : list MonthRow) :
  aggregate_monthly P w = (Ok monthly_data, w') ->
  StronglySorted string_lt (map m_id monthly_data).
Proof.
  unfold aggregate_monthly, log_op, get. unfold bind at 1 2. cbn [sales logged].
  intros H. inv_bind H. injection H as <- _.
  apply sorted_distinct_ascending; [apply sort_months_sorted|].
  eapply Permutation_NoDup; [symmetry; apply sort_months_ids|].
  eapply monthly_groups_nodup; eassumption.
Qed.

(** ** The peak list *)





Lemma Forall_firstn {A} (Q : A -> Prop) (n : nat) (l : list A) :
  Forall Q l -> Forall Q (firstn n l).
Proof.
  intros H. revert n. induction H as [|a l Ha H IH]; intros [|n]; cbn [firstn];
    constructor; auto.
Qed.


Lemma sorted_firstn {A} (R : A -> A -> Prop) (n : nat) (l : list A) :
  StronglySorted R l -> StronglySorted R (firstn n l).
Proof.
  intros H. revert n. induction H as [|a l Hs IH Ha]; intros [|n]; cbn [firstn];
    try constructor; auto.
  now apply Forall_firstn.
Qed.

Lemma sorted_map {A B} (R : B -> B -> Prop) (f : A -> B) (l : list A) :
  StronglySorted R (map f l) <-> StronglySorted (fun a b => R (f a) (f b)) l.
Proof.
  induction l as [|a l IH]; cbn [map]; split; intros H; try constructor;
    inversion H; subst.
  - now apply IH.
  - now apply Forall_map.
  - now apply IH.
  - now apply Forall_map.
Qed.




(** * Further properties of the generator *)

Lemma keeps_db_ret {A} (a : A) : keeps_db (ret a).
Proof. intros w. split; reflexivity. Qed.

Lemma keeps_db_bind {A B} (c : M world A) (k : A -> M world B) :
  keeps_db c -> (forall a, keeps_db (k a)) -> keeps_db (bind c k).
Proof.
  intros Hc Hk w. unfold bind.
  specialize (Hc w). destruct (c w) as [[a|e] w1]; cbn [snd] in *.
  - destruct (Hk a w1) as [H1 H2]. destruct Hc as [H3 H4]. split; congruence.
  - exact Hc.
Qed.

Lemma keeps_db_uniform (a b : Q) : keeps_db (random_uniform a b).
Proof. intros w. rewrite random_uniform_eq. split; reflexivity. Qed.

Lemma keeps_db_randint (a b : Z) : keeps_db (random_randint a b).
Proof. intros w. rewrite random_randint_eq. split; reflexivity. Qed.

Lemma keeps_db_choice {A} (seq : list A) : keeps_db (random_choice seq).
Proof. intros w. rewrite random_choice_eq. split; reflexivity. Qed.

Lemma keeps_db_for_each {A B} (xs : list A) (body : B -> A -> M world B) :
  (forall acc x, keeps_db (body acc x)) ->
  forall acc, keeps_db (for_each xs body acc).
Proof.
  intros Hbody. induction xs as [|x xs IH]; intros acc; cbn [for_each].
  - apply keeps_db_ret.
  - apply keeps_db_bind; [apply Hbody | exact IH].
Qed.

#[local] Hint Resolve keeps_db_ret keeps_db_uniform keeps_db_randint
  keeps_db_choice : store.

Ltac keeps_db :=
  repeat match goal with
         | |- keeps_db (bind _ _) => apply keeps_db_bind; [|intros ?]
         | |- keeps_db (if ?b then _ else _) => destruct b
         | |- keeps_db _ => solve [auto with store]
         end.

Lemma keeps_db_generate_customers (P : Platform) : keeps_db (generate_customers P).
Proof.
  unfold generate_customers. generalize (range 500). intros days.
  apply keeps_db_for_each. intros acc i. keeps_db.
Qed.

Lemma keeps_db_generate_day (P : Platform) (start_date : datetime)
      (customers : list Customer) (recs : list SalesRecord) (day : nat) :
  keeps_db (generate_day P start_date customers recs day).
Proof.
  unfold generate_day.
  apply keeps_db_bind; [unfold base_transactions_of; keeps_db|intros n].
  apply keeps_db_for_each. intros acc x.
  apply keeps_db_bind; [unfold make_record; keeps_db|intros r].
  apply keeps_db_ret.
Qed.

(** The shape of a run against an empty store: the customers, then the
    records of the 730 days, then one [insert_many]. *)
Lemma generate_run (P : Platform) (w : world) :
  sales w = [] ->
  exists customers recs w1 w2,
    generate_customers P (logged OpCountDocuments w) = (Ok customers, w1)
    /\ customers <> []
    /\ for_each (range 730)
         (generate_day P (add_days P (now_utc P 0) (- 730)) customers) [] w1
       = (Ok recs, w2)
    /\ sales w2 = [] /\ oplog w2 = oplog w ++ [OpCountDocuments]
    /\ generate_sample_data P w =
       (Ok ("Generated " ++ str_of_nat (List.length recs)
            ++ " sales records successfully")%string,
        match recs with
        | [] => w2
        | _ => {| rng := rng w2; sales := recs;
                  oplog := oplog w ++ [OpCountDocuments; OpInsertMany (List.length recs)] |}
        end).
Proof.
  intros Hw.
  destruct (generate_customers_returns P (logged OpCountDocuments w))
    as (customers & w1 & H1 & Hne).
  assert (Hday : forall acc x s, exists acc' s',
               generate_day P (add_days P (now_utc P 0) (- 730)) customers acc x s
               = (Ok acc', s'))
    by (intros acc x s; now apply generate_day_returns).
  destruct (for_each_returns (range 730) _ Hday [] w1) as (recs & w2 & H2).
  exists customers, recs, w1, w2.
  pose proof (keeps_db_generate_customers P (logged OpCountDocuments w)) as [K1 K1'].
  rewrite H1 in K1, K1'. cbn [snd sales oplog logged] in K1, K1'.
  pose proof (keeps_db_for_each (range 730) _
                (keeps_db_generate_day P (add_days P (now_utc P 0) (- 730)) customers)
                [] w1) as [K2 K2'].
  rewrite H2 in K2, K2'. cbn [snd] in K2, K2'.
  assert (Hs : sales w2 = []) by congruence.
  assert (Ho : oplog w2 = oplog w ++ [OpCountDocuments]) by congruence.
  repeat (split; [assumption|]).
  unfold generate_sample_data, count_documents, log_op, get.
  unfold bind at 1 2 3. cbn [ret sales logged]. rewrite Hw.
  cbn [List.length Z.of_nat Z.gtb Z.compare].
  rewrite (bind_ok _ _ _ _ _ H1). rewrite (bind_ok _ _ _ _ _ H2).
  destruct recs as [|r recs']; [reflexivity|].
  cbv [bind insert_many log_op ret logged]. cbn [rng sales oplog].
  rewrite Hs, Ho. rewrite <- app_assoc. reflexivity.
Qed.

(** ** The number of records *)

Lemma base_transactions_bounds (P : Platform) (d : datetime) (w w' : world) (n : Z) :
  base_transactions_of P d w = (Ok n, w') -> 3 <= n <= 35.
Proof.
  unfold base_transactions_of. rewrite base_draw_eq.
  rewrite (bind_ok _ _ _ _ _ (random_randint_eq _ _ _)).
  pose proof (volume_range_bounds (month d)) as Hb.
  destruct (volume_range (month d)) as [lo hi]. cbn [fst snd].
  pose proof (randint_range lo hi (rng w) ltac:(lia)) as Hd.
  set (drawn := fst (Random.randint lo hi (rng w))) in *.
  destruct (weekday P d >=? 5); unfold ret; intros H; injection H as <- _; [|lia].
  rewrite weekend_scaling_exact by lia.
  assert (H5 : (inject_Z 5 <= inject_Z drawn)%Q) by (rewrite <- Zle_Qle; lia).
  assert (H35 : (inject_Z drawn <= inject_Z 35)%Q) by (rewrite <- Zle_Qle; lia).
  change (inject_Z 5) with 5%Q in H5. change (inject_Z 35) with 35%Q in H35.
  split.
  - rewrite <- (Qfloor_Z 3). apply Qfloor_resp_le. change (inject_Z 3) with 3%Q. lra.
  - rewrite <- (Qfloor_Z 35). apply Qfloor_resp_le. change (inject_Z 35) with 35%Q. lra.
Qed.

Lemma for_each_length {St A B} (xs : list A) (body : list B -> A -> M St (list B)) :
  (forall acc x s acc' s',
      body acc x s = (Ok acc', s') -> List.length acc' = S (List.length acc)) ->
  forall acc s acc' s',
    for_each xs body acc s = (Ok acc', s') ->
    List.length acc' = (List.length acc + List.length xs)%nat.
Proof.
  intros Hbody. induction xs as [|x xs IH]; intros acc s acc' s' H; cbn [for_each] in H.
  - injection H as <- _. cbn [List.length]. lia.
  - inv_bind H. apply IH in H. apply Hbody in Hc. cbn [List.length]. lia.
Qed.

Lemma generate_day_length (P : Platform) (start_date : datetime) (customers : list Customer)
      (recs recs' : list SalesRecord) (day : nat) (w w' : world) :
  generate_day P start_date customers recs day w = (Ok recs', w') ->
  (List.length recs + 3 <= List.length recs' <= List.length recs + 35)%nat.
Proof.
  unfold generate_day. intros H. inv_bind H.
  apply base_transactions_bounds in Hc.
  apply for_each_length in H.
  - unfold range in H. rewrite length_seq in H. lia.
  - intros acc x s1 acc' s1' Hb. inv_bind Hb. injection Hb as <- _.
    rewrite length_app. cbn [List.length]. lia.
Qed.

Lemma days_length (P : Platform) (start_date : datetime) (customers : list Customer)
      (days : list nat) :
  forall (recs recs' : list SalesRecord) (w w' : world),
    for_each days (generate_day P start_date customers) recs w = (Ok recs', w') ->
    (List.length recs + 3 * List.length days <= List.length recs'
     <= List.length recs + 35 * List.length days)%nat.
Proof.
  induction days as [|d days IH]; intros recs recs' w w' H; cbn [for_each] in H.
  - injection H as <- _. cbn [List.length]. lia.
  - inv_bind H. apply generate_day_length in Hc. apply IH in H.
    cbn [List.length]. lia.
Qed.

Lemma generation_run_summary (P : Platform) (w : world) :
  sales w = [] ->
  exists n : nat,
    2190 <= Z.of_nat n <= 25550
    /\ fst (generate_sample_data P w)
       = Ok ("Generated " ++ str_of_nat n ++ " sales records successfully")%string
    /\ List.length (sales (snd (generate_sample_data P w))) = n
    /\ oplog (snd (generate_sample_data P w))
       = oplog w ++ [OpCountDocuments; OpInsertMany n].
Proof.
  intros Hw.
  destruct (generate_run P w Hw) as (customers & recs & w1 & w2 & _ & _ & H2 & Hs & Ho & H).
  apply days_length in H2. unfold range in H2. rewrite length_seq in H2.
  cbn [List.length] in H2.
  exists (List.length recs). rewrite H. cbn [fst snd].
  split; [lia|]. split; [reflexivity|].
  destruct recs as [|r recs']; [cbn [List.length] in H2; lia|].
  split; reflexivity.
Qed.

(** X1: a run against an empty store writes once: it stores between 2190
    and 25550 records (3 to 35 a day for 730 days) with a single
    [insert_many], and the message reports that number. *)
Theorem generation_writes_once (P : Platform) (w : world) :
  sales w = [] ->
  exists n : nat,
    2190 <= Z.of_nat n <= 25550
    /\ fst (generate_sample_data P w)
       = Ok ("Generated " ++ str_of_nat n ++ " sales records successfully")%string
    /\ List.length (sales (snd (generate_sample_data P w))) = n
    /\ oplog (snd (generate_sample_data P w))
       = oplog w ++ [OpCountDocuments; OpInsertMany n].
Proof. exact (generation_run_summary P w). Qed.

Lemma generation_writes_once_empty :
  exists n : nat,
    2190 <= Z.of_nat n <= 25550
    /\ fst (generate_sample_data Reference.platform (Reference.world_of [] []))
       = Ok ("Generated " ++ str_of_nat n ++ " sales records successfully")%string
    /\ List.length (sales (snd (generate_sample_data Reference.platform
                                  (Reference.world_of [] [])))) = n
    /\ oplog (snd (generate_sample_data Reference.platform (Reference.world_of [] [])))
       = oplog (Reference.world_of [] []) ++ [OpCountDocuments; OpInsertMany n].
Proof.
  apply (generation_writes_once Reference.platform (Reference.world_of [] [])).
  reflexivity.
Defined.

Lemma generate_on_existing (P : Platform) (w : world) :
  sales w <> [] ->
  generate_sample_data P w =
  (Ok ("Sample data already exists ("
       ++ str_of_nat (List.length (sales w)) ++ " records)")%string,
   logged OpCountDocuments w).
Proof.
  intros Hne.
  unfold generate_sample_data, count_documents, bind, log_op, get, ret.
  cbn [sales logged].
  destruct (sales w) as [|r l] eqn:E; [congruence|].
  replace (Z.of_nat (List.length (r :: l)) >? 0) with true
    by (symmetry; apply Z.gtb_lt; cbn [List.length]; lia).
  rewrite Nat2Z.id. reflexivity.
Qed.

(** X2: generation run twice from an empty store: the second run stores
    nothing, leaves the documents of the first run as they are and reports
    their number. *)
Theorem generation_twice (P : Platform) (w : world) :
  sales w = [] ->
  let w1 := snd (generate_sample_data P w) in
  fst (generate_sample_data P w1)
  = Ok ("Sample data already exists ("
        ++ str_of_nat (List.length (sales w1)) ++ " records)")%string
  /\ sales (snd (generate_sample_data P w1)) = sales w1
  /\ oplog (snd (generate_sample_data P w1)) = oplog w1 ++ [OpCountDocuments]
  /\ 2190 <= len (sales w1).
Proof.
  intros Hw w1.
  destruct (generation_run_summary P w Hw) as (n & Hn & _ & Hlen & _).
  fold w1 in Hlen.
  assert (Hne : sales w1 <> []).
  { intros E. rewrite E in Hlen. cbn [List.length] in Hlen. lia. }
  rewrite (generate_on_existing P w1 Hne). cbn [fst snd sales oplog logged].
  repeat split. unfold len. lia.
Qed.

Lemma generation_twice_empty :
  let w1 := snd (generate_sample_data Reference.platform (Reference.world_of [] [])) in
  fst (generate_sample_data Reference.platform w1)
  = Ok ("Sample data already exists ("
        ++ str_of_nat (List.length (sales w1)) ++ " records)")%string
  /\ sales (snd (generate_sample_data Reference.platform w1)) = sales w1
  /\ oplog (snd (generate_sample_data Reference.platform w1)) = oplog w1 ++ [OpCountDocuments]
  /\ 2190 <= len (sales w1).
Proof.
  apply (generation_twice Reference.platform (Reference.world_of [] [])).
  reflexivity.
Defined.

(** ** What a record is made of *)

Lemma for_each_invariant_in {St A B} (I : B -> Prop) (xs : list A) (body : B -> A -> M St B) :
  (forall acc x s acc' s', In x xs -> I acc -> body acc x s = (Ok acc', s') -> I acc') ->
  forall acc s acc' s',
    I acc -> for_each xs body acc s = (Ok acc', s') -> I acc'.
Proof.
  induction xs as [|x xs IH]; intros Hbody acc s acc' s' Hacc H; cbn [for_each] in H.
  - injection H as <- _. exact Hacc.
  - inv_bind H. eapply IH; [| |exact H].
    + intros acc0 y s1 acc1 s2 Hy. apply Hbody. now right.
    + eapply Hbody; [now left|exact Hacc|exact Hc].
Qed.

Lemma make_record_fields (P : Platform) (d : datetime) (customers : list Customer)
      (recs : list SalesRecord) (w w' : world) (r : SalesRecord) :
  make_record P d customers recs w = (Ok r, w') ->
  exists customer product,
    In customer customers /\ In product products
    /\ record_id r = uuid4 P (List.length recs)
    /\ transaction_id r = ("TXN" ++ zero_padded 6 (List.length recs + 1))%string
    /\ date r = isoformat P d
    /\ customer_id r = cust_id customer
    /\ customer_name r = cust_name customer
    /\ customer_segment r = cust_segment customer
    /\ region r = cust_region customer
    /\ product_id r = prod_id product
    /\ product_name r = prod_name product
    /\ product_category r = prod_category product
    /\ In (sales_rep r) (sales_reps P)
    /\ In (channel r) channels
    /\ created_at r = now_utc P (S (List.length recs)).
Proof.
  intros H. unfold make_record in H.
  inv_bind H. rename a into customer.
  inv_bind H. rename a into product.
  rewrite (bind_ok _ _ _ _ _ (random_randint_eq _ _ _)) in H.
  rewrite (bind_ok _ _ _ _ _ (random_uniform_eq _ _ _)) in H.
  inv_bind H. inv_bind H. inv_bind H. injection H as <- _.
  apply random_choice_In in Hc, Hc0, Hc2, Hc3.
  exists customer, product. cbn.
  repeat (split; [first [assumption|reflexivity]|]). reflexivity.
Qed.

(** ** Transaction ids *)

Lemma ids_in_sequence_snoc (recs : list SalesRecord) (r : SalesRecord) :
  ids_in_sequence recs ->
  transaction_id r = ("TXN" ++ zero_padded 6 (List.length recs + 1))%string ->
  ids_in_sequence (recs ++ [r]).
Proof.
  intros Hrecs Hr k x Hk.
  destruct (Nat.lt_ge_cases k (List.length recs)) as [Hlt|Hge].
  - rewrite nth_error_app1 in Hk by exact Hlt. now apply Hrecs.
  - rewrite nth_error_app2 in Hk by exact Hge.
    destruct (k - List.length recs)%nat as [|j] eqn:E; cbn [nth_error] in Hk.
    + injection Hk as <-. rewrite Hr. do 2 f_equal. lia.
    + destruct j; discriminate.
Qed.

Lemma generated_ids_in_sequence (P : Platform) (w : world) :
  sales w = [] -> ids_in_sequence (sales (snd (generate_sample_data P w))).
Proof.
  intros Hw.
  destruct (generate_run P w Hw) as (customers & recs & w1 & w2 & _ & _ & H2 & Hs & _ & H).
  rewrite H. cbn [snd].
  assert (Hrecs : ids_in_sequence recs).
  { revert H2. apply for_each_invariant.
    - intros acc day s acc' s' Hacc Hd. unfold generate_day in Hd. inv_bind Hd.
      revert Hd. apply for_each_invariant; [|exact Hacc].
      intros acc1 x s1 acc2 s2 Hacc1 Hb. inv_bind Hb. injection Hb as <- _.
      apply ids_in_sequence_snoc; [exact Hacc1|].
      apply make_record_fields in Hc0.
      destruct Hc0 as (c & p & _ & _ & _ & Hid & _). exact Hid.
    - intros k r Hk. destruct k; discriminate. }
  destruct recs; [rewrite Hs; intros k r Hk; destruct k; discriminate|exact Hrecs].
Qed.

Lemma uint_of_zeros (k : nat) (s : string) :
  NilEmpty.uint_of_string (zeros k ++ s)
  = option_map (Nat.iter k Decimal.D0) (NilEmpty.uint_of_string s).
Proof.
  induction k as [|k IH]; cbn [zeros String.append Nat.iter].
  - now destruct (NilEmpty.uint_of_string s).
  - cbn [NilEmpty.uint_of_string]. rewrite IH.
    now destruct (NilEmpty.uint_of_string s).
Qed.

Lemma of_uint_zeros (k : nat) (d : Decimal.uint) :
  Nat.of_uint (Nat.iter k Decimal.D0 d) = Nat.of_uint d.
Proof.
  induction k as [|k IH]; cbn [Nat.iter]; [reflexivity|].
  rewrite <- IH. reflexivity.
Qed.

Lemma transaction_number_of_id (n : nat) :
  transaction_number ("TXN" ++ zero_padded 6 n) = Some n.
Proof.
  cbn [String.append transaction_number]. unfold zero_padded, str_of_nat.
  rewrite uint_of_zeros.
  assert (Hs : NilZero.string_of_uint (Nat.to_uint n)
               = NilEmpty.string_of_uint (Nat.to_uint n)).
  { unfold NilZero.string_of_uint.
    destruct (Nat.to_uint n) eqn:E; try reflexivity.
    exfalso.
    assert (H0 : n = 0%nat) by (rewrite <- (Unsigned.of_to n), E; reflexivity).
    subst n. discriminate E. }
  rewrite Hs, NilEmpty.usu. cbn [option_map].
  now rewrite of_uint_zeros, Unsigned.of_to.
Qed.

(** X3: in the store left by a run against an empty store the transaction
    ids count up from TXN000001 in insertion order (the k-th document, from
    0, holds the zero-padded k + 1), each id spells its own number back, and
    no two documents share an id. *)
Theorem transaction_ids_sequential_and_distinct (P : Platform) (w : world) :
  sales w = [] ->
  let docs := sales (snd (generate_sample_data P w)) in
  (forall k r, nth_error docs k = Some r ->
               transaction_id r = ("TXN" ++ zero_padded 6 (k + 1))%string
               /\ transaction_number (transaction_id r) = Some (k + 1)%nat)
  /\ NoDup (map transaction_id docs).
Proof.
  intros Hw docs.
  pose proof (generated_ids_in_sequence P w Hw) as Hseq. fold docs in Hseq.
  split.
  - intros k r Hk. specialize (Hseq k r Hk). split; [exact Hseq|].
    rewrite Hseq. apply transaction_number_of_id.
  - apply NoDup_nth_error. intros i j Hi Hij.
    rewrite length_map in Hi.
    rewrite !nth_error_map in Hij.
    destruct (nth_error docs i) as [ri|] eqn:Ei;
      [|apply nth_error_None in Ei; lia].
    destruct (nth_error docs j) as [rj|] eqn:Ej; [|discriminate].
    cbn [option_map] in Hij. injection Hij as Hij.
    apply (f_equal transaction_number) in Hij.
    rewrite (Hseq i ri Ei), (Hseq j rj Ej), !transaction_number_of_id in Hij.
    injection Hij as Hij. lia.
Qed.

Lemma transaction_ids_sequential_and_distinct_empty :
  let docs := sales (snd (generate_sample_data Reference.platform
                            (Reference.world_of [] []))) in
  (forall k r, nth_error docs k = Some r ->
               transaction_id r = ("TXN" ++ zero_padded 6 (k + 1))%string
               /\ transaction_number (transaction_id r) = Some (k + 1)%nat)
  /\ NoDup (map transaction_id docs).
Proof.
  apply (transaction_ids_sequential_and_distinct
           Reference.platform (Reference.world_of [] [])).
  reflexivity.
Defined.

(** ** Bounds on the stored amounts *)

Lemma catalog_price_range (product : Product) :
  In product products ->
  19 <= fst (price_range product) /\ snd (price_range product) <= 799.
Proof.
  intros H. cbv [products In] in H.
  repeat (destruct H as [<-|H]; [cbn; lia|]). contradiction.
Qed.

Lemma adjusted_bounds (segment : string) (base adjusted : Q) :
  (19 <= base <= 799)%Q ->
  adjusted_for segment base adjusted ->
  (133 # 10 <= adjusted <= 14382 # 10)%Q.
Proof.
  intros Hb [[_ (f & [_ Hf] & ->)]|[[_ (f & [_ Hf] & ->)]|[_ ->]]]; split; nra.
Qed.

(** X4: every record that a run against an empty store leaves has a
    quantity from 1 to 10, a price between 13.30 and 1438.20 and a total
    between 13.30 and 14382.00; in particular no stored amount is zero or
    negative. *)
Theorem generated_amounts_bounded (P : Platform) (w : world) :
  sales w = [] ->
  Forall (fun r =>
            1 <= quantity r <= 10
            /\ (1330 # 100 <= unit_price r <= 143820 # 100)%Q
            /\ (1330 # 100 <= total_amount r <= 1438200 # 100)%Q)
         (sales (snd (generate_sample_data P w))).
Proof.
  intros Hw. eapply Forall_impl; [|apply generated_records_priced; exact Hw].
  intros r (product & base & adjusted & Hin & _ & Hbase & Hadj & Hq & Hup & Htot).
  apply catalog_price_range in Hin as [Hlo Hhi].
  rewrite Zle_Qle in Hlo, Hhi.
  change (inject_Z 19) with 19%Q in Hlo. change (inject_Z 799) with 799%Q in Hhi.
  assert (Ha : (133 # 10 <= adjusted <= 14382 # 10)%Q).
  { eapply adjusted_bounds; [|exact Hadj]. lra. }
  assert (Hq1 : (1 <= inject_Z (quantity r))%Q).
  { change 1%Q with (inject_Z 1). rewrite <- Zle_Qle. lia. }
  assert (Hq10 : (inject_Z (quantity r) <= 10)%Q).
  { change 10%Q with (inject_Z 10). rewrite <- Zle_Qle. lia. }
  split; [exact Hq|]. rewrite Hup, Htot. split.
  - pose proof (round2_bounds adjusted 1330 143820) as H.
    change (inject_Z 1330) with 1330%Q in H. change (inject_Z 143820) with 143820%Q in H.
    lra.
  - pose proof (round2_bounds (inject_Z (quantity r) * adjusted) 1330 1438200) as H.
    change (inject_Z 1330) with 1330%Q in H. change (inject_Z 1438200) with 1438200%Q in H.
    assert ((133 # 10 <= inject_Z (quantity r) * adjusted <= 143820 # 10)%Q) by (split; nra).
    lra.
Qed.

Lemma generated_amounts_bounded_empty :
  Forall (fun r =>
            1 <= quantity r <= 10
            /\ (1330 # 100 <= unit_price r <= 143820 # 100)%Q
            /\ (1330 # 100 <= total_amount r <= 1438200 # 100)%Q)
         (sales (snd (generate_sample_data Reference.platform (Reference.world_of [] [])))).
Proof.
  apply (generated_amounts_bounded Reference.platform (Reference.world_of [] [])).
  reflexivity.
Defined.

(** ** Where the fields of a record come from *)

Lemma generate_customers_generated (P : Platform) (w w' : world) (customers : list Customer) :
  generate_customers P w = (Ok customers, w') ->
  Forall (generated_customer P) customers.
Proof.
  unfold generate_customers.
  apply for_each_invariant_in; [|constructor].
  intros acc i s acc' s' Hi Hacc H.
  inv_bind H. inv_bind H. injection H as <- _.
  apply random_choice_In in Hc, Hc0.
  apply Forall_app. split; [exact Hacc|].
  constructor; [|constructor].
  exists i. cbn. unfold range in Hi. apply in_seq in Hi.
  repeat split; try assumption. lia.
Qed.

(** X5: every record that a run against an empty store leaves is
    consistent: its customer id, name, segment and region are those of one
    customer of the generated population (id CUST0001 .. CUST0500, segment
    and region from the catalog lists), its product id, name and category
    those of one catalog product, its date the ISO form of one of the 730
    days of the window, its sales rep one of the 20 generated names and its
    channel one of the four channels. *)
Theorem generated_records_are_consistent (P : Platform) (w : world) :
  sales w = [] ->
  Forall (consistent_record P) (sales (snd (generate_sample_data P w))).
Proof.
  intros Hw.
  destruct (generate_run P w Hw) as (customers & recs & w1 & w2 & H1 & _ & H2 & Hs & _ & H).
  rewrite H. cbn [snd].
  apply generate_customers_generated in H1. rewrite Forall_forall in H1.
  assert (Hrecs : Forall (consistent_record P) recs).
  { revert H2. apply for_each_invariant_in; [|constructor].
    intros acc day s acc' s' Hday Hacc Hd. unfold generate_day in Hd. inv_bind Hd.
    revert Hd. apply for_each_invariant; [|exact Hacc].
    intros acc1 x s1 acc2 s2 Hacc1 Hb. inv_bind Hb. injection Hb as <- _.
    apply Forall_app. split; [exact Hacc1|]. constructor; [|constructor].
    apply make_record_fields in Hc0.
    destruct Hc0 as (c & p & Hc' & Hp & _ & _ & Hdate & Hcid & Hcn & Hcs & Hrg
                     & Hpid & Hpn & Hpc & Hrep & Hch & _).
    exists c, p, day. unfold range in Hday. apply in_seq in Hday.
    repeat (split; [first [assumption|now apply H1|lia]|]). assumption. }
  destruct recs; [rewrite Hs; constructor|exact Hrecs].
Qed.

Lemma generated_records_are_consistent_empty :
  Forall (consistent_record Reference.platform)
         (sales (snd (generate_sample_data Reference.platform (Reference.world_of [] [])))).
Proof.
  apply (generated_records_are_consistent Reference.platform (Reference.world_of [] [])).
  reflexivity.
Defined.

(** * Grouping *)

Section GroupByFacts.

Context {A G : Type} (gid : G -> string) (key : A -> string)
        (init : A -> G) (upd : G -> A -> G).
Hypothesis gid_init : forall r, gid (init r) = key r.
Hypothesis gid_upd : forall g r, gid (upd g r) = gid g.

Lemma group_step_cases (r : A) (rows : list G) :
  (exists l1 g l2,
      rows = l1 ++ g :: l2 /\ gid g = key r /\ ~ In (key r) (map gid l1)
      /\ group_step gid key init upd r rows = l1 ++ upd g r :: l2)
  \/ (~ In (key r) (map gid rows)
      /\ group_step gid key init upd r rows = rows ++ [init r]).
Proof.
  induction rows as [|g rows IH]; cbn [group_step].
  - right. split; [intros []|reflexivity].
  - destruct (gid g ==? key r) eqn:E.
    + apply String.eqb_eq in E. left. exists [], g, rows.
      repeat split; [exact E|intros []].
    + apply String.eqb_neq in E.
      destruct IH as [(l1 & g0 & l2 & -> & Hg & Hn & ->)|[Hn ->]].
      * left. exists (g :: l1), g0, l2. repeat split; [exact Hg|].
        cbn [map In]. intros [H|H]; contradiction.
      * right. split; [|reflexivity]. cbn [map In]. intros [H|H]; contradiction.
Qed.

Lemma group_all_snoc (docs : list A) (r : A) :
  group_all gid key init upd (docs ++ [r])
  = group_step gid key init upd r (group_all gid key init upd docs).
Proof. unfold group_all. now rewrite fold_left_app. Qed.

Lemma group_step_ids (r : A) (rows : list G) :
  (In (key r) (map gid rows)
   /\ map gid (group_step gid key init upd r rows) = map gid rows)
  \/ (~ In (key r) (map gid rows)
      /\ map gid (group_step gid key init upd r rows) = map gid rows ++ [key r]).
Proof.
  destruct (group_step_cases r rows) as [(l1 & g & l2 & -> & Hg & Hn & ->)|[Hn ->]].
  - left. rewrite !map_app. cbn [map]. rewrite gid_upd. split; [|reflexivity].
    apply in_or_app. right. left. exact Hg.
  - right. rewrite map_app. cbn [map]. now rewrite gid_init.
Qed.

(** The rows have pairwise distinct keys, and the keys are those of the
    documents. *)
Lemma group_all_keys (docs : list A) :
  NoDup (map gid (group_all gid key init upd docs))
  /\ forall k, In k (map gid (group_all gid key init upd docs)) <-> In k (map key docs).
Proof.
  induction docs as [|r docs IH] using rev_ind.
  - split; [constructor|]. intros k. reflexivity.
  - destruct IH as [Hnd Hk]. rewrite group_all_snoc.
    destruct (group_step_ids r (group_all gid key init upd docs)) as [[Hin ->]|[Hn ->]].
    + split; [exact Hnd|]. intros k. rewrite Hk, map_app, in_app_iff. cbn [map In].
      split; [tauto|]. intros [H|[<-|[]]]; [exact H|]. now apply Hk.
    + split.
      * eapply Permutation_NoDup; [apply Permutation_cons_append|]. now constructor.
      * intros k. rewrite map_app, !in_app_iff, Hk. reflexivity.
Qed.

(** A property of a row in terms of the documents seen so far, kept by the
    three things that can happen to a row. *)
Lemma group_all_forall (Phi : list A -> G -> Prop) :
  (forall docs r, ~ In (key r) (map key docs) -> Phi (docs ++ [r]) (init r)) ->
  (forall docs g r, gid g = key r -> Phi docs g -> Phi (docs ++ [r]) (upd g r)) ->
  (forall docs g r, gid g <> key r -> Phi docs g -> Phi (docs ++ [r]) g) ->
  forall docs, Forall (Phi docs) (group_all gid key init upd docs).
Proof.
  intros Hinit Hupd Hkeep docs.
  induction docs as [|r docs IH] using rev_ind; [constructor|].
  rewrite group_all_snoc.
  destruct (group_all_keys docs) as [Hnd Hk].
  destruct (group_step_cases r (group_all gid key init upd docs))
    as [(l1 & g & l2 & E & Hg & Hn & ->)|[Hn ->]].
  - rewrite E in IH, Hnd. apply Forall_app in IH as [H1 H2].
    inversion H2 as [|? ? Hg0 H2']; subst.
    rewrite map_app in Hnd. cbn [map] in Hnd. apply NoDup_remove_2 in Hnd.
    apply Forall_app. split; [|constructor].
    + rewrite Forall_forall in *. intros x Hx. apply Hkeep; [|now apply H1].
      intros Ex. apply Hn. rewrite <- Ex. now apply in_map.
    + now apply Hupd.
    + rewrite Forall_forall in *. intros x Hx. apply Hkeep; [|now apply H2'].
      intros Ex. apply Hnd. apply in_or_app. right. rewrite Hg, <- Ex. now apply in_map.
  - apply Forall_app. split; [|constructor; [|constructor]].
    + rewrite Forall_forall in *. intros x Hx. apply Hkeep; [|now apply IH].
      intros Ex. apply Hn. rewrite <- Ex. now apply in_map.
    + apply Hinit. intros Hin. apply Hn. now apply Hk.
Qed.

Lemma members_snoc (docs : list A) (r : A) (g : G) :
  members gid key (docs ++ [r]) g
  = members gid key docs g ++ (if key r ==? gid g then [r] else []).
Proof. unfold members. rewrite filter_app. reflexivity. Qed.

Lemma members_snoc_other (docs : list A) (r : A) (g : G) :
  gid g <> key r -> members gid key (docs ++ [r]) g = members gid key docs g.
Proof.
  intros Hne. rewrite members_snoc.
  destruct (key r ==? gid g) eqn:E; [|now rewrite app_nil_r].
  apply String.eqb_eq in E. congruence.
Qed.

Lemma members_snoc_same (docs : list A) (r : A) (g : G) :
  gid g = key r -> members gid key (docs ++ [r]) g = members gid key docs g ++ [r].
Proof.
  intros He. rewrite members_snoc. now rewrite He, String.eqb_refl.
Qed.

Lemma members_none (docs : list A) (g : G) :
  ~ In (gid g) (map key docs) -> members gid key docs g = [].
Proof.
  intros Hn. unfold members. induction docs as [|d docs IH]; [reflexivity|].
  cbn [filter]. destruct (key d ==? gid g) eqn:E.
  - apply String.eqb_eq in E. exfalso. apply Hn. left. exact E.
  - apply IH. intros H. apply Hn. now right.
Qed.

(** An integer measure of a row that [init] starts at the weight of the
    document and [upd] raises by it. *)
Section IntegerMeasure.

Context (m : G -> Z) (weight : A -> Z).
Hypothesis m_init : forall r, m (init r) = weight r.
Hypothesis m_upd : forall g r, m (upd g r) = m g + weight r.

Lemma sumZ_app (xs ys : list Z) : sumZ (xs ++ ys) = sumZ xs + sumZ ys.
Proof. unfold sumZ. induction xs as [|x xs IH]; cbn [app fold_right]; lia. Qed.

Lemma group_all_measure (docs : list A) :
  Forall (fun g => m g = sumZ (map weight (members gid key docs g)))
         (group_all gid key init upd docs).
Proof.
  apply (group_all_forall (fun docs g => m g = sumZ (map weight (members gid key docs g)))).
  - intros ds r Hn. rewrite members_snoc_same by apply gid_init.
    rewrite members_none by (now rewrite gid_init).
    cbn [app map sumZ fold_right]. rewrite m_init. lia.
  - intros ds g r Hg Hm. rewrite m_upd, Hm.
    rewrite members_snoc_same by (now rewrite gid_upd).
    unfold members at 2. rewrite gid_upd. fold (members gid key ds g).
    rewrite map_app, sumZ_app. cbn [map sumZ fold_right]. lia.
  - intros ds g r Hg Hm. now rewrite members_snoc_other.
Qed.

Lemma group_step_total (r : A) (rows : list G) :
  sumZ (map m (group_step gid key init upd r rows)) = sumZ (map m rows) + weight r.
Proof.
  induction rows as [|g rows IH]; cbn [group_step map sumZ fold_right].
  - rewrite m_init. lia.
  - destruct (gid g ==? key r); cbn [map sumZ fold_right].
    + rewrite m_upd. fold (sumZ (map m rows)). lia.
    + fold (sumZ (map m (group_step gid key init upd r rows))). rewrite IH.
      fold (sumZ (map m rows)). lia.
Qed.

Lemma group_all_total (docs : list A) :
  sumZ (map m (group_all gid key init upd docs)) = sumZ (map weight docs).
Proof.
  induction docs as [|r docs IH] using rev_ind; [reflexivity|].
  rewrite group_all_snoc, group_step_total, IH, map_app, sumZ_app.
  cbn [map sumZ fold_right]. lia.
Qed.

End IntegerMeasure.

(** The same for a rational measure, up to equality of rationals. *)
Section RationalMeasure.

Context (m : G -> Q) (weight : A -> Q).
Hypothesis m_init : forall r, (m (init r) == weight r)%Q.
Hypothesis m_upd : forall g r, (m (upd g r) == m g + weight r)%Q.

Lemma sumQ_app (xs ys : list Q) : (sumQ (xs ++ ys) == sumQ xs + sumQ ys)%Q.
Proof.
  unfold sumQ. induction xs as [|x xs IH]; cbn [app fold_right]; [lra|].
  rewrite IH. lra.
Qed.

Lemma group_all_measureQ (docs : list A) :
  Forall (fun g => (m g == sumQ (map weight (members gid key docs g)))%Q)
         (group_all gid key init upd docs).
Proof.
  apply (group_all_forall
           (fun docs g => (m g == sumQ (map weight (members gid key docs g)))%Q)).
  - intros ds r Hn. rewrite members_snoc_same by apply gid_init.
    rewrite members_none by (now rewrite gid_init).
    cbn [app map sumQ fold_right]. rewrite m_init. lra.
  - intros ds g r Hg Hm. rewrite m_upd, Hm.
    rewrite members_snoc_same by (now rewrite gid_upd).
    unfold members at 2. rewrite gid_upd. fold (members gid key ds g).
    rewrite map_app, sumQ_app. cbn [map sumQ fold_right]. lra.
  - intros ds g r Hg Hm. now rewrite members_snoc_other.
Qed.

Lemma group_step_totalQ (r : A) (rows : list G) :
  (sumQ (map m (group_step gid key init upd r rows)) == sumQ (map m rows) + weight r)%Q.
Proof.
  induction rows as [|g rows IH]; cbn [group_step map sumQ fold_right].
  - rewrite m_init. lra.
  - destruct (gid g ==? key r); cbn [map sumQ fold_right].
    + rewrite m_upd. fold (sumQ (map m rows)). lra.
    + fold (sumQ (map m (group_step gid key init upd r rows))). rewrite IH.
      fold (sumQ (map m rows)). lra.
Qed.

Lemma group_all_totalQ (docs : list A) :
  (sumQ (map m (group_all gid key init upd docs)) == sumQ (map weight docs))%Q.
Proof.
  induction docs as [|r docs IH] using rev_ind; [reflexivity|].
  rewrite group_all_snoc, group_step_totalQ, IH, map_app, sumQ_app.
  cbn [map sumQ fold_right]. lra.
Qed.

End RationalMeasure.

End GroupByFacts.

Lemma sum_sumQ (xs : list Q) : (sum xs == sumQ xs)%Q.
Proof.
  unfold sum, sumQ.
  assert (H : forall a, (fold_left Qplus xs a == a + fold_right Qplus 0 xs)%Q).
  { induction xs as [|x xs IH]; intros a; cbn [fold_left fold_right]; [lra|].
    rewrite IH. lra. }
  rewrite H. lra.
Qed.

(** * Further properties of customer analytics *)

Lemma group_customer_scheme (r : SalesRecord) (rows : list CustomerGroup) :
  group_customer r rows
  = group_step cg_id customer_id customer_row customer_row_add r rows.
Proof.
  induction rows as [|g rows IH]; cbn [group_customer group_step]; [reflexivity|].
  destruct (cg_id g ==? customer_id r); [reflexivity|]. now rewrite IH.
Qed.

Lemma customer_pipeline_scheme (docs : list SalesRecord) :
  customer_pipeline docs = group_all cg_id customer_id customer_row customer_row_add docs.
Proof.
  unfold customer_pipeline, group_all. generalize (@nil CustomerGroup).
  induction docs as [|r docs IH]; intros acc; cbn [fold_left]; [reflexivity|].
  now rewrite group_customer_scheme, IH.
Qed.

Lemma sumZ_ones {A} (xs : list A) : sumZ (map (fun _ => 1) xs) = len xs.
Proof.
  unfold len. induction xs as [|x xs IH]; [reflexivity|].
  cbn [map sumZ fold_right List.length]. fold (sumZ (map (fun _ : A => 1) xs)).
  rewrite IH. lia.
Qed.

Lemma leb_refl (a : string) : String.leb a a = true.
Proof. now destruct (String.leb_total a a). Qed.

Lemma string_min_le_l (a b : string) : String.leb (string_min a b) a = true.
Proof.
  unfold string_min. destruct (String.leb a b) eqn:E; [apply leb_refl|].
  destruct (String.leb_total a b); congruence.
Qed.

Lemma string_min_le_r (a b : string) : String.leb (string_min a b) b = true.
Proof. unfold string_min. destruct (String.leb a b) eqn:E; [exact E|apply leb_refl]. Qed.

Lemma string_max_ge_l (a b : string) : String.leb a (string_max a b) = true.
Proof. unfold string_max. destruct (String.leb a b) eqn:E; [exact E|apply leb_refl]. Qed.

Lemma string_max_ge_r (a b : string) : String.leb b (string_max a b) = true.
Proof.
  unfold string_max. destruct (String.leb a b) eqn:E; [apply leb_refl|].
  destruct (String.leb_total a b); congruence.
Qed.

Lemma customer_rows_span_dates (docs : list SalesRecord) :
  Forall (fun g =>
            Forall (fun r => String.leb (cg_first_purchase g) (date r) = true
                             /\ String.leb (date r) (cg_last_purchase g) = true)
                   (members cg_id customer_id docs g))
         (customer_pipeline docs).
Proof.
  rewrite customer_pipeline_scheme.
  apply (group_all_forall cg_id customer_id customer_row customer_row_add
           (fun r => eq_refl) (fun g r => eq_refl)
           (fun docs g =>
              Forall (fun r => String.leb (cg_first_purchase g) (date r) = true
                               /\ String.leb (date r) (cg_last_purchase g) = true)
                     (members cg_id customer_id docs g))).
  - intros ds r Hn. rewrite members_snoc_same by reflexivity.
    rewrite members_none by exact Hn. cbn [app].
    constructor; [|constructor]. split; apply leb_refl.
  - intros ds g r Hg Hm. rewrite members_snoc_same by exact Hg.
    unfold members. cbn [cg_id customer_row_add]. fold (members cg_id customer_id ds g).
    apply Forall_app. split.
    + eapply Forall_impl; [|exact Hm]. cbn [cg_first_purchase cg_last_purchase].
      intros x [H1 H2]. split.
      * eapply leb_trans; [apply string_min_le_l|exact H1].
      * eapply leb_trans; [exact H2|apply string_max_ge_l].
    + constructor; [|constructor]. cbn [cg_first_purchase cg_last_purchase].
      split; [apply string_min_le_r|apply string_max_ge_r].
  - intros ds g r Hg Hm. now rewrite members_snoc_other.
Qed.

(** X6: the customer rows partition the documents: there is exactly one
    row per customer id that occurs; the transaction count of a row is the
    number of documents of its customer and its revenue is their summed
    amount; every date of the customer lies between the row's first and last
    purchase; summed over the rows, the counts give the number of documents
    and the revenues the total revenue. *)
Theorem customer_rows_partition_the_documents (docs : list SalesRecord) :
  let rows := customer_pipeline docs in
  NoDup (map cg_id rows)
  /\ (forall k, In k (map cg_id rows) <-> In k (map customer_id docs))
  /\ Forall (fun g =>
               let mine := members cg_id customer_id docs g in
               cg_transaction_count g = len mine
               /\ (cg_total_revenue g == sum (map total_amount mine))%Q
               /\ Forall (fun r => String.leb (cg_first_purchase g) (date r) = true
                                   /\ String.leb (date r) (cg_last_purchase g) = true)
                         mine)
            rows
  /\ sumZ (map cg_transaction_count rows) = len docs
  /\ (sumQ (map cg_total_revenue rows) == sum (map total_amount docs))%Q.
Proof.
  intros rows. subst rows.
  pose proof (customer_rows_span_dates docs) as Hdates.
  rewrite customer_pipeline_scheme in *.
  pose proof (group_all_keys cg_id customer_id customer_row customer_row_add
                (fun r => eq_refl) (fun g r => eq_refl) docs) as [Hnd Hk].
  pose proof (group_all_measure cg_id customer_id customer_row customer_row_add
                (fun r => eq_refl) (fun g r => eq_refl)
                cg_transaction_count (fun _ => 1)
                (fun r => eq_refl) (fun g r => eq_refl) docs) as Hcount.
  pose proof (group_all_measureQ cg_id customer_id customer_row customer_row_add
                (fun r => eq_refl) (fun g r => eq_refl)
                cg_total_revenue total_amount
                (fun r => Qeq_refl _) (fun g r => Qeq_refl _) docs) as Hrev.
  split; [exact Hnd|]. split; [exact Hk|]. split; [|split].
  - rewrite Forall_forall in *. intros g Hg.
    specialize (Hcount g Hg). specialize (Hrev g Hg). specialize (Hdates g Hg).
    cbv beta in Hcount, Hrev. cbv zeta.
    split; [now rewrite Hcount, sumZ_ones|]. split; [|exact Hdates].
    now rewrite Hrev, sum_sumQ.
  - rewrite (group_all_total cg_id customer_id customer_row customer_row_add
               cg_transaction_count (fun _ => 1)
               (fun r => eq_refl) (fun g r => eq_refl) docs).
    apply sumZ_ones.
  - rewrite (group_all_totalQ cg_id customer_id customer_row customer_row_add
               cg_total_revenue total_amount
               (fun r => Qeq_refl _) (fun g r => Qeq_refl _) docs).
    now rewrite sum_sumQ.
Qed.

Lemma customer_rows_partition_the_documents_seasonal :
  let rows := customer_pipeline (sales Reference.seasonal_store) in
  map cg_id rows = ["CUST0001"%string]
  /\ sumZ (map cg_transaction_count rows) = 21
  /\ (sumQ (map cg_total_revenue rows) == 814)%Q.
Proof.
  pose proof (customer_rows_partition_the_documents (sales Reference.seasonal_store))
    as (_ & _ & _ & Hcount & Hrevenue).
  split; [vm_compute; reflexivity|].
  split; [rewrite Hcount; reflexivity|].
  rewrite Hrevenue. vm_compute. reflexivity.
Defined.

(** ** Ranking *)

Lemma insert_desc_perm {A} (key : A -> Q) (x : A) (xs : list A) :
  Permutation (insert_desc key x xs) (x :: xs).
Proof.
  induction xs as [|y ys IH]; cbn [insert_desc]; [reflexivity|].
  destruct (Qgtb (key y) (key x)); [|reflexivity].
  rewrite IH. apply perm_swap.
Qed.

Lemma sorted_desc_perm {A} (key : A -> Q) (xs : list A) :
  Permutation (sorted_desc key xs) xs.
Proof.
  unfold sorted_desc. induction xs as [|x xs IH]; cbn [fold_right]; [reflexivity|].
  rewrite insert_desc_perm. now constructor.
Qed.

Lemma insert_desc_descending {A} (key : A -> Q) (x : A) (xs : list A) :
  descending key xs -> descending key (insert_desc key x xs).
Proof.
  unfold descending. induction 1 as [|y ys Hs IH Hy]; cbn [insert_desc].
  - repeat constructor.
  - destruct (Qgtb (key y) (key x)) eqn:E.
    + apply Qgtb_true in E. constructor; [exact IH|].
      eapply Permutation_Forall; [symmetry; apply insert_desc_perm|].
      constructor; [lra|exact Hy].
    + apply Qgtb_false in E. constructor; [now constructor|].
      constructor; [exact E|].
      eapply Forall_impl; [|exact Hy]. cbv beta. intros z Hz. lra.
Qed.

Lemma sorted_desc_descending {A} (key : A -> Q) (xs : list A) :
  descending key (sorted_desc key xs).
Proof.
  unfold sorted_desc. induction xs as [|x xs IH]; cbn [fold_right].
  - constructor.
  - now apply insert_desc_descending.
Qed.

Lemma descending_split {A} (key : A -> Q) (l1 l2 : list A) :
  descending key (l1 ++ l2) ->
  forall a b, In a l1 -> In b l2 -> (key b <= key a)%Q.
Proof.
  unfold descending. induction l1 as [|x l1 IH]; cbn [app]; intros H a b Ha Hb.
  - destruct Ha.
  - inversion H as [|? ? Hs Hx]; subst. destruct Ha as [<-|Ha].
    + rewrite Forall_forall in Hx. apply Hx. apply in_or_app. now right.
    + now apply (IH Hs).
Qed.

Lemma round_half_even_monotone (x y : Q) :
  (x <= y)%Q -> round_half_even x <= round_half_even y.
Proof.
  intros Hxy.
  pose proof (Qfloor_resp_le _ _ Hxy) as Hf.
  destruct (Z.eq_dec (Qfloor x) (Qfloor y)) as [E|E].
  - unfold round_half_even. rewrite E.
    destruct (Qcompare_spec (x - inject_Z (Qfloor y)) (1 # 2)) as [H1|H1|H1];
      destruct (Qcompare_spec (y - inject_Z (Qfloor y)) (1 # 2)) as [H2|H2|H2];
      try destruct (Z.even (Qfloor y)); try lia; lra.
  - assert (Hx : round_half_even x <= Qfloor x + 1).
    { unfold round_half_even. destruct (Qcompare _ _); [destruct (Z.even _)| |]; lia. }
    assert (Hy : Qfloor y <= round_half_even y).
    { unfold round_half_even. destruct (Qcompare _ _); [destruct (Z.even _)| |]; lia. }
    lia.
Qed.

Lemma round2_monotone (x y : Q) : (x <= y)%Q -> (round x 2 <= round y 2)%Q.
Proof.
  intros Hxy. unfold round, Qdiv.
  change (/ inject_Z (10 ^ Z.of_nat 2))%Q with (1 # 100)%Q.
  change (inject_Z (10 ^ Z.of_nat 2)) with 100%Q.
  assert (H : round_half_even (x * 100) <= round_half_even (y * 100))
    by (apply round_half_even_monotone; lra).
  rewrite Zle_Qle in H. lra.
Qed.

Lemma descending_firstn {A} (key : A -> Q) (n : nat) (xs : list A) :
  descending key xs -> descending key (firstn n xs).
Proof. apply sorted_firstn. Qed.

Lemma descending_map {A B} (f : A -> B) (keyA : A -> Q) (keyB : B -> Q) (xs : list A) :
  (forall a b, (keyA b <= keyA a)%Q -> (keyB (f b) <= keyB (f a))%Q) ->
  descending keyA xs -> descending keyB (map f xs).
Proof.
  intros Hf. unfold descending. induction 1 as [|x xs Hs IH Hx]; cbn [map]; constructor.
  - exact IH.
  - apply Forall_map. eapply Forall_impl; [|exact Hx]. intros a Ha. now apply Hf.
Qed.

(** X7: customer analytics lists at most 10 top customers; they are the
    first 10 of a ranking of all customer rows by revenue, highest first,
    so no customer left out has a higher revenue than a listed one, and the
    listed 2-decimal revenues are in descending order. *)
Theorem top_customers_are_the_highest (P : Platform) (w : world) :
  exists r ranked,
    fst (get_customer_analytics P w) = Ok r
    /\ Permutation ranked (customer_pipeline (sales w))
    /\ descending cg_total_revenue ranked
    /\ Forall2 shows_customer (top_customers r) (firstn 10 ranked)
    /\ (List.length (top_customers r) <= 10)%nat
    /\ (forall a b, In a (firstn 10 ranked) -> In b (skipn 10 ranked) ->
                    (cg_total_revenue b <= cg_total_revenue a)%Q)
    /\ descending tc_revenue (top_customers r).
Proof.
  unfold get_customer_analytics, try_except, customer_analytics_body.
  unfold aggregate_customers, log_op, get.
  unfold bind at 1 2 3. cbn [ret sales logged].
  set (customer_data := customer_pipeline (sales w)).
  rewrite (bind_ok _ _ _ _ _ (retention_rate_of_eq _ _ _)).
  set (ranked := sorted_desc cg_total_revenue customer_data).
  eexists. exists ranked. cbn [fst].
  pose proof (sorted_desc_descending cg_total_revenue customer_data) as Hdesc.
  fold ranked in Hdesc.
  split; [reflexivity|]. cbn [top_customers].
  split; [apply sorted_desc_perm|]. split; [exact Hdesc|].
  split; [|split; [|split]].
  - generalize (firstn 10 ranked). intros l.
    induction l as [|g l IH]; cbn [map]; constructor; [|exact IH].
    repeat split.
  - rewrite length_map. apply firstn_le_length.
  - apply descending_split. now rewrite firstn_skipn.
  - apply (descending_map _ cg_total_revenue).
    + intros a b Hab. cbn [tc_revenue]. now apply round2_monotone.
    + now apply descending_firstn.
Qed.

Lemma top_customers_are_the_highest_seasonal :
  exists r,
    fst (get_customer_analytics Reference.platform Reference.seasonal_store) = Ok r
    /\ List.length (top_customers r) = 1%nat
    /\ descending tc_revenue (top_customers r).
Proof.
  destruct (top_customers_are_the_highest Reference.platform Reference.seasonal_store)
    as (r & ranked & Hr & Hperm & _ & Hshow & _ & _ & Hdesc).
  exists r. split; [exact Hr|]. split; [|exact Hdesc].
  rewrite (Forall2_length Hshow), length_firstn, (Permutation_length Hperm).
  reflexivity.
Defined.

(** ** The segment breakdown *)

Lemma add_segment_scheme (c : CustomerGroup) (stats : list (string * SegmentStat)) :
  add_segment (cg_segment c) (cg_total_revenue c) stats
  = group_step fst cg_segment segment_row segment_row_add c stats.
Proof.
  induction stats as [|[k s] stats IH]; cbn [add_segment group_step fst]; [reflexivity|].
  destruct (k ==? cg_segment c); [reflexivity|]. now rewrite IH.
Qed.

Lemma segment_stats_scheme (customer_data : list CustomerGroup) :
  fold_left (fun stats customer =>
               add_segment (cg_segment customer) (cg_total_revenue customer) stats)
            customer_data []
  = group_all fst cg_segment segment_row segment_row_add customer_data.
Proof.
  unfold group_all. generalize (@nil (string * SegmentStat)).
  induction customer_data as [|c cs IH]; intros acc; cbn [fold_left]; [reflexivity|].
  now rewrite add_segment_scheme, IH.
Qed.

Lemma round_half_even_comp (x y : Q) : (x == y)%Q -> round_half_even x = round_half_even y.
Proof.
  intros E. apply Z.le_antisymm; apply round_half_even_monotone; rewrite E; apply Qle_refl.
Qed.

Lemma round2_comp (x y : Q) : (x == y)%Q -> round x 2 = round y 2.
Proof.
  intros E. unfold round.
  rewrite (round_half_even_comp (x * inject_Z (10 ^ Z.of_nat 2))
                                (y * inject_Z (10 ^ Z.of_nat 2))); [reflexivity|].
  now rewrite E.
Qed.

(** X8: the segment breakdown has one entry per segment that occurs among
    the customer rows; the count of an entry is the number of customers of
    that segment (customers, not transactions) and its revenue the
    2-decimal rounding of their summed revenue; the counts add up to
    [total_customers]. *)
Theorem segment_breakdown_counts_customers (P : Platform) (w : world) :
  exists r,
    fst (get_customer_analytics P w) = Ok r
    /\ let customer_data := customer_pipeline (sales w) in
       NoDup (map fst (segment_breakdown r))
       /\ (forall k, In k (map fst (segment_breakdown r))
                     <-> In k (map cg_segment customer_data))
       /\ Forall (fun kv =>
                    let mine := filter (fun c => cg_segment c ==? fst kv) customer_data in
                    seg_count (snd kv) = len mine
                    /\ seg_revenue (snd kv) = round (sumQ (map cg_total_revenue mine)) 2)
                 (segment_breakdown r)
       /\ sumZ (map (fun kv => seg_count (snd kv)) (segment_breakdown r))
          = total_customers r.
Proof.
  unfold get_customer_analytics, try_except, customer_analytics_body.
  unfold aggregate_customers, log_op, get.
  unfold bind at 1 2 3. cbn [ret sales logged].
  set (customer_data := customer_pipeline (sales w)).
  rewrite (bind_ok _ _ _ _ _ (retention_rate_of_eq _ _ _)).
  eexists. cbn [fst]. split; [reflexivity|].
  cbn [segment_breakdown total_customers]. rewrite segment_stats_scheme.
  set (stats := group_all fst cg_segment segment_row segment_row_add customer_data).
  pose proof (group_all_keys fst cg_segment segment_row segment_row_add
                (fun c => eq_refl) (fun g c => eq_refl) customer_data) as [Hnd Hk].
  pose proof (group_all_measure fst cg_segment segment_row segment_row_add
                (fun c => eq_refl) (fun g c => eq_refl)
                (fun kv => seg_count (snd kv)) (fun _ => 1)
                (fun c => eq_refl) (fun g c => eq_refl) customer_data) as Hcount.
  pose proof (group_all_measureQ fst cg_segment segment_row segment_row_add
                (fun c => eq_refl) (fun g c => eq_refl)
                (fun kv => seg_revenue (snd kv)) cg_total_revenue
                (fun c => Qplus_0_l _) (fun g c => Qeq_refl _) customer_data) as Hrev.
  fold stats in Hnd, Hk, Hcount, Hrev.
  rewrite !map_map. cbn [fst snd seg_count].
  split; [exact Hnd|]. split; [exact Hk|]. split.
  - apply Forall_map. rewrite Forall_forall in *. intros kv Hkv.
    specialize (Hcount kv Hkv). specialize (Hrev kv Hkv).
    cbv beta in Hcount, Hrev. cbn [fst snd seg_count seg_revenue].
    unfold members in Hcount, Hrev.
    split; [now rewrite Hcount, sumZ_ones|]. now apply round2_comp.
  - unfold stats.
    rewrite (group_all_total fst cg_segment segment_row segment_row_add
               (fun kv => seg_count (snd kv)) (fun _ => 1)
               (fun c => eq_refl) (fun g c => eq_refl) customer_data).
    apply sumZ_ones.
Qed.

Lemma segment_breakdown_counts_customers_seasonal :
  exists r,
    fst (get_customer_analytics Reference.platform Reference.seasonal_store) = Ok r
    /\ total_customers r = 1
    /\ sumZ (map (fun kv => seg_count (snd kv)) (segment_breakdown r)) = 1.
Proof.
  destruct (segment_breakdown_counts_customers Reference.platform Reference.seasonal_store)
    as (r & Hr & _ & _ & _ & Hsum).
  exists r. split; [exact Hr|].
  assert (Ht : total_customers r = 1).
  { vm_compute in Hr. injection Hr as <-. reflexivity. }
  split; [exact Ht|]. now rewrite Hsum.
Defined.

(** * Further properties of seasonal trends *)

Lemma sorted_skipn {A} (R : A -> A -> Prop) (n : nat) (l : list A) :
  StronglySorted R l -> StronglySorted R (skipn n l).
Proof.
  revert l. induction n as [|n IH]; intros l H; cbn [skipn]; [exact H|].
  destruct l as [|a l]; [constructor|]. apply IH. now inversion H.
Qed.

Lemma seasonal_trends_inv (P : Platform) (w w' : world) (r : SeasonalTrends) :
  get_seasonal_trends P w = (Ok r, w') ->
  exists monthly_data w1 patterns w2 peaks,
    aggregate_monthly P w = (Ok monthly_data, w1)
    /\ for_each monthly_data
         (fun seasonal_patterns item =>
            month_num <- month_num_of item ;;
            ret (add_quarter (quarter_of month_num) (m_revenue item) (m_transactions item)
                             seasonal_patterns)) [] w1 = (Ok patterns, w2)
    /\ find_peak_periods monthly_data w2 = (Ok peaks, w')
    /\ monthly_trends r
       = {| labels := map m_id (last_n 12 monthly_data);
            trend_revenue := map (fun item => round (m_revenue item) 2)
                                 (last_n 12 monthly_data);
            trend_transactions := map m_transactions (last_n 12 monthly_data) |}
    /\ seasonal_patterns r
       = map (fun kv => (fst kv, {| q_revenue := round (q_revenue (snd kv)) 2;
                                    q_transactions := q_transactions (snd kv) |}))
             patterns
    /\ peak_periods r = firstn 6 peaks.
Proof.
  unfold get_seasonal_trends, try_except.
  destruct (seasonal_trends_body P w) as [[r0|e] w0] eqn:Hbody; [|discriminate].
  intros H. injection H as -> ->.
  unfold seasonal_trends_body in Hbody.
  inv_bind Hbody. inv_bind Hbody. inv_bind Hbody.
  unfold ret in Hbody. set (top := firstn 6 a1) in Hbody.
  injection Hbody as <- <-.
  exists a, s, a0, s0, a1. repeat split; assumption.
Qed.

(** X9: the monthly trend view of a returned seasonal result holds the
    last 12 months of the series, or all of them when there are fewer: its
    three lists have the same length, at most 12, the labels are in
    ascending month order, and revenue and transaction count at a position
    belong to the label at that position. *)
Theorem monthly_trends_last_twelve (P : Platform) (w w' : world) (r : SeasonalTrends) :
  get_seasonal_trends P w = (Ok r, w') ->
  exists monthly_data,
    fst (aggregate_monthly P w) = Ok monthly_data
    /\ let shown := last_n 12 monthly_data in
       labels (monthly_trends r) = map m_id shown
       /\ trend_revenue (monthly_trends r) = map (fun item => round (m_revenue item) 2) shown
       /\ trend_transactions (monthly_trends r) = map m_transactions shown
       /\ List.length (labels (monthly_trends r)) = Nat.min 12 (List.length monthly_data)
       /\ List.length (trend_revenue (monthly_trends r))
          = List.length (labels (monthly_trends r))
       /\ List.length (trend_transactions (monthly_trends r))
          = List.length (labels (monthly_trends r))
       /\ StronglySorted string_lt (labels (monthly_trends r))
       /\ (forall older, In older (firstn (List.length monthly_data - 12) monthly_data) ->
                         Forall (fun shown_id => string_lt (m_id older) shown_id)
                                (labels (monthly_trends r))).
Proof.
  intros H.
  destruct (seasonal_trends_inv P w w' r H)
    as (md & w1 & patterns & w2 & peaks & Hagg & _ & _ & Ht & _ & _).
  exists md. rewrite Hagg, Ht. cbn [fst labels trend_revenue trend_transactions].
  pose proof (aggregate_monthly_ascending P _ _ _ Hagg) as Hasc.
  split; [reflexivity|]. cbv zeta.
  repeat (split; [reflexivity|]).
  rewrite !length_map. unfold last_n. rewrite length_skipn.
  split; [lia|]. split; [reflexivity|]. split; [reflexivity|]. split.
  - apply sorted_map. apply sorted_skipn. now apply sorted_map.
  - intros older Hin. apply Forall_map.
    apply (proj1 (sorted_map string_lt m_id md)) in Hasc.
    rewrite <- (firstn_skipn (List.length md - 12) md) in Hasc.
    rewrite Forall_forall. intros x Hx.
    revert Hasc Hin Hx. generalize (firstn (List.length md - 12) md).
    generalize (skipn (List.length md - 12) md). intros l2 l1.
    induction l1 as [|a l1 IH]; cbn [app]; intros Hs Hin Hx; [destruct Hin|].
    inversion Hs as [|? ? Hs' Ha]; subst. destruct Hin as [<-|Hin].
    + rewrite Forall_forall in Ha. apply Ha. apply in_or_app. now right.
    + now apply IH.
Qed.

Lemma monthly_trends_last_twelve_2023 :
  match fst (get_seasonal_trends Reference.platform Reference.seasonal_store) with
  | Ok r =>
      labels (monthly_trends r)
      = ["2023-10"; "2023-11"; "2023-12"; "2024-01"; "2024-02"; "2024-03";
         "2024-04"; "2024-05"; "2024-06"; "2024-07"; "2024-08"; "2024-09"]%string
      /\ exists monthly_data,
          fst (aggregate_monthly Reference.platform Reference.seasonal_store)
          = Ok monthly_data
          /\ let shown := last_n 12 monthly_data in
             labels (monthly_trends r) = map m_id shown
             /\ trend_revenue (monthly_trends r)
                = map (fun item => round (m_revenue item) 2) shown
             /\ trend_transactions (monthly_trends r) = map m_transactions shown
             /\ List.length (labels (monthly_trends r))
                = Nat.min 12 (List.length monthly_data)
             /\ List.length (trend_revenue (monthly_trends r))
                = List.length (labels (monthly_trends r))
             /\ List.length (trend_transactions (monthly_trends r))
                = List.length (labels (monthly_trends r))
             /\ StronglySorted string_lt (labels (monthly_trends r))
             /\ (forall older,
                    In older (firstn (List.length monthly_data - 12) monthly_data) ->
                    Forall (fun shown_id => string_lt (m_id older) shown_id)
                           (labels (monthly_trends r)))
  | Raise _ => False
  end.
Proof.
  destruct (get_seasonal_trends Reference.platform Reference.seasonal_store)
    as [[r|x] w'] eqn:H; cbn [fst].
  - split.
    + vm_compute in H. injection H as <- _. reflexivity.
    + exact (monthly_trends_last_twelve
               Reference.platform Reference.seasonal_store w' r H).
  - vm_compute in H. discriminate.
Defined.

(** ** The quarter roll-up *)

Lemma insert_month_perm (x : MonthRow) (rows : list MonthRow) :
  Permutation (insert_month x rows) (x :: rows).
Proof.
  induction rows as [|y rows IH]; cbn [insert_month]; [reflexivity|].
  destruct (String.leb (m_id x) (m_id y)); [reflexivity|].
  rewrite IH. apply perm_swap.
Qed.

Lemma sort_months_perm (rows : list MonthRow) : Permutation (sort_months rows) rows.
Proof.
  unfold sort_months. induction rows as [|x rows IH]; cbn [fold_right]; [reflexivity|].
  rewrite insert_month_perm. now constructor.
Qed.

Lemma sumZ_perm (xs ys : list Z) : Permutation xs ys -> sumZ xs = sumZ ys.
Proof.
  unfold sumZ. induction 1; cbn [fold_right]; lia.
Qed.

Lemma group_month_transactions (key : string) (amount : Q) (rows : list MonthRow) :
  sumZ (map m_transactions (group_month key amount rows))
  = sumZ (map m_transactions rows) + 1.
Proof.
  unfold sumZ.
  induction rows as [|g rows IH]; cbn [group_month map fold_right m_transactions]; [lia|].
  destruct (m_id g ==? key); cbn [map fold_right m_transactions]; lia.
Qed.

Lemma monthly_groups_transactions (P : Platform) (docs : list SalesRecord) :
  forall (acc rows : list MonthRow) (w w' : world),
    for_each docs
      (fun rows r =>
         key <- or_raise OperationFailure (month_year P (date r)) ;;
         ret (group_month key (total_amount r) rows)) acc w = (Ok rows, w') ->
    sumZ (map m_transactions rows) = sumZ (map m_transactions acc) + len docs.
Proof.
  unfold len.
  induction docs as [|r docs IH]; intros acc rows w w' H; cbn [for_each] in H.
  - injection H as <- _. cbn [List.length]. lia.
  - inv_bind H. inv_bind Hc. injection Hc as <- _.
    apply IH in H. rewrite H, group_month_transactions. cbn [List.length]. lia.
Qed.

Lemma aggregate_monthly_transactions (P : Platform) (w w' : world) (md : list MonthRow) :
  aggregate_monthly P w = (Ok md, w') ->
  sumZ (map m_transactions md) = len (sales w).
Proof.
  unfold aggregate_monthly, log_op, get. unfold bind at 1 2. cbn [sales logged].
  intros H. inv_bind H. injection H as <- _.
  unfold monthly_groups in Hc. apply monthly_groups_transactions in Hc.
  rewrite (sumZ_perm _ _ (Permutation_map m_transactions (sort_months_perm a))).
  rewrite Hc. reflexivity.
Qed.

Lemma add_quarter_keys (quarter : string) (revenue : Q) (transactions : Z)
      (stats : list (string * QuarterStat)) :
  (In quarter (map fst stats)
   /\ map fst (add_quarter quarter revenue transactions stats) = map fst stats)
  \/ (~ In quarter (map fst stats)
      /\ map fst (add_quarter quarter revenue transactions stats)
         = map fst stats ++ [quarter]).
Proof.
  induction stats as [|[k s] stats IH]; cbn [add_quarter map fst].
  - right. split; [intros []|reflexivity].
  - destruct (k ==? quarter) eqn:E.
    + left. apply String.eqb_eq in E. split; [now left|reflexivity].
    + apply String.eqb_neq in E. destruct IH as [[Hin Heq]|[Hnin Heq]].
      * left. split; [now right|]. cbn [map fst]. now rewrite Heq.
      * right. split; [intros [H|H]; contradiction|]. cbn [map fst app]. now rewrite Heq.
Qed.

Lemma add_quarter_transactions (quarter : string) (revenue : Q) (transactions : Z)
      (stats : list (string * QuarterStat)) :
  sumZ (map (fun kv => q_transactions (snd kv))
            (add_quarter quarter revenue transactions stats))
  = sumZ (map (fun kv => q_transactions (snd kv)) stats) + transactions.
Proof.
  unfold sumZ.
  induction stats as [|[k s] stats IH]; cbn [add_quarter map fold_right snd q_transactions];
    [lia|].
  destruct (k ==? quarter); cbn [map fold_right snd q_transactions]; lia.
Qed.

Lemma quarter_of_label (month_num : Z) : In (quarter_of month_num) quarters.
Proof.
  unfold quarter_of, quarters.
  destruct (Zmem month_num [1; 2; 3]); [now left|].
  destruct (Zmem month_num [4; 5; 6]); [right; now left|].
  destruct (Zmem month_num [7; 8; 9]); [right; right; now left|].
  right; right; right; now left.
Qed.

Lemma quarter_loop (items : list MonthRow) :
  forall (acc patterns : list (string * QuarterStat)) (w w' : world),
    for_each items
      (fun seasonal_patterns item =>
         month_num <- month_num_of item ;;
         ret (add_quarter (quarter_of month_num) (m_revenue item) (m_transactions item)
                          seasonal_patterns)) acc w = (Ok patterns, w') ->
    NoDup (map fst acc) -> incl (map fst acc) quarters ->
    NoDup (map fst patterns) /\ incl (map fst patterns) quarters
    /\ sumZ (map (fun kv => q_transactions (snd kv)) patterns)
       = sumZ (map (fun kv => q_transactions (snd kv)) acc)
         + sumZ (map m_transactions items).
Proof.
  induction items as [|item items IH]; intros acc patterns w w' H Hnd Hincl;
    cbn [for_each] in H.
  - injection H as <- _. cbn [map sumZ fold_right]. repeat split; [assumption..|lia].
  - inv_bind H. inv_bind Hc. injection Hc as <- _.
    apply IH in H.
    + destruct H as (H1 & H2 & H3). split; [exact H1|]. split; [exact H2|].
      rewrite H3, add_quarter_transactions. cbn [map sumZ fold_right].
      fold (sumZ (map m_transactions items)). lia.
    + destruct (add_quarter_keys (quarter_of a0) (m_revenue item) (m_transactions item) acc)
        as [[_ ->]|[Hn ->]]; [exact Hnd|].
      eapply Permutation_NoDup; [apply Permutation_cons_append|]. now constructor.
    + destruct (add_quarter_keys (quarter_of a0) (m_revenue item) (m_transactions item) acc)
        as [[_ ->]|[Hn ->]]; [exact Hincl|].
      apply incl_app; [exact Hincl|].
      intros k [<-|[]]. apply quarter_of_label.
Qed.

(** X10: the quarter roll-up of a returned seasonal result has at most
    the four labels Q1 to Q4, each at most once, and covers every month of
    the series, not only the last 12: the transaction counts of the quarters
    add up to the number of documents in the store. *)
Theorem quarters_cover_every_document (P : Platform) (w w' : world) (r : SeasonalTrends) :
  get_seasonal_trends P w = (Ok r, w') ->
  NoDup (map fst (seasonal_patterns r))
  /\ incl (map fst (seasonal_patterns r)) quarters
  /\ (List.length (seasonal_patterns r) <= 4)%nat
  /\ sumZ (map (fun kv => q_transactions (snd kv)) (seasonal_patterns r)) = len (sales w).
Proof.
  intros H.
  destruct (seasonal_trends_inv P w w' r H)
    as (md & w1 & patterns & w2 & peaks & Hagg & Hq & _ & _ & Hp & _).
  apply quarter_loop in Hq; [|constructor|intros k []].
  destruct Hq as (Hnd & Hincl & Hsum).
  apply aggregate_monthly_transactions in Hagg.
  rewrite Hp, !map_map. cbn [fst snd q_transactions].
  assert (Hlen : (List.length (map fst patterns) <= List.length quarters)%nat)
    by (apply NoDup_incl_length; assumption).
  rewrite length_map in *. cbn [quarters List.length] in Hlen.
  repeat split; try assumption.
  rewrite Hsum, Hagg. cbn [map sumZ fold_right]. lia.
Qed.

Lemma quarters_cover_every_document_2023 :
  match fst (get_seasonal_trends Reference.platform Reference.seasonal_store) with
  | Ok r =>
      NoDup (map fst (seasonal_patterns r))
      /\ incl (map fst (seasonal_patterns r)) quarters
      /\ (List.length (seasonal_patterns r) <= 4)%nat
      /\ sumZ (map (fun kv => q_transactions (snd kv)) (seasonal_patterns r))
         = len (sales Reference.seasonal_store)
  | Raise _ => False
  end.
Proof.
  destruct (get_seasonal_trends Reference.platform Reference.seasonal_store)
    as [[r|x] w'] eqn:H; cbn [fst].
  - exact (quarters_cover_every_document
             Reference.platform Reference.seasonal_store w' r H).
  - vm_compute in H. discriminate.
Defined.

(** ** Peak detection on positive revenues *)







(** * Product analytics *)

Section GroupMembers.

Context {A G : Type} (gid : G -> string) (key : A -> string)
        (init : A -> G) (upd : G -> A -> G).
Hypothesis gid_init : forall r, gid (init r) = key r.
Hypothesis gid_upd : forall g r, gid (upd g r) = gid g.


End GroupMembers.



Lemma group_category_scheme (r : SalesRecord) (rows : list CategoryGroup) :
  group_category r rows
  = group_step cat_id product_category category_row category_row_add r rows.
Proof.
  induction rows as [|g rows IH]; cbn [group_category group_step]; [reflexivity|].
  destruct (cat_id g ==? product_category r); [reflexivity|]. now rewrite IH.
Qed.

Lemma category_groups_scheme (docs : list SalesRecord) :
  fold_left (fun rows r => group_category r rows) docs []
  = group_all cat_id product_category category_row category_row_add docs.
Proof.
  unfold group_all. generalize (@nil CategoryGroup).
  induction docs as [|r docs IH]; intros acc; cbn [fold_left]; [reflexivity|].
  now rewrite group_category_scheme, IH.
Qed.

Lemma product_analytics_eq (P : Platform) (w : world) :
  get_product_analytics P w =
  (let w1 := logged (OpAggregate "categories") (logged (OpAggregate "products") w) in
   let g1 := Random.randint 3 8 (rng w) in
   let g2 := Random.randint 5 12 (snd g1) in
   let g3 := Random.randint 2 6 (snd g2) in
   (Ok {| top_products :=
            map (fun product =>
                   {| tp_id := pg_id product;
                      tp_name := pg_name product;
                      tp_category := pg_category product;
                      tp_revenue := round (pg_total_revenue product) 2;
                      tp_units_sold := pg_units_sold product;
                      tp_avg_price := round (pg_avg_price product) 2 |})
                (firstn 10 (product_pipeline (sales w)));
          category_performance :=
            dict_of cat_id
                    (fun cat => {| cs_revenue := round (cat_revenue cat) 2;
                                   cs_units_sold := cat_units_sold cat;
                                   cs_transactions := cat_transaction_count cat |})
                    (category_pipeline (sales w));
          inventory_insights :=
            {| low_stock_alert := fst g1;
               fast_moving_items := fst g2;
               slow_moving_items := fst g3 |} |},
    with_rng (snd g3) w1)).
Proof.
  unfold get_product_analytics, try_except, product_analytics_body.
  unfold aggregate_products, aggregate_categories, log_op, get.
  unfold bind at 1 2 3. cbn [ret sales logged].
  unfold bind at 1 2 3. cbn [ret sales logged].
  rewrite (bind_ok _ _ _ _ _ (random_randint_eq _ _ _)).
  rewrite (bind_ok _ _ _ _ _ (random_randint_eq _ _ _)).
  rewrite (bind_ok _ _ _ _ _ (random_randint_eq _ _ _)).
  reflexivity.
Qed.



(** ** Category performance *)

Lemma dict_set_fresh {A} (k : string) (v : A) (d : list (string * A)) :
  ~ In k (map fst d) -> dict_set k v d = d ++ [(k, v)].
Proof.
  induction d as [|[k' v'] d IH]; cbn [dict_set map fst In app]; intros Hn; [reflexivity|].
  destruct (k' ==? k) eqn:E.
  - apply String.eqb_eq in E. exfalso. apply Hn. now left.
  - rewrite IH; [reflexivity|]. intros H. apply Hn. now right.
Qed.

Lemma dict_of_distinct {A B} (key : A -> string) (value : A -> B) (xs : list A) :
  NoDup (map key xs) -> dict_of key value xs = map (fun x => (key x, value x)) xs.
Proof.
  unfold dict_of. intros Hnd.
  induction xs as [|x xs IH] using rev_ind; [reflexivity|].
  rewrite fold_left_app, map_app. cbn [fold_left map].
  rewrite map_app in Hnd. cbn [map] in Hnd.
  rewrite IH by (now apply NoDup_app_remove_r in Hnd).
  apply dict_set_fresh. rewrite map_map. cbn [fst].
  apply NoDup_remove_2 in Hnd. now rewrite app_nil_r in Hnd.
Qed.

(** X13: category performance is the full mapping, one entry per product
    category in the store, in descending order of revenue: the transaction
    counts of the entries add up to the number of documents and the units
    sold to the total quantity; no category is dropped or merged. *)
Theorem category_performance_is_complete (P : Platform) (w : world) :
  exists r,
    fst (get_product_analytics P w) = Ok r
    /\ let rows := category_pipeline (sales w) in
       Forall2 shows_category (category_performance r) rows
       /\ descending cat_revenue rows
       /\ NoDup (map fst (category_performance r))
       /\ (forall k, In k (map fst (category_performance r))
                     <-> In k (map product_category (sales w)))
       /\ sumZ (map (fun kv => cs_transactions (snd kv)) (category_performance r))
          = len (sales w)
       /\ sumZ (map (fun kv => cs_units_sold (snd kv)) (category_performance r))
          = sumZ (map quantity (sales w)).
Proof.
  rewrite product_analytics_eq. cbv zeta. eexists. cbn [fst].
  split; [reflexivity|]. cbn [category_performance].
  unfold category_pipeline. rewrite category_groups_scheme.
  set (groups := group_all cat_id product_category category_row category_row_add (sales w)).
  set (rows := sorted_desc cat_revenue groups).
  pose proof (sorted_desc_perm cat_revenue groups) as Hperm. fold rows in Hperm.
  pose proof (sorted_desc_descending cat_revenue groups) as Hdesc. fold rows in Hdesc.
  pose proof (group_all_keys cat_id product_category category_row category_row_add
                (fun r => eq_refl) (fun g r => eq_refl) (sales w)) as [Hnd Hk].
  fold groups in Hnd, Hk.
  assert (Hnd' : NoDup (map cat_id rows)).
  { eapply Permutation_NoDup; [|exact Hnd]. symmetry. now apply Permutation_map. }
  rewrite (dict_of_distinct _ _ rows Hnd'). rewrite !map_map. cbn [fst snd].
  cbn [cs_transactions cs_units_sold].
  split.
  { generalize rows. intros l.
    induction l as [|g l IH]; cbn [map]; constructor; [|exact IH]. repeat split. }
  split; [exact Hdesc|]. split; [exact Hnd'|]. split.
  { intros k. rewrite <- Hk. split; intros H.
    - eapply Permutation_in; [|exact H]. now apply Permutation_map.
    - eapply Permutation_in; [|exact H]. symmetry. now apply Permutation_map. }
  split.
  - change (sumZ (map cat_transaction_count rows) = len (sales w)).
    rewrite (sumZ_perm _ _ (Permutation_map cat_transaction_count Hperm)). unfold groups.
    rewrite (group_all_total cat_id product_category category_row category_row_add
               cat_transaction_count (fun _ => 1)
               (fun r => eq_refl) (fun g r => eq_refl) (sales w)).
    apply sumZ_ones.
  - change (sumZ (map cat_units_sold rows) = sumZ (map quantity (sales w))).
    rewrite (sumZ_perm _ _ (Permutation_map cat_units_sold Hperm)). unfold groups.
    apply (group_all_total cat_id product_category category_row category_row_add
             cat_units_sold quantity
             (fun r => eq_refl) (fun g r => eq_refl) (sales w)).
Qed.

Lemma category_performance_is_complete_seasonal :
  exists r,
    fst (get_product_analytics Reference.platform Reference.seasonal_store) = Ok r
    /\ map fst (category_performance r) = ["Storage"%string]
    /\ sumZ (map (fun kv => cs_transactions (snd kv)) (category_performance r)) = 21.
Proof.
  destruct (category_performance_is_complete Reference.platform Reference.seasonal_store)
    as (r & Hr & _ & _ & _ & _ & Hcount & _).
  exists r. split; [exact Hr|]. split; [|rewrite Hcount; reflexivity].
  vm_compute in Hr. injection Hr as <-. reflexivity.
Defined.

(** ** Inventory insights *)

(** X14: the inventory figures are three draws of [randint], from 3..8,
    5..12 and 2..6 in this order, taken from the generator whatever the
    store holds: two calls that start from the same generator state report
    the same figures, and a call consumes exactly these three draws. *)
Theorem inventory_insights_ignore_the_data (P : Platform) (w1 w2 : world) :
  rng w1 = rng w2 ->
  exists r1 r2,
    fst (get_product_analytics P w1) = Ok r1
    /\ fst (get_product_analytics P w2) = Ok r2
    /\ inventory_insights r1 = inventory_insights r2
    /\ 3 <= low_stock_alert (inventory_insights r1) <= 8
    /\ 5 <= fast_moving_items (inventory_insights r1) <= 12
    /\ 2 <= slow_moving_items (inventory_insights r1) <= 6
    /\ rng (snd (get_product_analytics P w1))
       = snd (Random.randint 2 6
                (snd (Random.randint 5 12 (snd (Random.randint 3 8 (rng w1)))))).
Proof.
  intros Hg. rewrite !product_analytics_eq. cbv zeta. eexists. eexists.
  cbn [fst snd]. split; [reflexivity|]. split; [reflexivity|].
  cbn [inventory_insights low_stock_alert fast_moving_items slow_moving_items rng with_rng].
  rewrite Hg. split; [reflexivity|].
  repeat split; apply randint_range; lia.
Qed.

Lemma inventory_insights_ignore_the_data_asia :
  exists r1 r2,
    fst (get_product_analytics Reference.platform Reference.asia_only) = Ok r1
    /\ fst (get_product_analytics Reference.platform Reference.seasonal_store) = Ok r2
    /\ inventory_insights r1 = inventory_insights r2
    /\ 3 <= low_stock_alert (inventory_insights r1) <= 8
    /\ 5 <= fast_moving_items (inventory_insights r1) <= 12
    /\ 2 <= slow_moving_items (inventory_insights r1) <= 6
    /\ rng (snd (get_product_analytics Reference.platform Reference.asia_only))
       = snd (Random.randint 2 6
                (snd (Random.randint 5 12
                        (snd (Random.randint 3 8 (rng Reference.asia_only)))))).
Proof.
  apply (inventory_insights_ignore_the_data
           Reference.platform Reference.asia_only Reference.seasonal_store).
  reflexivity.
Defined.

(** * The export *)

Lemma export_outcomes (P : Platform) (Sv : Services) (start_date end_date : option string)
      (format : string) (w : world) :
  let q := {| qf_date := dates_given start_date end_date; qf_region := None |} in
  let sales_data := filter (matches q) (sales w) in
  export_sales_report P Sv start_date end_date format w =
  (if is_empty sales_data
   then Raise (HTTPException 500
                 ("Error exporting sales report: "
                  ++ exn_str P (HTTPException 404 "No sales data found for export")))
   else if ascii_lower format ==? "xlsx"
   then Ok {| workbook := write_sheet sales_data;
              media_type :=
                "application/vnd.openxmlformats-officedocument.spreadsheetml.sheet";
              content_disposition :=
                "attachment; filename=sales_report_" ++ today_stamp Sv ++ ".xlsx" |}
   else Raise (HTTPException 500
                 ("Error exporting sales report: "
                  ++ exn_str P (HTTPException 400 "Unsupported export format. Use 'xlsx'"))),
   logged (OpFind q) w).
Proof.
  intros q sales_data.
  unfold export_sales_report, try_except, export_body. fold q.
  rewrite (bind_ok _ _ _ _ _ (find_eq q w)). fold sales_data.
  destruct (is_empty sales_data); [reflexivity|].
  destruct (ascii_lower format ==? "xlsx"); reflexivity.
Qed.

(** X15: the export never answers with the 404 or the 400 it raises: an
    empty selection and, on a non-empty selection, a format other than xlsx
    (in any letter case) both leave as status 500, the original error text
    folded into the detail; a failure of the export is always a 500. *)
Theorem export_errors_leave_as_500 (P : Platform) (Sv : Services)
        (start_date end_date : option string) (format : string) (w : world) :
  let q := {| qf_date := dates_given start_date end_date; qf_region := None |} in
  let outcome := fst (export_sales_report P Sv start_date end_date format w) in
  (filter (matches q) (sales w) = [] ->
   outcome = Raise (HTTPException 500
                      ("Error exporting sales report: "
                       ++ exn_str P (HTTPException 404 "No sales data found for export"))))
  /\ (filter (matches q) (sales w) <> [] -> ascii_lower format <> "xlsx"%string ->
      outcome = Raise (HTTPException 500
                         ("Error exporting sales report: "
                          ++ exn_str P (HTTPException 400
                                          "Unsupported export format. Use 'xlsx'"))))
  /\ (forall e, outcome = Raise e -> exists detail, e = HTTPException 500 detail)
  /\ is_no_data_error outcome = false
  /\ is_invalid_range_error outcome = false.
Proof.
  intros q outcome. subst outcome. rewrite export_outcomes. fold q. cbn [fst].
  split; [|split; [|split]].
  - intros ->. reflexivity.
  - intros Hne Hf. destruct (filter (matches q) (sales w)); [congruence|].
    cbn [is_empty]. apply String.eqb_neq in Hf. now rewrite Hf.
  - intros e. destruct (is_empty _); [|destruct (_ ==? _)]; intros H;
      try discriminate; injection H as <-; eauto.
  - destruct (is_empty _); [|destruct (_ ==? _)]; split; reflexivity.
Qed.

Lemma export_errors_leave_as_500_csv :
  let q := {| qf_date := None; qf_region := None |} in
  let outcome :=
    fst (export_sales_report Reference.platform
           reference_services
           None None "csv" Reference.asia_only) in
  outcome = Raise (HTTPException 500
                     "Error exporting sales report: 400: Unsupported export format. Use 'xlsx'")
  /\ filter (matches q) (sales Reference.asia_only) <> [].
Proof.
  split.
  - refine (proj1 (proj2 (export_errors_leave_as_500 Reference.platform reference_services
                            None None "csv" Reference.asia_only)) _ _); discriminate.
  - discriminate.
Defined.

(** ** The sheet *)

Lemma list_find_app {A} (f : A -> bool) (l1 l2 : list A) :
  List.find f (l1 ++ l2)
  = match List.find f l1 with Some x => Some x | None => List.find f l2 end.
Proof.
  induction l1 as [|a l1 IH]; cbn [app List.find]; [reflexivity|].
  now destruct (f a).
Qed.

Lemma write_sheet_rows (sales_data : list SalesRecord) :
  write_sheet sales_data
  = write_row 0 true (map CellStr headers) ++ data_rows 1 sales_data.
Proof.
  unfold write_sheet, data_rows.
  generalize (enumerate 1 sales_data). generalize (write_row 0 true (map CellStr headers)).
  intros sheet rows. revert sheet.
  induction rows as [|rr rows IH]; intros sheet; cbn [fold_left map List.concat].
  - now rewrite app_nil_r.
  - rewrite IH, <- app_assoc. reflexivity.
Qed.

Lemma write_row_find_from (row : nat) (formatted : bool) (values : list cell) :
  forall (start r c : nat),
    List.find (fun cw => ((cw_row cw =? r) && (cw_col cw =? c))%nat)
         (map (fun cv => {| cw_row := row; cw_col := fst cv; cw_value := snd cv;
                            cw_header_format := formatted |})
              (combine (seq start (List.length values)) values))
    = if ((row =? r) && (start <=? c))%nat
      then option_map (fun v => {| cw_row := row; cw_col := c; cw_value := v;
                                   cw_header_format := formatted |})
                      (nth_error values (c - start))
      else None.
Proof.
  induction values as [|v values IH]; intros start r c;
    cbn [List.length seq combine map List.find].
  - destruct ((row =? r) && (start <=? c))%nat; [|reflexivity].
    now destruct (c - start)%nat.
  - cbn [cw_row cw_col fst]. rewrite IH.
    destruct (row =? r)%nat eqn:Er; cbn [andb]; [|reflexivity].
    destruct (start =? c)%nat eqn:Ec.
    + apply Nat.eqb_eq in Ec. subst c.
      rewrite Nat.leb_refl, Nat.sub_diag. reflexivity.
    + apply Nat.eqb_neq in Ec.
      destruct (start <=? c)%nat eqn:El.
      * apply Nat.leb_le in El.
        replace (S start <=? c)%nat with true by (symmetry; apply Nat.leb_le; lia).
        replace (c - start)%nat with (S (c - S start)) by lia. reflexivity.
      * apply Nat.leb_gt in El.
        replace (S start <=? c)%nat with false by (symmetry; apply Nat.leb_gt; lia).
        reflexivity.
Qed.

Lemma cell_at_write_row (row r c : nat) (formatted : bool) (values : list cell) :
  cell_at (write_row row formatted values) r c
  = if (row =? r)%nat then nth_error values c else None.
Proof.
  unfold cell_at, write_row, enumerate. rewrite write_row_find_from.
  cbn [Nat.leb]. rewrite andb_true_r, Nat.sub_0_r.
  destruct (row =? r)%nat; [|reflexivity].
  now destruct (nth_error values c).
Qed.

Lemma cell_at_app (l1 l2 : list cell_write) (r c : nat) :
  cell_at (l1 ++ l2) r c
  = match cell_at l1 r c with Some v => Some v | None => cell_at l2 r c end.
Proof.
  unfold cell_at. rewrite list_find_app. now destruct (List.find _ l1).
Qed.

Lemma cell_at_data_rows (sales_data : list SalesRecord) :
  forall (start r c : nat),
    cell_at (data_rows start sales_data) r c
    = if (start <=? r)%nat
      then match nth_error sales_data (r - start) with
           | Some record => nth_error (row_values record) c
           | None => None
           end
      else None.
Proof.
  unfold data_rows, enumerate.
  induction sales_data as [|record rest IH]; intros start r c;
    cbn [List.length seq combine map List.concat].
  - destruct (start <=? r)%nat; [|reflexivity]. now destruct (r - start)%nat.
  - rewrite cell_at_app, cell_at_write_row. cbn [fst snd]. rewrite IH.
    destruct (start =? r)%nat eqn:E.
    + apply Nat.eqb_eq in E. subst r. rewrite Nat.leb_refl, Nat.sub_diag.
      cbn [nth_error].
      destruct (nth_error (row_values record) c) eqn:Ec; [reflexivity|].
      replace (S start <=? start)%nat with false by (symmetry; apply Nat.leb_gt; lia).
      reflexivity.
    + apply Nat.eqb_neq in E.
      destruct (start <=? r)%nat eqn:El.
      * apply Nat.leb_le in El.
        replace (S start <=? r)%nat with true by (symmetry; apply Nat.leb_le; lia).
        replace (r - start)%nat with (S (r - S start)) by lia. reflexivity.
      * apply Nat.leb_gt in El.
        replace (S start <=? r)%nat with false by (symmetry; apply Nat.leb_gt; lia).
        reflexivity.
Qed.

Lemma length_write_row (row : nat) (formatted : bool) (values : list cell) :
  List.length (write_row row formatted values) = List.length values.
Proof.
  unfold write_row, enumerate.
  rewrite length_map, length_combine, length_seq. apply Nat.min_id.
Qed.

Lemma length_data_rows (sales_data : list SalesRecord) (start : nat) :
  List.length (data_rows start sales_data) = (11 * List.length sales_data)%nat.
Proof.
  unfold data_rows, enumerate. revert start.
  induction sales_data as [|record rest IH]; intros start;
    cbn [List.length seq combine map List.concat]; [reflexivity|].
  rewrite length_app, length_write_row, IH. cbn [row_values List.length fst snd]. lia.
Qed.

(** X16: a successful export writes the header row and then one row per
    selected document, in the order of the store: row 0 holds the eleven
    headers, row i + 1 holds the eleven fields of the i-th selected
    document, nothing else is written (11 cells a row), and the file name
    carries the day stamp. *)
Theorem export_sheet_layout (P : Platform) (Sv : Services)
        (start_date end_date : option string) (format : string) (w : world) :
  let q := {| qf_date := dates_given start_date end_date; qf_region := None |} in
  let sales_data := filter (matches q) (sales w) in
  sales_data <> [] ->
  ascii_lower format = "xlsx"%string ->
  exists response,
    fst (export_sales_report P Sv start_date end_date format w) = Ok response
    /\ content_disposition response
       = ("attachment; filename=sales_report_" ++ today_stamp Sv ++ ".xlsx")%string
    /\ List.length (workbook response) = (11 * (List.length sales_data + 1))%nat
    /\ (forall c, cell_at (workbook response) 0 c
                  = option_map CellStr (nth_error headers c))
    /\ (forall i c,
           cell_at (workbook response) (S i) c
           = match nth_error sales_data i with
             | Some record => nth_error (row_values record) c
             | None => None
             end).
Proof.
  intros q sales_data Hne Hf.
  rewrite export_outcomes. fold q. fold sales_data.
  assert (He : is_empty sales_data = false)
    by (destruct sales_data; [congruence|reflexivity]).
  rewrite He, Hf. cbn [String.eqb Ascii.eqb Bool.eqb fst].
  eexists. split; [reflexivity|]. cbn [workbook content_disposition].
  split; [reflexivity|].
  rewrite write_sheet_rows. split; [|split].
  - rewrite length_app, length_write_row, length_data_rows, length_map.
    cbn [headers List.length]. lia.
  - intros c. rewrite cell_at_app, cell_at_write_row. cbn [Nat.eqb].
    rewrite nth_error_map.
    destruct (nth_error headers c); [reflexivity|].
    cbn [option_map]. rewrite cell_at_data_rows. reflexivity.
  - intros i c. rewrite cell_at_app, cell_at_write_row. cbn [Nat.eqb].
    rewrite cell_at_data_rows. cbn [Nat.leb].
    replace (S i - 1)%nat with i by lia. reflexivity.
Qed.

Lemma export_sheet_layout_asia :
  exists response,
    fst (export_sales_report Reference.platform
           reference_services
           None None "XLSX" Reference.asia_only) = Ok response
    /\ content_disposition response
       = "attachment; filename=sales_report_20250101.xlsx"%string
    /\ List.length (workbook response)
       = (11 * (List.length (sales Reference.asia_only) + 1))%nat
    /\ (forall c, cell_at (workbook response) 0 c
                  = option_map CellStr (nth_error headers c))
    /\ (forall i c,
           cell_at (workbook response) (S i) c
           = match nth_error (sales Reference.asia_only) i with
             | Some record => nth_error (row_values record) c
             | None => None
             end).
Proof.
  refine (export_sheet_layout Reference.platform reference_services None None "XLSX"
                              Reference.asia_only _ _).
  - discriminate.
  - reflexivity.
Defined.

(** * AI insights *)

Lemma find_recent_eq (n : nat) (w : world) :
  find_recent n w
  = (Ok (firstn n (sort_by_date_desc (sales w))),
     logged (OpFind {| qf_date := None; qf_region := None |}) w).
Proof. reflexivity. Qed.

Lemma insert_by_date_desc_perm (x : SalesRecord) (xs : list SalesRecord) :
  Permutation (insert_by_date_desc x xs) (x :: xs).
Proof.
  induction xs as [|y ys IH]; cbn [insert_by_date_desc]; [reflexivity|].
  destruct (String.ltb (date x) (date y)); [|reflexivity].
  rewrite IH. apply perm_swap.
Qed.

Lemma sort_by_date_desc_perm (xs : list SalesRecord) :
  Permutation (sort_by_date_desc xs) xs.
Proof.
  unfold sort_by_date_desc. induction xs as [|x xs IH]; cbn [fold_right]; [reflexivity|].
  rewrite insert_by_date_desc_perm. now constructor.
Qed.

Lemma recent_empty_iff (w : world) :
  firstn 1000 (sort_by_date_desc (sales w)) = [] <-> sales w = [].
Proof.
  pose proof (sort_by_date_desc_perm (sales w)) as Hp. split; intros H.
  - destruct (sort_by_date_desc (sales w)) as [|x l] eqn:E; [|discriminate].
    now apply Permutation_nil.
  - now rewrite H.
Qed.

Lemma ai_insights_outcomes (P : Platform) (Sv : Services) (w : world) :
  let recent_data := firstn 1000 (sort_by_date_desc (sales w)) in
  let total_revenue := sum (map total_amount recent_data) in
  let product_sales :=
    fold_left (fun d record => add_product_sales (product_name record) (total_amount record) d)
              recent_data [] in
  let prompt_data :=
    render_prompt Sv total_revenue (total_revenue / inject_Z (len recent_data))%Q
                  (len recent_data) (firstn 5 (sorted_desc snd product_sales)) recent_data in
  get_ai_insights P Sv w =
  (Ok (if is_empty recent_data then fallback_insights P
       else match send_message Sv prompt_data with
            | Raise _ => fallback_insights P
            | Ok insights_text =>
                let extracted := extract_recommendations Sv insights_text in
                {| insights := insights_text;
                   recommendations :=
                     firstn 5 (if is_empty extracted
                               then default_recommendations else extracted);
                   trends_analysis :=
                     "AI-powered analysis of current sales trends and patterns";
                   generated_at := now_utc P 0 |}
            end),
   logged (OpFind {| qf_date := None; qf_region := None |}) w).
Proof.
  cbv zeta. unfold get_ai_insights, try_except, ai_insights_body.
  rewrite (bind_ok _ _ _ _ _ (find_recent_eq 1000 w)).
  destruct (firstn 1000 (sort_by_date_desc (sales w))) as [|r0 rest] eqn:E;
    [reflexivity|].
  rewrite <- E. assert (He : is_empty (firstn 1000 (sort_by_date_desc (sales w))) = false)
    by now rewrite E.
  rewrite He. cbn [negb].
  unfold truediv at 1. rewrite inject_Z_nonzero
    by (rewrite E; unfold len; cbn [List.length]; lia).
  unfold bind at 1. unfold ret at 1. unfold bind at 1.
  destruct (send_message Sv _); reflexivity.
Qed.

(** X17: the AI-insights route never raises: with an empty store, or when
    the language-model call fails, it answers with the fixed fallback
    insights; otherwise it returns the model's text with the first 5
    extracted recommendation lines, or the first 5 of the default list when
    no line qualifies.  In every case it lists between 1 and 5
    recommendations and leaves the store as it was. *)
Theorem ai_insights_always_answer (P : Platform) (Sv : Services) (w : world) :
  exists r,
    fst (get_ai_insights P Sv w) = Ok r
    /\ (1 <= List.length (recommendations r) <= 5)%nat
    /\ sales (snd (get_ai_insights P Sv w)) = sales w
    /\ (sales w = [] -> r = fallback_insights P)
    /\ ((forall prompt, exists e, send_message Sv prompt = Raise e) ->
        r = fallback_insights P)
    /\ (sales w <> [] ->
        forall text, (forall prompt, send_message Sv prompt = Ok text) ->
                     insights r = text
                     /\ recommendations r
                        = firstn 5 (if is_empty (extract_recommendations Sv text)
                                    then default_recommendations
                                    else extract_recommendations Sv text)).
Proof.
  rewrite ai_insights_outcomes. cbv zeta. cbn [fst snd sales logged].
  pose proof (recent_empty_iff w) as Hempty.
  set (recent_data := firstn 1000 (sort_by_date_desc (sales w))) in *.
  eexists. split; [reflexivity|].
  split; [|split; [reflexivity|split; [|split]]].
  - destruct (is_empty recent_data); [cbn; lia|].
    destruct (send_message Sv _) as [text|e]; [|cbn; lia].
    cbn [recommendations].
    destruct (extract_recommendations Sv text) as [|l0 ls] eqn:E; cbn [is_empty].
    + cbn. lia.
    + rewrite length_firstn. cbn [List.length]. lia.
  - intros Hw. apply Hempty in Hw. now rewrite Hw.
  - intros Hfail. destruct (is_empty recent_data); [reflexivity|].
    match goal with |- context [send_message Sv ?p] => destruct (Hfail p) as [e He] end.
    now rewrite He.
  - intros Hne text Hok.
    assert (He : is_empty recent_data = false).
    { destruct recent_data eqn:E; [|reflexivity].
      exfalso. apply Hne. now apply Hempty. }
    rewrite He, Hok. split; reflexivity.
Qed.

Lemma ai_insights_always_answer_asia :
  exists r,
    fst (get_ai_insights Reference.platform reference_services Reference.asia_only) = Ok r
    /\ recommendations r = ["You should rebalance the marketing budget."%string]
    /\ (1 <= List.length (recommendations r) <= 5)%nat.
Proof.
  destruct (ai_insights_always_answer Reference.platform reference_services
              Reference.asia_only) as (r & Hr & Hlen & _ & _ & _ & Hok).
  exists r. split; [exact Hr|]. split; [|exact Hlen].
  destruct (Hok ltac:(discriminate) canned_answer ltac:(reflexivity)) as [_ ->].
  reflexivity.
Defined.

(** * The status routes *)



(** * Sales analytics: what a request returns *)

Lemma sales_analytics_without_range (P : Platform) (start_date end_date region : option string)
      (w : world) :
  dates_given start_date end_date = None ->
  let q := {| qf_date := None; qf_region := region_given region |} in
  let sales_data := filter (matches q) (sales w) in
  sales_data <> [] ->
  get_sales_analytics P start_date end_date region w =
  (Ok {| total_revenue := round (sum (map total_amount sales_data)) 2;
         total_transactions := len sales_data;
         average_order_value :=
           round (sum (map total_amount sales_data) / inject_Z (len sales_data)) 2;
         conversion_rate := round (fst (Random.uniform (25 # 10) (85 # 10) (rng w))) 2;
         period_comparison :=
           {| revenue_growth := 0; previous_revenue := 0; transaction_growth := 0 |} |},
   with_rng (snd (Random.uniform (25 # 10) (85 # 10) (rng w))) (logged (OpFind q) w)).
Proof.
  intros Hd q sales_data Hne.
  unfold get_sales_analytics, try_except, sales_analytics_body.
  rewrite Hd. fold q.
  rewrite (bind_ok _ _ _ _ _ (find_eq q w)). fold sales_data.
  destruct sales_data as [|r0 rest] eqn:E; [congruence|].
  rewrite <- E. assert (He : is_empty sales_data = false) by now rewrite E.
  rewrite He.
  rewrite (bind_ok _ _ _ _ _ (average_order_value_of_eq _ _ _)).
  rewrite (bind_ok _ _ _ _ _ (random_uniform_eq _ _ _)).
  assert (Hpos : (len sales_data >? 0) = true).
  { rewrite E. unfold len. cbn [List.length]. apply Z.gtb_lt. lia. }
  rewrite Hpos. reflexivity.
Qed.

Lemma dates_given_incomplete (start_date end_date : option string) :
  start_date = None \/ start_date = Some ""%string
  \/ end_date = None \/ end_date = Some ""%string ->
  dates_given start_date end_date = None.
Proof.
  unfold dates_given.
  intros [-> | [-> | [-> | ->]]]; try reflexivity.
  - now destruct end_date.
  - now destruct start_date.
  - destruct start_date as [s|]; [|reflexivity].
    cbn [truthy]. now rewrite andb_false_r.
Qed.

Lemma sales_analytics_body_dates (P : Platform) (s1 e1 s2 e2 region : option string) :
  dates_given s1 e1 = dates_given s2 e2 ->
  sales_analytics_body P s1 e1 region = sales_analytics_body P s2 e2 region.
Proof. intros H. unfold sales_analytics_body. now rewrite H. Qed.

(** X19: a request that gives only one end of the date range, or gives an
    end as the empty string, is answered as if no date had been given: the
    one date is dropped without an error, every stored document of the
    region is counted, the comparison block is all zero and the store is
    queried once, with no date condition. *)
Theorem incomplete_range_is_ignored (P : Platform) (start_date end_date region : option string)
        (w : world) :
  start_date = None \/ start_date = Some ""%string
  \/ end_date = None \/ end_date = Some ""%string ->
  let q := {| qf_date := None; qf_region := region_given region |} in
  get_sales_analytics P start_date end_date region w
  = get_sales_analytics P None None region w
  /\ oplog (snd (get_sales_analytics P start_date end_date region w))
     = oplog w ++ [OpFind q]
  /\ forall r, fst (get_sales_analytics P start_date end_date region w) = Ok r ->
               total_transactions r = len (filter (matches q) (sales w))
               /\ period_comparison r
                  = {| revenue_growth := 0; previous_revenue := 0;
                       transaction_growth := 0 |}.
Proof.
  intros Hinc q. pose proof (dates_given_incomplete _ _ Hinc) as Hd.
  split; [|].
  - unfold get_sales_analytics.
    now rewrite (sales_analytics_body_dates P start_date end_date None None region).
  - destruct (filter (matches q) (sales w)) as [|r0 rest] eqn:E.
    + pose proof (sales_analytics_no_match P start_date end_date region w) as Hno.
      cbv zeta in Hno. rewrite Hd in Hno. fold q in Hno. rewrite (Hno E).
      cbn [fst snd oplog logged]. split; [reflexivity|]. intros r H. discriminate.
    + pose proof (sales_analytics_without_range P start_date end_date region w Hd) as Hyes.
      cbv zeta in Hyes. fold q in Hyes. rewrite E in Hyes.
      rewrite (Hyes ltac:(discriminate)).
      cbn [fst snd oplog logged with_rng]. split; [reflexivity|].
      intros r H. injection H as <-. split; reflexivity.
Qed.

Lemma incomplete_range_is_ignored_asia :
  get_sales_analytics Reference.platform (Some "2030-01-01"%string) None None
    Reference.asia_only
  = get_sales_analytics Reference.platform None None None Reference.asia_only
  /\ exists r, fst (get_sales_analytics Reference.platform (Some "2030-01-01"%string) None None
                      Reference.asia_only) = Ok r
               /\ total_transactions r = len (sales Reference.asia_only).
Proof.
  destruct (incomplete_range_is_ignored Reference.platform (Some "2030-01-01"%string)
              None None Reference.asia_only) as (Heq & _ & Hr).
  - right. right. left. reflexivity.
  - split; [exact Heq|]. eexists. split; [vm_compute; reflexivity|].
    vm_compute. reflexivity.
Defined.




(** X21: a request with both dates given whose start or end date
    [datetime.fromisoformat] refuses always fails with status 500: the
    strings are first used as they are in the query, and the route raises
    either on the empty result or, when documents matched, on the date it
    cannot parse.  One query is issued and the store is left as it was. *)
Theorem unparsable_dates_fail_after_the_query (P : Platform) (s e : string)
        (region : option string) (w : world) :
  s <> ""%string -> e <> ""%string ->
  fromisoformat P s = None \/ fromisoformat P e = None ->
  let q := {| qf_date := Some (s, e); qf_region := region_given region |} in
  (exists detail,
      fst (get_sales_analytics P (Some s) (Some e) region w)
      = Raise (HTTPException 500 detail)
      /\ (filter (matches q) (sales w) <> [] ->
          detail = ("Error calculating sales analytics: " ++ exn_str P ValueError)%string))
  /\ sales (snd (get_sales_analytics P (Some s) (Some e) region w)) = sales w
  /\ oplog (snd (get_sales_analytics P (Some s) (Some e) region w)) = oplog w ++ [OpFind q].
Proof.
  intros Hs He Hbad q.
  assert (Hd : dates_given (Some s) (Some e) = Some (s, e)).
  { unfold dates_given, truthy.
    destruct (String.eqb_spec s ""); [contradiction|].
    destruct (String.eqb_spec e ""); [contradiction|]. reflexivity. }
  destruct (filter (matches q) (sales w)) as [|r0 rest] eqn:E.
  - pose proof (sales_analytics_no_match P (Some s) (Some e) region w) as Hno.
    cbv zeta in Hno. rewrite Hd in Hno. fold q in Hno. rewrite (Hno E).
    cbn [fst snd sales oplog logged].
    split; [|split; reflexivity].
    eexists. split; [reflexivity|]. intros H. now contradiction H.
  - unfold get_sales_analytics, try_except, sales_analytics_body.
    rewrite Hd. fold q.
    rewrite (bind_ok _ _ _ _ _ (find_eq q w)). rewrite E. cbn [is_empty].
    rewrite (bind_ok _ _ _ _ _ (average_order_value_of_eq _ _ _)).
    rewrite (bind_ok _ _ _ _ _ (random_uniform_eq _ _ _)).
    set (w1 := with_rng _ _).
    match goal with
    | |- context [bind ?c ?k w1] =>
        assert (Hc : c w1 = (Raise ValueError, w1))
    end.
    { destruct Hbad as [Hbad | Hbad].
      - rewrite Hbad. reflexivity.
      - rewrite Hbad. destruct (fromisoformat P s); reflexivity. }
    rewrite (bind_raise _ _ _ _ _ Hc).
    cbn [fst snd sales oplog logged with_rng w1 raise].
    split; [|split; reflexivity].
    eexists. split; [reflexivity|]. intros _. reflexivity.
Qed.

Lemma unparsable_dates_fail_after_the_query_asia :
  fst (get_sales_analytics Reference.platform (Some "2024"%string) (Some "2025"%string)
         None Reference.asia_only)
  = Raise (HTTPException 500 "Error calculating sales analytics: invalid literal").
Proof.
  destruct (unparsable_dates_fail_after_the_query Reference.platform "2024" "2025" None
              Reference.asia_only) as ((detail & Hr & Hd) & _).
  - discriminate.
  - discriminate.
  - left. reflexivity.
  - rewrite Hr. rewrite Hd; [reflexivity|]. vm_compute. discriminate.
Defined.

(** * Routes that only read *)

Lemma read_only_ret {A} (a : A) : read_only (ret a).
Proof.
  intros w. split; [reflexivity|]. exists []. now rewrite app_nil_r.
Qed.

Lemma read_only_raise {A} (e : exn) : read_only (@raise world A e).
Proof.
  intros w. split; [reflexivity|]. exists []. now rewrite app_nil_r.
Qed.

Lemma read_only_get : read_only (@get world).
Proof.
  intros w. split; [reflexivity|]. exists []. now rewrite app_nil_r.
Qed.

Lemma read_only_log_op (o : db_op) : is_write o = false -> read_only (log_op o).
Proof.
  intros Ho w. split; [reflexivity|]. exists [o]. split; [reflexivity|].
  cbn [existsb]. now rewrite Ho.
Qed.

Lemma read_only_bind {A B} (c : M world A) (k : A -> M world B) :
  read_only c -> (forall a, read_only (k a)) -> read_only (bind c k).
Proof.
  intros Hc Hk w. unfold bind.
  destruct (Hc w) as (Hs & ops & Hl & Hw).
  destruct (c w) as [[a|e] w1]; cbn [snd] in *.
  - destruct (Hk a w1) as (Hs' & ops' & Hl' & Hw').
    split; [congruence|]. exists (ops ++ ops').
    split; [rewrite Hl', Hl; now rewrite app_assoc|].
    rewrite existsb_app, Hw, Hw'. reflexivity.
  - split; [exact Hs|]. now exists ops.
Qed.

Lemma read_only_try_except {A} (c : M world A) (handler : exn -> M world A) :
  read_only c -> (forall e, read_only (handler e)) -> read_only (try_except c handler).
Proof.
  intros Hc Hh w. unfold try_except.
  destruct (Hc w) as (Hs & ops & Hl & Hw).
  destruct (c w) as [[a|e] w1]; cbn [snd] in *.
  - split; [exact Hs|]. now exists ops.
  - destruct (Hh e w1) as (Hs' & ops' & Hl' & Hw').
    split; [congruence|]. exists (ops ++ ops').
    split; [rewrite Hl', Hl; now rewrite app_assoc|].
    rewrite existsb_app, Hw, Hw'. reflexivity.
Qed.

Lemma read_only_lift_random {A} (f : Random.state -> A * Random.state) :
  read_only (lift_random f).
Proof.
  intros w. unfold lift_random. destruct (f (rng w)) as [a g]. cbn [snd with_rng sales oplog].
  split; [reflexivity|]. exists []. now rewrite app_nil_r.
Qed.

Lemma read_only_truediv (a b : Q) : read_only (@truediv world a b).
Proof.
  unfold truediv. destruct (Qeq_bool b 0); [apply read_only_raise | apply read_only_ret].
Qed.

Lemma read_only_or_raise {A} (e : exn) (o : option A) : read_only (@or_raise world A e o).
Proof.
  destruct o; [apply read_only_ret | apply read_only_raise].
Qed.

Lemma read_only_for_each {A B} (xs : list A) (body : B -> A -> M world B) :
  (forall acc x, read_only (body acc x)) ->
  forall acc, read_only (for_each xs body acc).
Proof.
  intros Hbody. induction xs as [|x xs IH]; intros acc; cbn [for_each].
  - apply read_only_ret.
  - apply read_only_bind; [apply Hbody | exact IH].
Qed.

Lemma read_only_pure {A} (r : result A) : read_only (fun w : world => (r, w)).
Proof.
  intros w. split; [reflexivity|]. exists []. now rewrite app_nil_r.
Qed.

Lemma read_only_find (q : query_filter) : read_only (find q).
Proof.
  unfold find.
  apply read_only_bind; [now apply read_only_log_op|intros _].
  apply read_only_bind; [apply read_only_get|intros w]. apply read_only_ret.
Qed.

Create HintDb reads.

#[local] Hint Resolve read_only_ret read_only_raise read_only_get read_only_lift_random
  read_only_truediv read_only_or_raise read_only_pure read_only_find : reads.

Ltac read_only :=
  repeat match goal with
         | |- read_only (bind _ _) => apply read_only_bind; [|intros ?]
         | |- read_only (try_except _ _) => apply read_only_try_except; [|intros ?]
         | |- read_only (for_each _ _ _) => apply read_only_for_each; intros ? ?
         | |- read_only (log_op _) => apply read_only_log_op; reflexivity
         | |- read_only (if ?b then _ else _) => destruct b
         | |- read_only (match ?o with Some _ => _ | None => _ end) => destruct o
         | |- read_only (let (_, _) := ?p in _) => destruct p
         | |- read_only _ => solve [auto with reads]
         end.

Lemma read_only_sales_analytics (P : Platform) (start_date end_date region : option string) :
  read_only (get_sales_analytics P start_date end_date region).
Proof.
  unfold get_sales_analytics, sales_analytics_body, average_order_value_of,
    revenue_growth_of, transaction_growth_of, random_uniform.
  read_only.
Qed.

Lemma read_only_customer_analytics (P : Platform) : read_only (get_customer_analytics P).
Proof.
  unfold get_customer_analytics, customer_analytics_body, aggregate_customers,
    retention_rate_of.
  read_only.
Qed.

Lemma read_only_product_analytics (P : Platform) : read_only (get_product_analytics P).
Proof.
  unfold get_product_analytics, product_analytics_body, aggregate_products,
    aggregate_categories, random_randint.
  read_only.
Qed.

Lemma read_only_seasonal_trends (P : Platform) : read_only (get_seasonal_trends P).
Proof.
  unfold get_seasonal_trends, seasonal_trends_body, aggregate_monthly, monthly_groups,
    find_peak_periods, month_num_of.
  read_only.
Qed.

Lemma read_only_ai_insights (P : Platform) (Sv : Services) : read_only (get_ai_insights P Sv).
Proof.
  unfold get_ai_insights, ai_insights_body, find_recent.
  read_only.
Qed.

Lemma read_only_export (P : Platform) (Sv : Services) (start_date end_date : option string)
      (format : string) :
  read_only (export_sales_report P Sv start_date end_date format).
Proof.
  unfold export_sales_report, export_body.
  read_only.
Qed.

(** X22: the six reporting routes only read: whatever the request, the
    stored data and the platform, and whether the route returns or raises,
    the documents are the same afterwards and none of the driver calls it
    made is a write. *)
Theorem reporting_routes_only_read (P : Platform) (Sv : Services) :
  (forall start_date end_date region,
      read_only (get_sales_analytics P start_date end_date region))
  /\ read_only (get_customer_analytics P)
  /\ read_only (get_product_analytics P)
  /\ read_only (get_seasonal_trends P)
  /\ read_only (get_ai_insights P Sv)
  /\ (forall start_date end_date format,
         read_only (export_sales_report P Sv start_date end_date format)).
Proof.
  split; [intros; apply read_only_sales_analytics|].
  split; [apply read_only_customer_analytics|].
  split; [apply read_only_product_analytics|].
  split; [apply read_only_seasonal_trends|].
  split; [apply read_only_ai_insights|].
  intros. apply read_only_export.
Qed.
